(** * make_accessible.py: the Arabic PDF accessibility processor

    A shallow embedding of [src/make_accessible.py] and the properties of
    its text-presence detector, its per-page overlay layout, its page
    assembly and its directory driver.

    Conventions of the embedding.
    - A Python [str] is a list of Unicode code points.
    - A Python [float] is kept as the rational number it denotes ([Qc]).
      [int / int] and the subtraction [pt_h - 12] round their exact result
      to the nearest binary64 number, ties to even ([binary64]); the sign
      of a zero is not kept.
    - The libraries (pdfplumber, pdf2image, pytesseract, arabic_reshaper,
      python-bidi, Pillow's PDF writer, ReportLab's canvas writer) and the
      operating system are collaborators whose answers are read from an
      environment record [Env]; a failing library or system call raises an
      instance of [Exception].  What the program asks of ReportLab is kept
      as the list of its [drawString] calls; what ReportLab writes for them
      is the library's answer.
    - Statements run in a state-and-exception monad over the file system
      and a trace of observable events. *)

From stdpp Require Import base numbers list strings gmap fin_maps sorting.
From Stdlib Require Import QArith Qcanon SpecFloat Lqa.

Local Open Scope Z_scope.

(** ** Python strings *)

Module Str.

Definition char := N.
Definition str := list char.

(** [str.isspace] of one code point (CPython's [_PyUnicode_IsWhitespace]). *)
Definition is_whitespace (c : char) : bool :=
  ((9 <=? c) && (c <=? 13) || (28 <=? c) && (c <=? 32)
   || (c =? 133) || (c =? 160) || (c =? 5760)
   || (8192 <=? c) && (c <=? 8202)
   || (c =? 8232) || (c =? 8233) || (c =? 8239) || (c =? 8287)
   || (c =? 12288))%N.

(** Line boundaries of [str.splitlines] (CPython's [_PyUnicode_IsLinebreak]). *)
Definition is_linebreak (c : char) : bool :=
  ((10 <=? c) && (c <=? 13) || (28 <=? c) && (c <=? 30)
   || (c =? 133) || (c =? 8232) || (c =? 8233))%N.

Fixpoint lstrip (s : str) : str :=
  match s with
  | c :: rest => if is_whitespace c then lstrip rest else s
  | [] => []
  end.

Definition rstrip (s : str) : str := reverse (lstrip (reverse s)).

(** [s.strip()] *)
Definition strip (s : str) : str := rstrip (lstrip s).

(** [len(s)] *)
Definition len (s : str) : Z := Z.of_nat (length s).

(** Truth value of a string: non-empty. *)
Definition truthy (s : str) : bool :=
  match s with [] => false | _ :: _ => true end.

(** [s.splitlines()]: [cur] holds the characters of the line being read, in
    reverse.  A carriage return directly followed by a line feed is one
    boundary; no empty line is produced after the last boundary. *)
Fixpoint splitlines_from (cur : str) (s : str) : list str :=
  match s with
  | [] => match cur with [] => [] | _ :: _ => [reverse cur] end
  | c :: rest =>
      if is_linebreak c then
        match rest with
        | d :: rest' =>
            if ((c =? 13) && (d =? 10))%N
            then reverse cur :: splitlines_from [] rest'
            else reverse cur :: splitlines_from [] rest
        | [] => reverse cur :: splitlines_from [] rest
        end
      else splitlines_from (c :: cur) rest
  end.

Definition splitlines (s : str) : list str := splitlines_from [] s.

(** Code points of an ASCII literal. *)
Definition of_string (s : string) : str :=
  Ascii.N_of_ascii <$> String.list_ascii_of_string s.

End Str.

Import Str.

(** ** Exceptions and results *)

(** [Exception] stands for any instance of Python's [Exception] (OSError,
    ImportError, ZeroDivisionError, a library error, ...).  [SystemExit] is
    what [sys.exit] raises; it derives from [BaseException] only, so an
    [except Exception] clause does not catch it. *)
Inductive exn :=
  | Exception (msg : string)
  | SystemExit (msg : string).

Inductive res (A : Type) :=
  | Ret (a : A)
  | Raise (e : exn).
Arguments Ret {A} a.
Arguments Raise {A} e.

(** Answer of a collaborator: a value, or a failure that is raised as an
    [Exception] carrying the message. *)
Inductive outcome (A : Type) :=
  | Ok (a : A)
  | Fails (msg : string).
Arguments Ok {A} a.
Arguments Fails {A} msg.

Definition lift {A} (o : outcome A) : res A :=
  match o with
  | Ok a => Ret a
  | Fails msg => Raise (Exception msg)
  end.

Definition bindR {A B} (m : res A) (k : A -> res B) : res B :=
  match m with
  | Ret a => k a
  | Raise e => Raise e
  end.

Notation "x <~ m ;; k" := (bindR m (fun x => k))
  (at level 100, m at next level, right associativity).

(** ** Pages, images and the canvas *)

Local Open Scope Qc_scope.

Notation "# z" := (Qc_of_Z z) (at level 5, format "# z").

(** *** Binary64 arithmetic *)

(** Nearest integer to [n / d] for [0 <= n] and [0 < d], ties to even. *)
Definition round_half_even (n d : Z) : Z :=
  let q := (n / d)%Z in
  match (2 * (n mod d) ?= d)%Z with
  | Lt => q
  | Gt => (q + 1)%Z
  | Eq => if Z.even q then q else (q + 1)%Z
  end.

(** [floor (log2 (n / d))] for [0 < n] and [0 < d]. *)
Definition ilog2 (n d : Z) : Z :=
  let e0 := (Z.log2 n - Z.log2 d)%Z in
  if (n * 2 ^ Z.max 0 (- e0) <? d * 2 ^ Z.max 0 e0)%Z then (e0 - 1)%Z else e0.

(** [2 ^ u] for an exponent of either sign. *)
Definition pow2 (u : Z) : Qc :=
  if (0 <=? u)%Z then #(2 ^ u) else / #(2 ^ (- u)).

(** The number [m * 2 ^ u] nearest to [n / d] ([0 < n], [0 < d]) with a
    significand [m] of at most 53 bits and [-1074 <= u], ties to even:
    the binary64 rounding of [n / d] as long as the result is below
    [2 ^ 1024]. *)
Definition nearest64 (n d : Z) : Qc :=
  let e := ilog2 n d in
  let u := Z.max (e - 52) (-1074) in
  let m := round_half_even (n * 2 ^ Z.max 0 (- u)) (d * 2 ^ Z.max 0 u) in
  #m * pow2 u.

(** [a / b] rounded to nearest, ties to even ([b <> 0]). *)
Definition round_ratio (a b : Z) : Qc :=
  match (a * Z.sgn b)%Z with
  | Z0 => 0
  | Zpos _ => nearest64 (Z.abs a) (Z.abs b)
  | Zneg _ => - nearest64 (Z.abs a) (Z.abs b)
  end.

(** A rational number rounded to nearest, ties to even. *)
Definition binary64 (x : Qc) : Qc := round_ratio (Qnum x) (Zpos (Qden x)).

(** Python's true division of two ints: the exact quotient, rounded once.
    A zero divisor raises [ZeroDivisionError], a result beyond the largest
    float raises [OverflowError]. *)
Definition true_div (a b : Z) : res Qc :=
  if decide (b = 0%Z) then Raise (Exception "division by zero")
  else
    let x := round_ratio a b in
    if decide (- #(2 ^ 1024) < x /\ x < #(2 ^ 1024)) then Ret x
    else Raise (Exception "integer division result too large for a float").

(** [x - y] on two floats.  For a float [x] and [y = 12] the result is
    below [2 ^ 1024] in magnitude. *)
Definition float_sub (x y : Qc) : Qc := binary64 (x - y).

(** A raster image: [size] in pixels and the bitmap itself (opaque). *)
Record image := { size : Z * Z; pixels : N }.

(** One call of [drawString], with the graphics state of the canvas at
    the time of the call. *)
Record text_op := {
  op_alpha : Z;
  op_font : string * Z;
  op_x : Qc;
  op_y : Qc;
  op_text : str;
}.

(** What a page shows: an image, or a stream of text instructions as
    ReportLab wrote it (opaque, told apart by [id]). *)
Inductive content :=
  | DrawImage (im : image)
  | TextStream (id : N).

Record pdf_page := {
  mediabox : Qc * Qc;
  contents : list content;
}.

(** ReportLab's canvas as the program drives it: page size, opacity of the
    fill colour, font, and the [drawString] calls made so far. *)
Record canvas := {
  pagesize : Qc * Qc;
  fill_alpha : Z;
  font : string * Z;
  code : list text_op;
}.

Definition Canvas (size : Qc * Qc) : canvas :=
  {| pagesize := size; fill_alpha := 1; font := ("Helvetica", 12%Z); code := [] |}.

(** [c.setFillColorRGB(r, g, b, alpha=...)]; of the colour only the
    opacity is kept. *)
Definition setFillColorRGB (r g b alpha : Z) (c : canvas) : canvas :=
  {| pagesize := pagesize c; fill_alpha := alpha; font := font c; code := code c |}.

Definition setFont (name : string) (sz : Z) (c : canvas) : canvas :=
  {| pagesize := pagesize c; fill_alpha := fill_alpha c; font := (name, sz); code := code c |}.

Definition drawString (x y : Qc) (text : str) (c : canvas) : canvas :=
  {| pagesize := pagesize c; fill_alpha := fill_alpha c; font := font c;
     code := code c ++ [ {| op_alpha := fill_alpha c; op_font := font c;
                            op_x := x; op_y := y; op_text := text |} ] |}.

(** [PdfReader(buf).pages[0]] *)
Definition first_page (buf : list pdf_page) : res pdf_page :=
  match buf with
  | p :: _ => Ret p
  | [] => Raise (Exception "sequence index out of range")
  end.

(** pypdf's [page.merge_page(page2)]: the content of [page2] is added on
    top of the page; the page keeps its own boxes.  No comparison of the
    two page sizes takes place. *)
Definition merge_page (page page2 : pdf_page) : pdf_page :=
  {| mediabox := mediabox page; contents := contents page ++ contents page2 |}.

(** ** The text layer of one page (lines 116-123 of [ocr_pdf]) *)

Fixpoint layout_lines (lines : list str) (y : Qc) (c : canvas) : canvas :=
  match lines with
  | [] => c
  | line :: rest =>
      let c' := if truthy (strip line) then drawString #8 y line c else c in
      let y' := y - #10 in
      if decide (y' < #10) then c' else layout_lines rest y' c'
  end.

(** ** The world: files, collaborators, observable events *)

(** A path is the pair of its parent directory and its file name
    ([pdf.parent], [pdf.name]). *)
Abbreviation path := (string * string)%type.

Definition parent (p : path) : string := fst p.
Definition name (p : path) : string := snd p.

(** What a file holds: the bytes of some input document (opaque, told
    apart by [id]), an empty or partly written file, or a document written
    out completely by [PdfWriter.write]. *)
Inductive file :=
  | Original (id : N)
  | Truncated
  | Composite (pages : list pdf_page).

Inductive syscall :=
  | SysMkstemp (dir : string)
  | SysClose (p : path)
  | SysOpenWrite (p : path)
  | SysWrite (p : path)
  | SysReplace (src dst : path)
  | SysUnlink (p : path)
  | SysMkdir (dir : string).

(** Lines printed by the program. *)
Inductive message :=
  | MsgWarn (file_name : string) (e : string)
  | MsgNoFiles
  | MsgScanning (total : nat)
  | MsgOk (file_name : string)
  | MsgNeedsOcr (file_name : string)
  | MsgErr (file_name : string) (e : string)
  | MsgSummary (already_ok needs_ocr errors : nat)
  | MsgDryRun
  | MsgNothingToDo
  | MsgProgress (i n : nat) (file_name : string)
  | MsgDone
  | MsgFailed (e : string)
  | MsgErrorCount (n : nat)
  | MsgErrorItem (file_name : string) (e : string)
  | MsgAllDone (n : nat).

Inductive event :=
  | Printed (m : message)
  | Rasterized (p : path) (dpi : Z)
  | Recognized (p : path) (page_index : nat).

Record state := {
  fs : gmap path file;
  trace : list event;
}.

(** The collaborators.  [pdfplumber_open] gives, for the bytes of a file,
    either a failure to open it or its pages, each page being the answer
    [extract_text] will give (a failure, [None], or the text).
    [image_save] is Pillow writing an image as a PDF at a resolution: a
    failure, or the size in points of the page it wrote.  [canvas_save] is
    ReportLab's [c.save()] followed by [PdfReader(packet).pages]: a
    failure, or the pages read back from the packet.  The name
    [mkstemp] picks and the refusal of a system call may differ from one
    moment to the next, so they are read off the current state. *)
Record Env := {
  importable : string -> bool;
  pdfplumber_open : file -> outcome (list (outcome (option str)));
  convert_from_path : file -> Z -> outcome (list image);
  image_to_string : image -> outcome str;
  reshape : str -> str;
  get_display : str -> str;
  image_save : image -> Z -> outcome (Qc * Qc);
  canvas_save : canvas -> outcome (list pdf_page);
  mkstemp_name : state -> string -> string;
  os_fault : state -> syscall -> option string;
}.

(** ** The monad of statements *)

Definition M (A : Type) : Type := state -> res A * state.

Definition ret {A} (a : A) : M A := fun s => (Ret a, s).
Definition raise {A} (e : exn) : M A := fun s => (Raise e, s).

Definition bind {A B} (m : M A) (k : A -> M B) : M B :=
  fun s =>
    match m s with
    | (Ret a, s') => k a s'
    | (Raise e, s') => (Raise e, s')
    end.

Notation "x <- m ;; k" := (bind m (fun x => k))
  (at level 100, m at next level, right associativity).
Notation "m ;;; k" := (bind m (fun _ => k))
  (at level 100, right associativity).

(** [try: body except Exception as e: handler(str(e))] *)
Definition try_except {A} (body : M A) (handler : string -> M A) : M A :=
  fun s =>
    match body s with
    | (Raise (Exception msg), s') => handler msg s'
    | other => other
    end.

Definition liftM {A} (r : res A) : M A := fun s => (r, s).

Definition emit (ev : event) : M unit :=
  fun s => (Ret tt, {| fs := fs s; trace := trace s ++ [ev] |}).

Definition print (m : message) : M unit := emit (Printed m).

Definition get_fs : M (gmap path file) := fun s => (Ret (fs s), s).

Definition put_fs (f : gmap path file) : M unit :=
  fun s => (Ret tt, {| fs := f; trace := trace s |}).

Section Program.

Variable E : Env.

(** A system call that the environment may refuse. *)
Definition sys (c : syscall) : M unit :=
  fun s =>
    match os_fault E s c with
    | Some msg => raise (Exception msg) s
    | None => ret tt s
    end.

(** *** Lazy imports (lines 37-43) *)

Definition _require (module : string) (package : option string) : M unit :=
  if importable E module then ret tt
  else
    let pkg := default module package in
    raise (SystemExit ("Missing dependency: '" +:+ pkg +:+
                       "'.  Install with:  pip install " +:+ pkg)).

(** A plain [import] statement. *)
Definition import (module : string) : M unit :=
  if importable E module then ret tt
  else raise (Exception ("No module named '" +:+ module +:+ "'")).

(** *** Text detection (lines 50-61) *)

Definition open_pdf (pdf_path : path) : M (list (outcome (option str))) :=
  f <- get_fs ;;
  match f !! pdf_path with
  | None => raise (Exception "No such file or directory")
  | Some bytes => liftM (lift (pdfplumber_open E bytes))
  end.

(** The loop over [pdf.pages]; the result is [true] when the function
    returns from inside the loop. *)
Fixpoint scan_pages (pages : list (outcome (option str))) (min_chars : Z) : M bool :=
  match pages with
  | [] => ret false
  | page :: rest =>
      extracted <- liftM (lift page) ;;
      let text := default [] extracted in
      if (min_chars <=? len (strip text))%Z then ret true
      else scan_pages rest min_chars
  end.

Definition has_extractable_text (pdf_path : path) (min_chars : Z) : M bool :=
  _require "pdfplumber" None ;;;
  try_except
    (pages <- open_pdf pdf_path ;;
     scan_pages pages min_chars)
    (fun e => print (MsgWarn (name pdf_path) e) ;;; ret false).

Definition default_min_chars : Z := 20.

(** *** OCR helpers (lines 68-141) *)

(** Lines 101-102 and 116: the whole recognized text of the page is
    reshaped, then reordered, and the result is split into lines. *)
Definition display_lines (raw_text : str) : list str :=
  let reshaped := reshape E raw_text in
  let bidi_text := get_display E reshaped in
  splitlines bidi_text.

(** Lines 105-123: the canvas with the calls the loop has made on it. *)
Definition overlay_canvas (im : image) (dpi : Z) (lines : list str) : res canvas :=
  let '(img_w, img_h) := size im in
  pt_w <~ true_div (img_w * 72) dpi ;;
  pt_h <~ true_div (img_h * 72) dpi ;;
  let c := Canvas (pt_w, pt_h) in
  let c := setFillColorRGB 0 0 0 0 c in
  let c := setFont "Helvetica" 8 c in
  let y := float_sub pt_h #12 in
  let c := layout_lines lines y c in
  Ret c.

(** [c.save()] and [PdfReader(packet).pages] (lines 125-126, 135). *)
Definition save (c : canvas) : res (list pdf_page) := lift (canvas_save E c).

(** Lines 105-126: the text layer, as the pages of the packet. *)
Definition text_layer (im : image) (dpi : Z) (lines : list str) : res (list pdf_page) :=
  c <~ overlay_canvas im dpi lines ;;
  save c.

(** [image.save(img_pdf_buf, format="PDF", resolution=dpi)] and
    [PdfReader(img_pdf_buf).pages] (lines 130-134): a one-page document
    that shows the image, on a page of the size Pillow gave it. *)
Definition Image_save_pdf (im : image) (resolution : Z) : res (list pdf_page) :=
  box <~ lift (image_save E im resolution) ;;
  Ret [ {| mediabox := box; contents := [DrawImage im] |} ].

(** Lines 128-137: image page and text layer merged into one page. *)
Definition composite (im : image) (dpi : Z) (packet : list pdf_page) : res pdf_page :=
  img_pdf_buf <~ Image_save_pdf im dpi ;;
  img_page <~ first_page img_pdf_buf ;;
  text_page <~ first_page packet ;;
  Ret (merge_page img_page text_page).

(** The body of the loop over the images (lines 94-137). *)
Definition ocr_page (im : image) (dpi : Z) : res pdf_page :=
  raw_text <~ lift (image_to_string E im) ;;
  packet <~ text_layer im dpi (display_lines raw_text) ;;
  composite im dpi packet.

Definition rasterize (pdf_path : path) (dpi : Z) : M (list image) :=
  emit (Rasterized pdf_path dpi) ;;;
  f <- get_fs ;;
  match f !! pdf_path with
  | None => raise (Exception "Unable to get page count")
  | Some bytes => liftM (lift (convert_from_path E bytes dpi))
  end.

(** The loop of lines 93-138; [writer] is the list of pages added so far. *)
Fixpoint ocr_pages (pdf_path : path) (images : list image) (dpi : Z)
    (i : nat) (writer : list pdf_page) : M (list pdf_page) :=
  match images with
  | [] => ret writer
  | im :: rest =>
      emit (Recognized pdf_path i) ;;;
      img_page <- liftM (ocr_page im dpi) ;;
      ocr_pages pdf_path rest dpi (S i) (writer ++ [img_page])
  end.

(** Lines 140-141: [open(output_path, "wb")] creates or empties the file;
    a failing [writer.write] leaves it partly written. *)
Definition write_pdf (output_path : path) (pages : list pdf_page) : M unit :=
  sys (SysOpenWrite output_path) ;;;
  f <- get_fs ;;
  put_fs (<[output_path := Truncated]> f) ;;;
  sys (SysWrite output_path) ;;;
  f <- get_fs ;;
  put_fs (<[output_path := Composite pages]> f).

(** Of the plain imports of lines 82-88 only [pypdf] can be missing: [io]
    is part of Python and the others have been required just before. *)
Definition ocr_pdf (pdf_path output_path : path) (dpi : Z) : M unit :=
  _require "pytesseract" None ;;;
  _require "pdf2image" (Some "pdf2image") ;;;
  _require "reportlab.pdfgen.canvas" (Some "reportlab") ;;;
  _require "reportlab.lib.pagesizes" (Some "reportlab") ;;;
  _require "arabic_reshaper" None ;;;
  _require "bidi.algorithm" (Some "python-bidi") ;;;
  import "pypdf" ;;;
  images <- rasterize pdf_path dpi ;;
  pages <- ocr_pages pdf_path images dpi 0 [] ;;
  write_pdf output_path pages.

(** *** Operating system calls used by the driver *)

Definition attempt {A} (body : M A) : M (string + A) :=
  fun s =>
    match body s with
    | (Ret a, s') => (Ret (inr a), s')
    | (Raise (Exception msg), s') => (Ret (inl msg), s')
    | (Raise e, s') => (Raise e, s')
    end.

(** [tempfile.mkstemp(dir=..., suffix=...)]: a new empty file under a name
    that did not exist, or an error when no such name is found. *)
Definition mkstemp (dir suffix : string) : M path :=
  sys (SysMkstemp dir) ;;;
  fun s =>
    let tmp := (dir, mkstemp_name E s dir +:+ suffix) in
    match fs s !! tmp with
    | Some _ => raise (Exception "No usable temporary file name found") s
    | None => (put_fs (<[tmp := Truncated]> (fs s)) ;;; ret tmp) s
    end.

Definition os_close (tmp : path) : M unit := sys (SysClose tmp).

(** [os.replace(src, dst)]: all or nothing. *)
Definition os_replace (src dst : path) : M unit :=
  sys (SysReplace src dst) ;;;
  f <- get_fs ;;
  match f !! src with
  | None => raise (Exception "No such file or directory")
  | Some bytes => put_fs (<[dst := bytes]> (delete src f))
  end.

Definition os_path_exists (p : path) : M bool :=
  f <- get_fs ;;
  ret (bool_decide (is_Some (f !! p))).

Definition os_unlink (p : path) : M unit :=
  sys (SysUnlink p) ;;;
  f <- get_fs ;;
  match f !! p with
  | None => raise (Exception "No such file or directory")
  | Some _ => put_fs (delete p f)
  end.

Definition mkdir (dir : string) : M unit := sys (SysMkdir dir).

(** *** Main processing loop (lines 148-218) *)

Definition is_pdf_name (n : string) : bool :=
  bool_decide (String.list_ascii_of_string ".pdf"
                 `suffix_of` String.list_ascii_of_string n).

(** [sorted(directory.glob("*.pdf"))]; the paths share their parent, so
    they are ordered by name. *)
Definition glob_pdf (directory : string) : M (list path) :=
  f <- get_fs ;;
  ret (merge_sort (fun p q : path => String.leb (name p) (name q))
         (filter (fun p : path => parent p = directory /\ is_pdf_name (name p))
            (elements (dom f)))).

(** The loop of lines 166-176. *)
Fixpoint scan_files (pdf_files already_ok needs_ocr : list path)
    (errors : list (path * string)) : M (list path * list path * list (path * string)) :=
  match pdf_files with
  | [] => ret (already_ok, needs_ocr, errors)
  | pdf :: rest =>
      lists <-
        try_except
          (found <- has_extractable_text pdf default_min_chars ;;
           if found : bool then
             print (MsgOk (name pdf)) ;;; ret (already_ok ++ [pdf], needs_ocr, errors)
           else
             print (MsgNeedsOcr (name pdf)) ;;; ret (already_ok, needs_ocr ++ [pdf], errors))
          (fun e =>
             print (MsgErr (name pdf) e) ;;;
             ret (already_ok, needs_ocr, errors ++ [(pdf, e)])) ;;
      let '(already_ok, needs_ocr, errors) := lists in
      scan_files rest already_ok needs_ocr errors
  end.

(** The [except] clause of lines 207-211; [tmp] is the value of the local
    variable when the exception arrives. *)
Definition on_failure (pdf : path) (tmp : option path)
    (errors : list (path * string)) (e : string) : M (list (path * string)) :=
  print (MsgFailed e) ;;;
  match tmp with
  | Some t =>
      there <- os_path_exists t ;;
      if there : bool then os_unlink t else ret tt
  | None => ret tt
  end ;;;
  ret (errors ++ [(pdf, e)]).

(** One turn of the loop of lines 192-211.  The [try] block is entered
    with [tmp = None]; once [mkstemp] has returned, [tmp] names the
    temporary file until the replace has happened. *)
Definition ocr_one (pdf : path) (output_dir : option string) (dpi : Z)
    (i n : nat) (errors : list (path * string)) : M (list (path * string)) :=
  let dest := match output_dir with Some d => (d, name pdf) | None => pdf end in
  print (MsgProgress i n (name dest)) ;;;
  match output_dir with
  | None =>
      made <- attempt (mkstemp (parent pdf) ".tmp.pdf") ;;
      match made with
      | inl e => on_failure pdf None errors e
      | inr tmp =>
          try_except
            (os_close tmp ;;;
             ocr_pdf pdf tmp dpi ;;;
             os_replace tmp pdf ;;;
             print MsgDone ;;;
             ret errors)
            (on_failure pdf (Some tmp) errors)
      end
  | Some _ =>
      try_except
        (ocr_pdf pdf dest dpi ;;;
         print MsgDone ;;;
         ret errors)
        (on_failure pdf None errors)
  end.

Fixpoint ocr_files (needs_ocr : list path) (output_dir : option string) (dpi : Z)
    (i n : nat) (errors : list (path * string)) : M (list (path * string)) :=
  match needs_ocr with
  | [] => ret errors
  | pdf :: rest =>
      errors <- ocr_one pdf output_dir dpi i n errors ;;
      ocr_files rest output_dir dpi (S i) n errors
  end.

Fixpoint report_errors (errors : list (path * string)) : M unit :=
  match errors with
  | [] => ret tt
  | (pdf, msg) :: rest => print (MsgErrorItem (name pdf) msg) ;;; report_errors rest
  end.

Definition process_directory (directory : string) (output_dir : option string)
    (dry_run : bool) (dpi : Z) : M unit :=
  pdf_files <- glob_pdf directory ;;
  match pdf_files with
  | [] => print MsgNoFiles
  | _ :: _ =>
      print (MsgScanning (length pdf_files)) ;;;
      lists <- scan_files pdf_files [] [] [] ;;
      let '(already_ok, needs_ocr, errors) := lists in
      print (MsgSummary (length already_ok) (length needs_ocr) (length errors)) ;;;
      if dry_run then print MsgDryRun
      else
        match needs_ocr with
        | [] => print MsgNothingToDo
        | _ :: _ =>
            match output_dir with
            | Some d => mkdir d
            | None => ret tt
            end ;;;
            errors <- ocr_files needs_ocr output_dir dpi 1 (length needs_ocr) errors ;;
            match errors with
            | [] => print (MsgAllDone (length needs_ocr))
            | _ :: _ =>
                print (MsgErrorCount (length errors)) ;;;
                report_errors errors
            end
        end
  end.

End Program.

(** ** Binary64 as the Standard Library specifies it, for comparison *)

(** A Python int below 2^53 as a float, and [a / b] on two such ints: both
    are converted exactly and the quotient is rounded once. *)
Definition binary64_of_int (z : Z) : spec_float :=
  binary_normalize 53 1024 z 0 false.

Definition binary64_true_div (a b : Z) : spec_float :=
  SFdiv 53 1024 (binary64_of_int a) (binary64_of_int b).

(** The rational number a finite float denotes. *)
Definition binary64_value (f : spec_float) : option Qc :=
  match f with
  | S754_zero _ => Some 0
  | S754_finite s m e => Some ((if s then - #(Zpos m) else #(Zpos m)) * pow2 e)
  | S754_infinity _ | S754_nan => None
  end.

(** [true_div] and the Standard Library's division give the same number. *)
Definition agrees_with_SFdiv (a b : Z) : bool :=
  match true_div a b, binary64_value (binary64_true_div a b) with
  | Ret x, Some y => bool_decide (x = y)
  | _, _ => false
  end.

(** ** Bookkeeping for the text layer *)

(** Distance of the [i]-th line from the top edge of the page: the top
    margin of 12 points and [i] line pitches of 10 points. *)
Definition offset (i : nat) : Qc := #12 + #10 * #(Z.of_nat i).

(** How many of [n] consecutive lines, the first at height [y] and each 10
    points below the one before, lie at height 10 or more. *)
Fixpoint fit_count (y : Qc) (n : nat) : nat :=
  match n with
  | O => O
  | S n' => if decide (y < #10) then O else S (fit_count (y - #10) n')
  end.

(** How many of [n] lines the loop handles on a page of height [pt_h]:
    the first one always, the following ones while they fit. *)
Definition consumed (pt_h : Qc) (n : nat) : nat :=
  match n with
  | O => O
  | S n' => S (fit_count (pt_h - #12 - #10) n')
  end.

(** The draw instruction of line number [i], if the line is not blank. *)
Definition slot (c : canvas) (pt_h : Qc) (il : nat * str) : option text_op :=
  if truthy (strip (snd il)) then
    Some {| op_alpha := fill_alpha c; op_font := font c;
            op_x := #8; op_y := pt_h - offset (fst il); op_text := snd il |}
  else None.

(** The instructions of the first [k] lines. *)
Definition draws (c : canvas) (pt_h : Qc) (k : nat) (lines : list str) : list text_op :=
  omap (slot c pt_h) (take k (imap pair lines)).

(** The text layer as the line-pitch property words it: the lines that fit
    above the bottom margin, and no others. *)
Definition claimed_layout (c : canvas) (pt_h : Qc) (lines : list str) : list text_op :=
  code c ++ draws c pt_h (fit_count (pt_h - #12) (length lines)) lines.

(** ** The detector as a function of the files *)

(** What opening [pdf_path] gives. *)
Definition view (E : Env) (f : gmap path file) (pdf_path : path)
  : outcome (list (outcome (option str))) :=
  match f !! pdf_path with
  | None => Fails "No such file or directory"
  | Some bytes => pdfplumber_open E bytes
  end.

(** The page loop without the monad: the first page that fails or reaches
    the threshold decides. *)
Fixpoint first_hit (pages : list (outcome (option str))) (min_chars : Z) : outcome bool :=
  match pages with
  | [] => Ok false
  | Fails e :: _ => Fails e
  | Ok extracted :: rest =>
      if (min_chars <=? len (strip (default [] extracted)))%Z then Ok true
      else first_hit rest min_chars
  end.

Definition verdict (E : Env) (f : gmap path file) (pdf_path : path) (min_chars : Z)
  : outcome bool :=
  match view E f pdf_path with
  | Fails e => Fails e
  | Ok pages => first_hit pages min_chars
  end.

(** The document is classified as already searchable. *)
Definition found (E : Env) (f : gmap path file) (pdf_path : path) : bool :=
  match verdict E f pdf_path default_min_chars with
  | Ok true => true
  | _ => false
  end.

Definition warned (s : state) (pdf_path : path) (e : string) : state :=
  {| fs := fs s; trace := trace s ++ [Printed (MsgWarn (name pdf_path) e)] |}.

(** The detector as section 4.1 and the error taxonomy word it: a page
    that cannot be parsed is logged and skipped, and a document that
    cannot be opened is reported to the caller. *)
Fixpoint scan_pages_claimed (file_name : string)
    (pages : list (outcome (option str))) (min_chars : Z) : M bool :=
  match pages with
  | [] => ret false
  | Fails e :: rest =>
      print (MsgWarn file_name e) ;;;
      scan_pages_claimed file_name rest min_chars
  | Ok extracted :: rest =>
      if (min_chars <=? len (strip (default [] extracted)))%Z then ret true
      else scan_pages_claimed file_name rest min_chars
  end.

Definition detector_claimed (E : Env) (pdf_path : path) (min_chars : Z) : M bool :=
  f <- get_fs ;;
  match view E f pdf_path with
  | Fails _ => raise (Exception "document unreadable")
  | Ok pages => scan_pages_claimed (name pdf_path) pages min_chars
  end.

(** ** A small directory used in the examples *)

Definition sample_text : str := of_string "This page already has a text layer.".

Definition letter_scan : image := {| size := (2550, 3300)%Z; pixels := 1 |}.

(** [Original 1] is a one-page scan, [Original 2] has a text layer,
    [Original 3] has a damaged first page followed by a page with text,
    and anything else is not a PDF at all. *)
Definition sample_env : Env := {|
  importable := fun _ => true;
  pdfplumber_open := fun bytes =>
    match bytes with
    | Original 1 => Ok [Ok None]
    | Original 2 => Ok [Ok (Some sample_text)]
    | Original 3 => Ok [Fails "damaged page"; Ok (Some sample_text)]
    | _ => Fails "not a PDF"
    end;
  convert_from_path := fun bytes dpi =>
    match bytes with
    | Original 1 => Ok [letter_scan]
    | Original 3 => Ok [letter_scan; letter_scan]
    | _ => Fails "unable to get page count"
    end;
  image_to_string := fun _ => Ok (of_string "abc");
  reshape := fun text => text;
  get_display := fun text => text;
  image_save := fun im resolution =>
    match true_div (fst (size im) * 72) resolution,
          true_div (snd (size im) * 72) resolution with
    | Ret w, Ret h => Ok (w, h)
    | _, _ => Fails "cannot write the image"
    end;
  canvas_save := fun c =>
    Ok [ {| mediabox := pagesize c;
            contents := [TextStream (N.of_nat (length (code c)))] |} ];
  mkstemp_name := fun _ _ => "tmpk3x9";
  os_fault := fun _ _ => None;
|}.

Definition sample_state : state := {|
  fs := <[("docs", "scan.pdf") := Original 1]>
        (<[("docs", "text.pdf") := Original 2]>
        (<[("docs", "damaged.pdf") := Original 3]>
        (<[("docs", "broken.pdf") := Original 4]> ∅)));
  trace := [];
|}.

(** What the scan of lines 166-176 prints for the given files. *)
Definition scan_log (E : Env) (f : gmap path file) (pdf_files : list path) : list event :=
  pdf ← pdf_files;
  match verdict E f pdf default_min_chars with
  | Ok true => [Printed (MsgOk (name pdf))]
  | Ok false => [Printed (MsgNeedsOcr (name pdf))]
  | Fails e => [Printed (MsgWarn (name pdf) e); Printed (MsgNeedsOcr (name pdf))]
  end.

(** ** Invariants of statements *)

(** Running [m] from a state in which [I] holds leaves [I] in force,
    however [m] ends, and a value it returns satisfies [V]. *)
Definition yields {A} (I : state -> Prop) (m : M A) (V : A -> Prop) : Prop :=
  forall s, I s ->
    I (snd (m s)) /\ forall a, fst (m s) = Ret a -> V a.

Definition keeps {A} (I : state -> Prop) (m : M A) : Prop :=
  yields I m (fun _ => True).

(** The event is a rasterization or a recognition of [q]. *)
Definition touches (q : path) (ev : event) : Prop :=
  match ev with
  | Rasterized p _ => p = q
  | Recognized p _ => p = q
  | Printed _ => False
  end.

(** Every protected path holds what it holds in [f0], and every event
    added to the trace since it read [log] is a silent one. *)
Definition frame (protected : path -> Prop) (silent : event -> Prop)
    (f0 : gmap path file) (log : list event) (s : state) : Prop :=
  (forall p, protected p -> fs s !! p = f0 !! p)
  /\ exists evs, trace s = log ++ evs /\ Forall silent evs.

(** Since the trace read [log], the file [q] has kept its bytes and has
    been neither rasterized nor recognized. *)
Definition untouched (q : path) (bytes : file) (log : list event) : state -> Prop :=
  frame (fun p => p = q) (fun ev => ~ touches q ev) {[ q := bytes ]} log.

(** Nothing but the file [tmp] differs from [f0]. *)
Definition only_tmp (tmp : path) (f0 : gmap path file) (s : state) : Prop :=
  frame (fun p => p <> tmp) (fun _ => True) f0 [] s.

(** The bytes are those of a document in which the detector finds text. *)
Definition has_text_layer (E : Env) (bytes : file) : Prop :=
  importable E "pdfplumber" = true
  /\ exists pages, pdfplumber_open E bytes = Ok pages
                   /\ first_hit pages default_min_chars = Ok true.

(** A machine on which pdfplumber is installed and pytesseract is not. *)
Definition no_tesseract_env : Env := {|
  importable := fun module => negb (String.eqb module "pytesseract");
  pdfplumber_open := pdfplumber_open sample_env;
  convert_from_path := convert_from_path sample_env;
  image_to_string := image_to_string sample_env;
  reshape := reshape sample_env;
  get_display := get_display sample_env;
  image_save := image_save sample_env;
  canvas_save := canvas_save sample_env;
  mkstemp_name := mkstemp_name sample_env;
  os_fault := os_fault sample_env;
|}.

(** A directory that holds one scanned document. *)
Definition one_scan : state := {|
  fs := {[ ("docs", "scan.pdf") := Original 1 ]};
  trace := [];
|}.

(** A machine on which the recognition of every page fails. *)
Definition failing_ocr_env : Env := {|
  importable := importable sample_env;
  pdfplumber_open := pdfplumber_open sample_env;
  convert_from_path := convert_from_path sample_env;
  image_to_string := fun _ => Fails "tesseract timed out";
  reshape := reshape sample_env;
  get_display := get_display sample_env;
  image_save := image_save sample_env;
  canvas_save := canvas_save sample_env;
  mkstemp_name := mkstemp_name sample_env;
  os_fault := os_fault sample_env;
|}.

(** A scan of five pages, told apart by their bitmaps, on a machine where
    the recognition of the second page fails. *)
Definition five_page_env : Env := {|
  importable := importable sample_env;
  pdfplumber_open := fun _ => Ok [Ok None; Ok None; Ok None; Ok None; Ok None];
  convert_from_path := fun _ _ =>
    Ok ((fun n => {| size := (2550, 3300)%Z; pixels := n |}) <$> [1; 2; 3; 4; 5]%N);
  image_to_string := fun im =>
    if (pixels im =? 2)%N then Fails "tesseract failed" else Ok (of_string "abc");
  reshape := reshape sample_env;
  get_display := get_display sample_env;
  image_save := image_save sample_env;
  canvas_save := canvas_save sample_env;
  mkstemp_name := mkstemp_name sample_env;
  os_fault := os_fault sample_env;
|}.

(** A directory that holds one document with a text layer. *)
Definition one_text : state := {|
  fs := {[ ("docs", "text.pdf") := Original 2 ]};
  trace := [];
|}.

(** The modules that [ocr_pdf] asks for with [_require] (lines 75-80), in
    the order in which it asks. *)
Definition required_modules : list string :=
  ["pytesseract"; "pdf2image"; "reportlab.pdfgen.canvas"; "reportlab.lib.pagesizes";
   "arabic_reshaper"; "bidi.algorithm"].

(** A machine on which no directory can be created. *)
Definition no_mkdir_env : Env := {|
  importable := importable sample_env;
  pdfplumber_open := pdfplumber_open sample_env;
  convert_from_path := convert_from_path sample_env;
  image_to_string := image_to_string sample_env;
  reshape := reshape sample_env;
  get_display := get_display sample_env;
  image_save := image_save sample_env;
  canvas_save := canvas_save sample_env;
  mkstemp_name := mkstemp_name sample_env;
  os_fault := fun _ c =>
    match c with SysMkdir _ => Some "Permission denied" | _ => None end;
|}.

(** [v] is within [2 ^ -53], relatively, of [x]: the accuracy of one
    binary64 rounding of a positive number in the normal range. *)
Definition close64 (v x : Qc) : Prop :=
  - x <= #(2 ^ 53) * (v - x) /\ #(2 ^ 53) * (v - x) <= x.

(** [pages] are the pages [ocr_pdf] builds from the document [bytes]: one
    for each image of its rasterization at [dpi], in the order of the
    images. *)
Definition built_from (E : Env) (dpi : Z) (bytes : file) (pages : list pdf_page) : Prop :=
  exists images,
    convert_from_path E bytes dpi = Ok images
    /\ Forall2 (fun im pg => ocr_page E im dpi = Ret pg) images pages.

(** * Properties *)

Example strip_example :
  strip (of_string "  ab c ") = of_string "ab c".
Proof. reflexivity. Qed.

Example splitlines_example :
  splitlines [97; 13; 10; 10; 98; 10]%N = [[97]; []; [98]]%N.
Proof. reflexivity. Qed.

Example splitlines_empty : splitlines [] = [] /\ splitlines [10%N] = [[]].
Proof. split; reflexivity. Qed.

(** The quotients of the two pages used below are whole numbers of points,
    so binary64 computes them, and the first line's height, without
    rounding. *)
Example letter_scan_binary64 :
  binary64_true_div (2550 * 72) 300 = binary64_of_int 612
  /\ binary64_true_div (3300 * 72) 300 = binary64_of_int 792
  /\ SFsub 53 1024 (binary64_of_int 792) (binary64_of_int 12) = binary64_of_int 780.
Proof. repeat split; reflexivity. Qed.

Example strip_page_binary64 :
  binary64_true_div (50 * 72) 300 = binary64_of_int 12
  /\ SFsub 53 1024 (binary64_of_int 12) (binary64_of_int 12) = S754_zero false.
Proof. split; reflexivity. Qed.

(** [true_div] gives the number that the Standard Library's binary64
    division gives, on quotients that are exact, that round down, that
    round up, that are ties, and of either sign. *)
Example true_div_agrees_with_SFdiv :
  forallb (fun ab => agrees_with_SFdiv (fst ab) (snd ab))
    [(2550 * 72, 300); (2551 * 72, 300); (3301 * 72, 300); (100 * 72, 7);
     (1, 3); (2, 3); (-1, 3); (1, -3); (-7, -9); (1, 10); (72, 150); (612, 1);
     (5, 2 ^ 52); (3, 2 ^ 53 - 1); (2 ^ 53 - 1, 3); (2 ^ 52 + 1, 2);
     (2 ^ 53 - 1, 2); (2 ^ 53 - 3, 2); (2 ^ 53 - 1, 2 ^ 53 - 3);
     (1, 2 ^ 53 - 1); (123456789, 1000); (0, 5)]%Z = true.
Proof. vm_compute. reflexivity. Qed.

(** An image one pixel wider than the letter scan: the width in points is
    not a binary64 number, and [true_div] gives the nearest one. *)
Example true_div_rounds :
  true_div (2551 * 72) 300 = Ret (#2692659995958313 / #(2 ^ 42))
  /\ #2692659995958313 / #(2 ^ 42) <> #(2551 * 72) / #300.
Proof.
  split.
  - vm_compute. f_equal. apply Qc_is_canon. reflexivity.
  - intros H. apply (f_equal this) in H. vm_compute in H. discriminate.
Qed.

(** ** Arithmetic on points *)

Lemma Qc_of_Z_0 : #0 = 0.
Proof. apply Z2Qc_inj_0. Qed.

Lemma Qc_eval (a b : Qc) : (a == b)%Q -> a = b.
Proof. apply Qc_is_canon. Qed.

Ltac qc_eval := apply Qc_eval; vm_compute; reflexivity.

Lemma offset_0 : offset 0 = #12.
Proof. unfold offset. change (Z.of_nat 0) with 0%Z. rewrite Qc_of_Z_0. ring. Qed.

Lemma offset_S i : offset (S i) = offset i + #10.
Proof.
  unfold offset. rewrite Nat2Z.inj_succ, <- Z.add_1_r, Z2Qc_inj_add, Z2Qc_inj_1.
  ring.
Qed.

(** ** The text layer: line pitch and margins *)

Lemma fit_count_below y n : y < #10 -> fit_count y n = 0%nat.
Proof. intros H. destruct n; simpl; [done|]. by rewrite decide_True. Qed.

Lemma fit_count_above y n :
  ~ y < #10 ->
  fit_count y n = match n with O => O | S n' => S (fit_count (y - #10) n') end.
Proof. intros H. destruct n; simpl; [done|]. by rewrite decide_False. Qed.

Lemma omap_cons_eq {A B} (f : A -> option B) (x : A) (l : list A) :
  omap f (x :: l) = match f x with Some y => y :: omap f l | None => omap f l end.
Proof. reflexivity. Qed.

Lemma slot_ext c c' pt_h (l : list (nat * str)) :
  fill_alpha c' = fill_alpha c -> font c' = font c ->
  omap (slot c' pt_h) l = omap (slot c pt_h) l.
Proof.
  intros Ha Hf. induction l as [|x l IH]; [done|].
  rewrite !omap_cons_eq, IH. unfold slot. by rewrite Ha, Hf.
Qed.

Lemma layout_lines_from (pt_h : Qc) (lines : list str) :
  forall (j : nat) (c : canvas),
    code (layout_lines lines (pt_h - offset j) c) =
    code c ++ omap (slot c pt_h)
      (take (match length lines with
             | O => O
             | S n' => S (fit_count (pt_h - offset j - #10) n')
             end)
         (imap (fun i => pair (j + i)%nat) lines)).
Proof.
  induction lines as [|line rest IH]; intros j c.
  - simpl. by rewrite app_nil_r.
  - change (layout_lines (line :: rest) (pt_h - offset j) c) with
      (let c' := if truthy (strip line)
                 then drawString #8 (pt_h - offset j) line c else c in
       if decide (pt_h - offset j - #10 < #10) then c'
       else layout_lines rest (pt_h - offset j - #10) c').
    cbv zeta.
    change (length (line :: rest)) with (S (length rest)). cbv iota beta.
    rewrite imap_cons, firstn_cons, omap_cons_eq.
    unfold slot at 1. cbn [fst snd]. rewrite Nat.add_0_r.
    destruct (decide (pt_h - offset j - #10 < #10)) as [Hlow|Hhigh].
    + rewrite fit_count_below by done. rewrite take_0.
      destruct (truthy (strip line)); simpl; [done|by rewrite app_nil_r].
    + assert (Hy : pt_h - offset j - #10 = pt_h - offset (S j))
        by (rewrite offset_S; ring).
      rewrite (fit_count_above _ _ Hhigh).
      rewrite Hy, IH, <- Hy.
      rewrite (imap_ext ((fun i => pair (j + i)%nat) ∘ S) (fun i => pair (S j + i)%nat)).
      2:{ intros i x _. simpl. f_equal. lia. }
      destruct (truthy (strip line)).
      * rewrite (slot_ext c); [|done..]. simpl. by rewrite <- app_assoc.
      * done.
Qed.

Lemma offset_mono j i : offset j <= offset (j + i).
Proof.
  induction i as [|i IH].
  - rewrite Nat.add_0_r. apply Qcle_refl.
  - rewrite Nat.add_succ_r, offset_S.
    eapply Qcle_trans; [exact IH|].
    rewrite <- (Qcplus_0_r (offset (j + i))) at 1.
    apply Qcplus_le_mono_l. by apply (Z2Qc_inj_le 0 10).
Qed.

Lemma Qc_sub_le_mono_l (a b c : Qc) : b <= c -> a - c <= a - b.
Proof.
  intros H. unfold Qcminus. apply Qcplus_le_mono_l. by apply Qcopp_le_compat.
Qed.

Lemma fit_count_spec (pt_h : Qc) (n : nat) :
  forall j i : nat,
    (i < fit_count (pt_h - offset j) n)%nat <->
    (i < n)%nat /\ #10 <= pt_h - offset (j + i).
Proof.
  induction n as [|n IH]; intros j i.
  - simpl. split; [lia|intros [? _]; lia].
  - simpl. destruct (decide (pt_h - offset j < #10)) as [Hlow|Hhigh].
    + split; [lia|]. intros [_ Hfit]. exfalso.
      apply (Qclt_not_le _ _ Hlow). eapply Qcle_trans; [exact Hfit|].
      apply Qc_sub_le_mono_l, offset_mono.
    + replace (pt_h - offset j - #10) with (pt_h - offset (S j))
        by (rewrite offset_S; ring).
      destruct i as [|i].
      * rewrite Nat.add_0_r. split; [|lia]. intros _. split; [lia|].
        by apply Qcnot_lt_le.
      * rewrite <- Nat.succ_lt_mono, IH, Nat.add_succ_r. simpl.
        split; intros [? ?]; split; first [lia|done].
Qed.

Lemma consumed_spec (pt_h : Qc) (n i : nat) :
  (i < consumed pt_h n)%nat <->
  (i < n)%nat /\ (i = 0%nat \/ #10 <= pt_h - offset i).
Proof.
  destruct n as [|n]; simpl; [lia|].
  replace (pt_h - #12 - #10) with (pt_h - offset 1)
    by (rewrite offset_S, offset_0; ring).
  destruct i as [|i].
  - split; [intros _; split; [lia|by left]|lia].
  - rewrite <- Nat.succ_lt_mono, fit_count_spec. simpl.
    split; [intros [? ?]; split; [lia|by right]|].
    intros [? [?|?]]; [lia|]. split; [lia|done].
Qed.

Lemma first_line_fits (pt_h : Qc) : #22 <= pt_h -> #10 <= pt_h - offset 0.
Proof.
  intros H. rewrite offset_0.
  apply (Qcplus_le_mono_r _ _ #12).
  replace (pt_h - #12 + #12) with pt_h by ring.
  by replace (#10 + #12) with #22 by qc_eval.
Qed.

Lemma draws_lookup c pt_h k lines t :
  t ∈ draws c pt_h k lines ->
  exists i, (i < k)%nat /\ lines !! i = Some (op_text t) /\
            truthy (strip (op_text t)) = true /\
            op_x t = #8 /\ op_y t = pt_h - offset i /\
            op_alpha t = fill_alpha c /\ op_font t = font c.
Proof.
  unfold draws. rewrite list_elem_of_omap. intros ([i l] & Hin & Hslot).
  apply list_elem_of_lookup in Hin as [p Hp].
  apply lookup_take_Some in Hp as [Hp Hlt].
  rewrite list_lookup_imap in Hp.
  destruct (lines !! p) as [l'|] eqn:Hl; simplify_eq/=.
  unfold slot in Hslot. simpl in Hslot.
  destruct (truthy (strip l)) eqn:Ht; simplify_eq/=.
  exists i. by repeat split.
Qed.

Lemma layout_lines_code (pt_h : Qc) (lines : list str) (c : canvas) :
  code (layout_lines lines (pt_h - #12) c) =
  code c ++ draws c pt_h (consumed pt_h (length lines)) lines.
Proof.
  rewrite <- offset_0, layout_lines_from. unfold draws, consumed.
  rewrite offset_0. by destruct lines.
Qed.


(** ** Page size of the overlay *)

(** ** Binary64 rounding *)

Lemma round_half_even_exact (k d : Z) : (0 < d)%Z -> round_half_even (k * d) d = k.
Proof.
  intros Hd. unfold round_half_even.
  rewrite Z.mod_mul, Z.div_mul by lia.
  destruct (Z.compare_spec (2 * 0) d); lia.
Qed.

Lemma round_half_even_near (n d : Z) :
  (0 < d)%Z ->
  (- d <= 2 * (round_half_even n d * d - n) <= d)%Z.
Proof.
  intros Hd. unfold round_half_even.
  pose proof (Z.div_mod n d ltac:(lia)) as Hdm.
  pose proof (Z.mod_pos_bound n d Hd) as Hr.
  destruct (Z.compare_spec (2 * (n mod d)) d); [destruct (Z.even (n / d))| |]; nia.
Qed.

(** [ilog2 n d] is the exponent [e] with [2 ^ e <= n / d < 2 ^ (e + 1)]. *)
Lemma ilog2_spec (n d : Z) :
  (0 < n)%Z -> (0 < d)%Z ->
  (d * 2 ^ Z.max 0 (ilog2 n d) <= n * 2 ^ Z.max 0 (- ilog2 n d)
   < 2 * (d * 2 ^ Z.max 0 (ilog2 n d)))%Z.
Proof.
  intros Hn Hd. unfold ilog2.
  pose proof (Z.log2_spec n Hn) as HA. pose proof (Z.log2_spec d Hd) as HB.
  pose proof (Z.log2_nonneg n) as Hln. pose proof (Z.log2_nonneg d) as Hld.
  rewrite Z.pow_succ_r in HA, HB by done.
  set (ln := Z.log2 n) in *. set (ld := Z.log2 d) in *.
  destruct (Z.le_gt_cases 0 (ln - ld)) as [He0|He0].
  - replace (Z.max 0 (- (ln - ld))) with 0%Z by lia.
    replace (Z.max 0 (ln - ld)) with (ln - ld)%Z by lia.
    assert (HP : (2 ^ ln = 2 ^ (ln - ld) * 2 ^ ld)%Z).
    { rewrite <- Z.pow_add_r by lia. f_equal; lia. }
    pose proof (Z.pow_pos_nonneg 2 (ln - ld) ltac:(lia) He0) as HPpos.
    rewrite Z.pow_0_r, Z.mul_1_r.
    destruct (Z.ltb_spec n (d * 2 ^ (ln - ld))) as [Hlt|Hge].
    + destruct (Z.eq_dec (ln - ld) 0) as [Hz|Hnz].
      * rewrite Hz in *. replace (Z.max 0 (0 - 1)) with 0%Z by lia.
        replace (Z.max 0 (- (0 - 1))) with 1%Z by lia.
        rewrite Z.pow_0_r, Z.pow_1_r in *. lia.
      * replace (Z.max 0 (ln - ld - 1)) with (ln - ld - 1)%Z by lia.
        replace (Z.max 0 (- (ln - ld - 1))) with 0%Z by lia.
        assert (HP' : (2 ^ (ln - ld) = 2 * 2 ^ (ln - ld - 1))%Z).
        { rewrite <- Z.pow_succ_r by lia. f_equal; lia. }
        rewrite Z.pow_0_r, Z.mul_1_r. nia.
    + replace (Z.max 0 (ln - ld)) with (ln - ld)%Z by lia.
      replace (Z.max 0 (- (ln - ld))) with 0%Z by lia.
      rewrite Z.pow_0_r, Z.mul_1_r. nia.
  - replace (Z.max 0 (- (ln - ld))) with (ld - ln)%Z by lia.
    replace (Z.max 0 (ln - ld)) with 0%Z by lia.
    assert (HP : (2 ^ ld = 2 ^ (ld - ln) * 2 ^ ln)%Z).
    { rewrite <- Z.pow_add_r by lia. f_equal; lia. }
    pose proof (Z.pow_pos_nonneg 2 (ld - ln) ltac:(lia) ltac:(lia)) as HPpos.
    rewrite Z.pow_0_r, Z.mul_1_r.
    destruct (Z.ltb_spec (n * 2 ^ (ld - ln)) d) as [Hlt|Hge].
    + replace (Z.max 0 (ln - ld - 1)) with 0%Z by lia.
      replace (Z.max 0 (- (ln - ld - 1))) with (Z.succ (ld - ln)) by lia.
      rewrite Z.pow_succ_r, Z.pow_0_r by lia. nia.
    + replace (Z.max 0 (ln - ld)) with 0%Z by lia.
      replace (Z.max 0 (- (ln - ld))) with (ld - ln)%Z by lia.
      rewrite Z.pow_0_r. nia.
Qed.

Lemma Qc_of_Z_nonzero (k : Z) : k <> 0%Z -> #k <> 0.
Proof. intros Hk H. apply Hk. apply Z2Qc_inj. by rewrite H, Qc_of_Z_0. Qed.

Lemma Qc_of_Z_pos (k : Z) : (0 < k)%Z -> 0 < #k.
Proof. intros Hk. rewrite <- Z2Qc_inj_0. by apply (proj1 (Z2Qc_inj_lt 0 k)). Qed.

Lemma pow2_ratio (u : Z) : pow2 u = #(2 ^ Z.max 0 u) / #(2 ^ Z.max 0 (- u)).
Proof.
  unfold pow2. destruct (Z.leb_spec 0 u).
  - replace (Z.max 0 u) with u by lia. replace (Z.max 0 (- u)) with 0%Z by lia.
    rewrite Z.pow_0_r, Z2Qc_inj_1. field. discriminate.
  - replace (Z.max 0 u) with 0%Z by lia. replace (Z.max 0 (- u)) with (- u)%Z by lia.
    rewrite Z.pow_0_r, Z2Qc_inj_1. field.
    apply Qc_of_Z_nonzero. pose proof (Z.pow_pos_nonneg 2 (- u) ltac:(lia) ltac:(lia)). lia.
Qed.

(** A quotient that is a whole number below [2 ^ 53] is not rounded. *)
Lemma nearest64_exact (q b : Z) :
  (0 < q < 2 ^ 53)%Z -> (0 < b)%Z -> nearest64 (q * b) b = #q.
Proof.
  intros Hq Hb. unfold nearest64.
  pose proof (ilog2_spec (q * b) b ltac:(nia) Hb) as He.
  set (e := ilog2 (q * b) b) in *.
  assert (He0 : (0 <= e)%Z).
  { destruct (Z.le_gt_cases 0 e) as [|Hneg]; [done|exfalso].
    replace (Z.max 0 e) with 0%Z in He by lia.
    replace (Z.max 0 (- e)) with (Z.succ (- e - 1)) in He by lia.
    rewrite Z.pow_succ_r, Z.pow_0_r in He by lia.
    pose proof (Z.pow_pos_nonneg 2 (- e - 1) ltac:(lia) ltac:(lia)) as HK.
    set (K := (2 ^ (- e - 1))%Z) in *. destruct He as [_ He].
    assert (H1 : (1 <= q * K)%Z) by nia.
    assert (H2 : (b * 1 <= b * (q * K))%Z) by (apply Z.mul_le_mono_nonneg_l; lia).
    replace (q * b * (2 * K))%Z with (2 * (b * (q * K)))%Z in He by ring. lia. }
  replace (Z.max 0 e) with e in He by lia.
  replace (Z.max 0 (- e)) with 0%Z in He by lia.
  rewrite Z.pow_0_r, Z.mul_1_r in He.
  assert (He52 : (e <= 52)%Z).
  { destruct (Z.le_gt_cases e 52) as [|Hbig]; [done|exfalso].
    pose proof (Z.pow_le_mono_r 2 53 e ltac:(lia) ltac:(lia)) as Hpow.
    destruct He as [He _]. set (P := (2 ^ e)%Z) in *.
    assert (H2 : (b * P <= b * q)%Z) by lia.
    apply Z.mul_le_mono_pos_l in H2; lia. }
  replace (Z.max (e - 52) (-1074)) with (e - 52)%Z by lia.
  replace (Z.max 0 (- (e - 52))) with (52 - e)%Z by lia.
  replace (Z.max 0 (e - 52)) with 0%Z by lia.
  rewrite Z.pow_0_r, Z.mul_1_r.
  replace (q * b * 2 ^ (52 - e))%Z with (q * 2 ^ (52 - e) * b)%Z by ring.
  rewrite round_half_even_exact by done.
  pose proof (Z.pow_pos_nonneg 2 (52 - e) ltac:(lia) ltac:(lia)) as HK.
  unfold pow2. destruct (Z.leb_spec 0 (e - 52)) as [Hz|Hz].
  - replace (e - 52)%Z with 0%Z by lia. replace (52 - e)%Z with 0%Z by lia.
    rewrite Z.pow_0_r, Z.mul_1_r, Z2Qc_inj_1. ring.
  - replace (- (e - 52))%Z with (52 - e)%Z by lia.
    rewrite Z2Qc_inj_mul. field. apply Qc_of_Z_nonzero. lia.
Qed.

(** In the normal range the rounding error is at most [2 ^ -53] of the
    exact quotient. *)
Lemma nearest64_near (n d : Z) :
  (0 < n)%Z -> (0 < d)%Z -> (d <= n * 2 ^ 1022)%Z ->
  - (#n / #d) <= #(2 ^ 53) * (nearest64 n d - #n / #d)
  /\ #(2 ^ 53) * (nearest64 n d - #n / #d) <= #n / #d.
Proof.
  intros Hn Hd Hnormal. unfold nearest64.
  pose proof (ilog2_spec n d Hn Hd) as He.
  set (e := ilog2 n d) in *.
  assert (Hemin : (-1022 <= e)%Z).
  { destruct (Z.le_gt_cases (-1022) e) as [|Hsmall]; [done|exfalso].
    replace (Z.max 0 e) with 0%Z in He by lia.
    replace (Z.max 0 (- e)) with (- e)%Z in He by lia.
    rewrite Z.pow_0_r in He. destruct He as [_ He].
    pose proof (Z.pow_le_mono_r 2 1023 (- e) ltac:(lia) ltac:(lia)) as Hpow.
    change (2 ^ 1023)%Z with (2 * 2 ^ 1022)%Z in Hpow.
    assert (n * (2 * 2 ^ 1022) <= n * 2 ^ (- e))%Z by (apply Z.mul_le_mono_nonneg_l; lia).
    lia. }
  replace (Z.max (e - 52) (-1074)) with (e - 52)%Z by lia.
  rewrite pow2_ratio.
  set (M := (2 ^ Z.max 0 (- (e - 52)))%Z). set (P := (2 ^ Z.max 0 (e - 52))%Z).
  assert (HM : (0 < M)%Z) by (apply Z.pow_pos_nonneg; lia).
  assert (HP : (0 < P)%Z) by (apply Z.pow_pos_nonneg; lia).
  pose proof (round_half_even_near (n * M) (d * P) ltac:(nia)) as Hnear.
  set (m := round_half_even (n * M) (d * P)) in *.
  assert (Hscale : (2 ^ 52 * (d * P) <= n * M)%Z).
  { subst M P. destruct He as [He _].
    destruct (Z.le_gt_cases 52 e) as [Hbig|Hsmall].
    - replace (Z.max 0 (- (e - 52))) with 0%Z by lia.
      replace (Z.max 0 (e - 52)) with (e - 52)%Z by lia.
      replace (Z.max 0 e) with (52 + (e - 52))%Z in He by lia.
      replace (Z.max 0 (- e)) with 0%Z in He by lia.
      rewrite Z.pow_add_r in He by lia. rewrite Z.pow_0_r in *. lia.
    - replace (Z.max 0 (e - 52)) with 0%Z by lia.
      replace (Z.max 0 (- (e - 52))) with (52 - e)%Z by lia.
      rewrite Z.pow_0_r, Z.mul_1_r.
      destruct (Z.le_gt_cases 0 e) as [Hpos|Hneg].
      + replace (Z.max 0 e) with e in He by lia.
        replace (Z.max 0 (- e)) with 0%Z in He by lia.
        rewrite Z.pow_0_r, Z.mul_1_r in He.
        assert (H52 : (2 ^ 52 = 2 ^ e * 2 ^ (52 - e))%Z).
        { rewrite <- Z.pow_add_r by lia. f_equal; lia. }
        pose proof (Z.pow_pos_nonneg 2 (52 - e) ltac:(lia) ltac:(lia)).
        rewrite H52. nia.
      + replace (Z.max 0 e) with 0%Z in He by lia.
        replace (Z.max 0 (- e)) with (- e)%Z in He by lia.
        rewrite Z.pow_0_r, Z.mul_1_r in He.
        assert (H52 : (2 ^ (52 - e) = 2 ^ 52 * 2 ^ (- e))%Z).
        { rewrite <- Z.pow_add_r by lia. f_equal; lia. }
        rewrite H52. nia. }
  assert (HMd : 0 < #M * #d).
  { rewrite <- Z2Qc_inj_mul. apply Qc_of_Z_pos. nia. }
  assert (HMne : #M <> 0) by (apply Qc_of_Z_nonzero; lia).
  assert (Hdne : #d <> 0) by (apply Qc_of_Z_nonzero; lia).
  assert (Hlhs : #(2 ^ 53) * (#m * (#P / #M) - #n / #d) * (#M * #d)
                 = #(2 ^ 53 * (m * (d * P) - n * M))).
  { rewrite !Z2Qc_inj_mul, Z2Qc_inj_sub, !Z2Qc_inj_mul. field. by split. }
  assert (Hrhs : #n / #d * (#M * #d) = #(n * M)).
  { rewrite Z2Qc_inj_mul. field. done. }
  change (2 ^ 53)%Z with (2 * 2 ^ 52)%Z in Hlhs |- *.
  split.
  - apply (Qcmult_lt_0_le_reg_r _ _ (#M * #d)); [done|].
    replace (- (#n / #d) * (#M * #d)) with (#(- (n * M))).
    2:{ rewrite Z2Qc_inj_opp, <- Hrhs. ring. }
    rewrite Hlhs. apply (proj1 (Z2Qc_inj_le _ _)). lia.
  - apply (Qcmult_lt_0_le_reg_r _ _ (#M * #d)); [done|].
    rewrite Hlhs, Hrhs. apply (proj1 (Z2Qc_inj_le _ _)). lia.
Qed.

Lemma round_ratio_exact (q b : Z) :
  b <> 0%Z -> (Z.abs q < 2 ^ 53)%Z -> round_ratio (q * b) b = #q.
Proof.
  intros Hb Hq. unfold round_ratio.
  replace (Z.abs (q * b)) with (Z.abs q * Z.abs b)%Z by (symmetry; apply Z.abs_mul).
  replace (q * b * Z.sgn b)%Z with (q * Z.abs b)%Z
    by (rewrite <- Z.mul_assoc; f_equal; symmetry; apply Z.sgn_abs).
  assert (Habs : (0 < Z.abs b)%Z) by lia.
  destruct (q * Z.abs b)%Z as [|p|p] eqn:Hsign.
  - assert (q = 0%Z) by nia. subst q. by rewrite Qc_of_Z_0.
  - assert (0 < q)%Z by nia. rewrite nearest64_exact by lia. f_equal. lia.
  - assert (q < 0)%Z by nia. rewrite nearest64_exact by lia.
    rewrite <- Z2Qc_inj_opp. f_equal. lia.
Qed.

(** ** Python's division and subtraction *)

Lemma true_div_zero (a : Z) : true_div a 0 = Raise (Exception "division by zero").
Proof. reflexivity. Qed.

Lemma true_div_exact (q b : Z) :
  b <> 0%Z -> (Z.abs q < 2 ^ 53)%Z -> true_div (q * b) b = Ret #q.
Proof.
  intros Hb Hq. unfold true_div. rewrite decide_False by done.
  rewrite round_ratio_exact by done. rewrite decide_True; [done|].
  rewrite <- Z2Qc_inj_opp. split; apply (proj1 (Z2Qc_inj_lt _ _)).
  - assert (2 ^ 53 < 2 ^ 1024)%Z by (apply Z.pow_lt_mono_r; lia). lia.
  - assert (2 ^ 53 < 2 ^ 1024)%Z by (apply Z.pow_lt_mono_r; lia). lia.
Qed.

Lemma binary64_exact (k : Z) : (Z.abs k < 2 ^ 53)%Z -> binary64 #k = #k.
Proof.
  intros Hk. unfold binary64. cbn [Qc_of_Z this inject_Z Qnum Qden].
  rewrite <- (Z.mul_1_r k) at 1. by apply round_ratio_exact.
Qed.

Lemma float_sub_exact (k l : Z) :
  (Z.abs (k - l) < 2 ^ 53)%Z -> float_sub #k #l = #(k - l).
Proof. intros H. unfold float_sub. rewrite <- Z2Qc_inj_sub. by apply binary64_exact. Qed.

Lemma this_plus (x y : Qc) : (this (x + y) == this x + this y)%Q.
Proof. apply Qred_correct. Qed.

Lemma this_mult (x y : Qc) : (this (x * y) == this x * this y)%Q.
Proof. apply Qred_correct. Qed.

Lemma this_opp (x : Qc) : (this (- x) == - this x)%Q.
Proof. apply Qred_correct. Qed.

Lemma this_minus (x y : Qc) : (this (x - y) == this x - this y)%Q.
Proof. unfold Qcminus. rewrite this_plus, this_opp. reflexivity. Qed.

(** A number within [2 ^ -53] of [x >= 0], relatively, lies between 0 and
    [2 x]. *)
Lemma near_bounds (v x : Qc) :
  0 <= x -> - x <= #(2 ^ 53) * (v - x) -> #(2 ^ 53) * (v - x) <= x ->
  0 <= v /\ v <= #2 * x.
Proof.
  intros Hx Hlo Hhi. unfold Qcle in *.
  rewrite this_opp, this_mult, this_minus in Hlo. rewrite this_mult, this_minus in Hhi.
  rewrite this_mult. cbn [this Qc_of_Z Q2Qc] in *.
  change (Qred 0) with 0%Q in *. unfold inject_Z in *.
  change (2 ^ 53)%Z with 9007199254740992%Z in *.
  split; lra.
Qed.

Lemma Qc_div_lt (a b k : Z) : (0 < b)%Z -> (a < k * b)%Z -> #a / #b < #k.
Proof.
  intros Hb Hlt. apply (Qcmult_lt_mono_pos_r _ _ #b); [by apply Qc_of_Z_pos|].
  replace (#a / #b * #b) with #a by (field; apply Qc_of_Z_nonzero; lia).
  rewrite <- Z2Qc_inj_mul. by apply (proj1 (Z2Qc_inj_lt _ _)).
Qed.

(** On positive ints whose quotient lies in the normal range, [a / b]
    succeeds and is within [2 ^ -53], relatively, of the exact quotient. *)
Lemma true_div_near (a b : Z) :
  (0 < a)%Z -> (0 < b)%Z -> (b <= a * 2 ^ 1022)%Z -> (a < 2 ^ 1023 * b)%Z ->
  exists v, true_div a b = Ret v
            /\ - (#a / #b) <= #(2 ^ 53) * (v - #a / #b)
            /\ #(2 ^ 53) * (v - #a / #b) <= #a / #b.
Proof.
  intros Ha Hb Hlow Hhigh. unfold true_div. rewrite decide_False by lia.
  assert (Hv : round_ratio a b = nearest64 a b).
  { unfold round_ratio. rewrite !Z.abs_eq by lia.
    destruct (a * Z.sgn b)%Z eqn:Hs; [nia|done|nia]. }
  rewrite Hv. destruct (nearest64_near a b Ha Hb Hlow) as [Hlo Hhi].
  assert (Hx : 0 <= #a / #b).
  { apply (Qcmult_le_mono_pos_r _ _ #b); [by apply Qc_of_Z_pos|].
    replace (#a / #b * #b) with #a by (field; apply Qc_of_Z_nonzero; lia).
    replace (0 * #b) with #0 by (rewrite Qc_of_Z_0; ring).
    apply (proj1 (Z2Qc_inj_le _ _)). lia. }
  destruct (near_bounds _ _ Hx Hlo Hhi) as [Hv0 Hv2].
  rewrite decide_True; [by eexists|]. split.
  - apply Qclt_le_trans with 0; [|done].
    rewrite <- Z2Qc_inj_opp, <- Qc_of_Z_0. apply (proj1 (Z2Qc_inj_lt _ _)).
    pose proof (Z.pow_pos_nonneg 2 1024 ltac:(lia) ltac:(lia)). lia.
  - apply Qcle_lt_trans with (#2 * (#a / #b)); [done|].
    change (2 ^ 1024)%Z with (2 * 2 ^ 1023)%Z. rewrite Z2Qc_inj_mul.
    apply Qcmult_lt_mono_pos_l; [by apply Qc_of_Z_pos|]. by apply Qc_div_lt.
Qed.

(** ** The overlay canvas *)

Lemma layout_lines_pagesize (lines : list str) :
  forall y c, pagesize (layout_lines lines y c) = pagesize c.
Proof.
  induction lines as [|line rest IH]; intros y c; [done|].
  cbn [layout_lines]. destruct (decide _); [|rewrite IH];
    by destruct (truthy (strip line)).
Qed.

Lemma overlay_canvas_inv (im : image) (dpi : Z) (lines : list str) (c : canvas) :
  overlay_canvas im dpi lines = Ret c ->
  exists pt_w pt_h,
    true_div (fst (size im) * 72) dpi = Ret pt_w
    /\ true_div (snd (size im) * 72) dpi = Ret pt_h
    /\ c = layout_lines lines (float_sub pt_h #12)
             (setFont "Helvetica" 8 (setFillColorRGB 0 0 0 0 (Canvas (pt_w, pt_h)))).
Proof.
  unfold overlay_canvas. destruct (size im) as [img_w img_h]. cbn [fst snd].
  destruct (true_div (img_w * 72) dpi) as [pt_w|]; [|done].
  destruct (true_div (img_h * 72) dpi) as [pt_h|]; [|done].
  cbn [bindR]. intros [= <-]. by exists pt_w, pt_h.
Qed.

Lemma overlay_canvas_eval (im : image) (dpi : Z) (lines : list str) (pt_w pt_h : Qc) :
  true_div (fst (size im) * 72) dpi = Ret pt_w ->
  true_div (snd (size im) * 72) dpi = Ret pt_h ->
  overlay_canvas im dpi lines =
  Ret (layout_lines lines (float_sub pt_h #12)
         (setFont "Helvetica" 8 (setFillColorRGB 0 0 0 0 (Canvas (pt_w, pt_h))))).
Proof.
  unfold overlay_canvas. destruct (size im) as [img_w img_h]. cbn [fst snd].
  by intros -> ->.
Qed.

(** The calls on a fresh canvas, first line at height [y]. *)
Lemma fresh_canvas_code (lines : list str) (y : Qc) (c : canvas) :
  code c = [] ->
  code (layout_lines lines y c)
  = draws c (y + #12) (consumed (y + #12) (length lines)) lines.
Proof.
  intros Hfresh. replace y with (y + #12 - #12) at 1 by ring.
  by rewrite layout_lines_code, Hfresh.
Qed.

(** The size in points of [px] pixels at a plausible resolution. *)
Lemma points_ok (px dpi : Z) :
  (0 < px < 2 ^ 1000)%Z -> (0 < dpi < 2 ^ 1000)%Z ->
  exists v, true_div (px * 72) dpi = Ret v
            /\ close64 v (#(px * 72) / #dpi)
            /\ forall q, (px * 72 = q * dpi)%Z -> (q < 2 ^ 53)%Z -> v = #q.
Proof.
  intros Hpx Hdpi.
  assert (Hsmall : (2 ^ 1000 < 2 ^ 1022)%Z) by (apply Z.pow_lt_mono_r; lia).
  assert (Hbig : (2 ^ 1023 = 2 ^ 23 * 2 ^ 1000)%Z) by (rewrite <- Z.pow_add_r; [done|lia..]).
  change (2 ^ 23)%Z with 8388608%Z in Hbig.
  destruct (true_div_near (px * 72) dpi) as (v & Hv & Hclose); [nia..|].
  exists v. split; [done|]. split; [done|]. intros q Hq Hq53.
  rewrite Hq, true_div_exact in Hv by nia. by injection Hv as <-.
Qed.

Lemma overlay_canvas_ok (im : image) (dpi : Z) (lines : list str) :
  (0 < fst (size im) < 2 ^ 1000)%Z ->
  (0 < snd (size im) < 2 ^ 1000)%Z ->
  (0 < dpi < 2 ^ 1000)%Z ->
  exists c, overlay_canvas im dpi lines = Ret c.
Proof.
  intros Hw Hh Hdpi.
  destruct (points_ok _ dpi Hw Hdpi) as (pt_w & Hpt_w & _).
  destruct (points_ok _ dpi Hh Hdpi) as (pt_h & Hpt_h & _).
  eexists. by apply overlay_canvas_eval.
Qed.

(** Claim C1.  The overlay canvas of a page measures, in points, the
    image's pixel width and height times 72 divided by the DPI, as
    Python's [/] computes the quotient: the nearest binary64 number,
    within [2 ^ -53] of the exact quotient and equal to it when it is a
    whole number below [2 ^ 53].  A non-blank first line is drawn at
    [pt_h - 12].  An image of 2550 by 3300 pixels at 300 DPI gives a page
    of exactly 612 by 792 points with the first line at 780. *)
Theorem C1_overlay_page_size (im : image) (dpi : Z) (lines : list str) :
  (0 < fst (size im) < 2 ^ 1000)%Z ->
  (0 < snd (size im) < 2 ^ 1000)%Z ->
  (0 < dpi < 2 ^ 1000)%Z ->
  exists (c : canvas) (pt_w pt_h : Qc),
    overlay_canvas im dpi lines = Ret c
    /\ pagesize c = (pt_w, pt_h)
    /\ true_div (fst (size im) * 72) dpi = Ret pt_w
    /\ true_div (snd (size im) * 72) dpi = Ret pt_h
    /\ close64 pt_w (#(fst (size im) * 72) / #dpi)
    /\ close64 pt_h (#(snd (size im) * 72) / #dpi)
    /\ (forall q, (fst (size im) * 72 = q * dpi)%Z -> (q < 2 ^ 53)%Z -> pt_w = #q)
    /\ (forall q, (snd (size im) * 72 = q * dpi)%Z -> (q < 2 ^ 53)%Z -> pt_h = #q)
    /\ (forall line rest, lines = line :: rest -> truthy (strip line) = true ->
          exists t, head (code c) = Some t /\ op_text t = line /\ op_x t = #8
                    /\ op_y t = float_sub pt_h #12)
    /\ (size im = (2550, 3300)%Z -> dpi = 300%Z ->
          pagesize c = (#612, #792) /\ float_sub pt_h #12 = #780).
Proof.
  intros Hw Hh Hdpi.
  destruct (points_ok _ dpi Hw Hdpi) as (pt_w & Hpt_w & Hclose_w & Hexact_w).
  destruct (points_ok _ dpi Hh Hdpi) as (pt_h & Hpt_h & Hclose_h & Hexact_h).
  eexists _, pt_w, pt_h. split; [by apply overlay_canvas_eval|].
  split; [by rewrite layout_lines_pagesize|].
  do 6 (split; [done|]). split.
  - intros line rest -> Hline. rewrite fresh_canvas_code by done.
    unfold draws, consumed. cbn [length].
    rewrite imap_cons, firstn_cons, omap_cons_eq. unfold slot at 1. cbn [fst snd].
    rewrite Hline, offset_0. eexists. split; [reflexivity|]. cbn [op_text op_x op_y].
    repeat split. ring.
  - intros Hsize ->. rewrite Hsize in *. cbn [fst snd] in *.
    rewrite layout_lines_pagesize. cbn [pagesize setFont setFillColorRGB Canvas].
    rewrite (Hexact_w 612%Z), (Hexact_h 792%Z) by done.
    split; [done|]. by rewrite float_sub_exact.
Qed.

Lemma C1_overlay_page_size_witness :
  exists (c : canvas) (t : text_op),
    overlay_canvas letter_scan 300 [of_string "abc"] = Ret c
    /\ pagesize c = (#612, #792)
    /\ head (code c) = Some t
    /\ op_y t = #780.
Proof.
  destruct (C1_overlay_page_size letter_scan 300 [of_string "abc"])
    as (c & pt_w & pt_h & Hc & _ & _ & _ & _ & _ & _ & _ & Hfirst & Hletter);
    [split; reflexivity..|].
  destruct (Hletter eq_refl eq_refl) as [Hbox Hy].
  destruct (Hfirst (of_string "abc") [] eq_refl eq_refl) as (t & Ht & _ & _ & Hty).
  exists c, t. split; [exact Hc|]. split; [exact Hbox|]. split; [exact Ht|].
  by rewrite Hty.
Defined.

Lemma Qc_le_eval (a b : Qc) : (Qle_bool a b = true) -> a <= b.
Proof. intros H. by apply Qle_bool_iff. Qed.



(** ** The monad *)

Lemma bind_inv {A B} (m : M A) (k : A -> M B) s r s' :
  bind m k s = (r, s') ->
  (exists a s1, m s = (Ret a, s1) /\ k a s1 = (r, s'))
  \/ (exists e, m s = (Raise e, s') /\ r = Raise e).
Proof.
  unfold bind. destruct (m s) as [[a|e] s1]; intros H.
  - left. by exists a, s1.
  - right. exists e. by simplify_eq.
Qed.

(** ** The detector *)

Section Detector.

Variable E : Env.

Lemma open_pdf_view (pdf_path : path) (s : state) :
  open_pdf E pdf_path s = (lift (view E (fs s) pdf_path), s).
Proof.
  unfold open_pdf, view, bind, get_fs. by destruct (fs s !! pdf_path).
Qed.

Lemma scan_pages_first_hit (pages : list (outcome (option str))) (min_chars : Z) (s : state) :
  scan_pages pages min_chars s = (lift (first_hit pages min_chars), s).
Proof.
  induction pages as [|[extracted|e] rest IH]; [done| |done].
  cbn [scan_pages first_hit]. unfold bind, liftM. cbn [lift].
  by destruct (_ <=? _)%Z.
Qed.

Lemma has_extractable_text_eval (pdf_path : path) (min_chars : Z) (s : state) :
  importable E "pdfplumber" = true ->
  has_extractable_text E pdf_path min_chars s =
  match verdict E (fs s) pdf_path min_chars with
  | Ok b => (Ret b, s)
  | Fails e => (Ret false, warned s pdf_path e)
  end.
Proof.
  intros Himp. unfold has_extractable_text, _require. rewrite Himp.
  unfold bind at 1. cbn [ret]. unfold try_except, verdict.
  unfold bind at 1. rewrite open_pdf_view.
  destruct (view E (fs s) pdf_path) as [pages|e]; cbn [lift]; [|done].
  rewrite scan_pages_first_hit. by destruct (first_hit pages min_chars).
Qed.

Lemma has_extractable_text_missing (pdf_path : path) (min_chars : Z) (s : state) :
  importable E "pdfplumber" = false ->
  exists msg, has_extractable_text E pdf_path min_chars s = (Raise (SystemExit msg), s).
Proof.
  intros Himp. unfold has_extractable_text, _require. rewrite Himp.
  eexists. reflexivity.
Qed.

Lemma first_hit_readable (texts : list (option str)) (min_chars : Z) :
  exists b : bool,
    first_hit (Ok <$> texts) min_chars = Ok b /\
    (b = true <-> exists t, t ∈ texts /\ (min_chars <= len (strip (default [] t)))%Z).
Proof.
  induction texts as [|t texts (b & Hb & IH)]; cbn [fmap list_fmap first_hit].
  - exists false. split; [done|]. split; [done|]. by intros (t & ?%not_elem_of_nil & _).
  - destruct (Z.leb_spec min_chars (len (strip (default [] t)))) as [Hle|Hlt].
    + exists true. split; [done|]. split; [|done]. intros _. exists t. split; [left|done].
    + exists b. split; [done|]. rewrite IH. split.
      * intros (t' & ? & ?). exists t'. split; [by right|done].
      * intros (t' & [->|?]%elem_of_cons & ?); [lia|by exists t'].
Qed.

Lemma scan_files_eval (pdf_files : list path) :
  importable E "pdfplumber" = true ->
  forall (already_ok needs_ocr : list path) (errors : list (path * string)) (s : state),
    scan_files E pdf_files already_ok needs_ocr errors s =
    (Ret (already_ok ++ filter (fun p => found E (fs s) p = true) pdf_files,
          needs_ocr ++ filter (fun p => found E (fs s) p <> true) pdf_files,
          errors),
     {| fs := fs s; trace := trace s ++ scan_log E (fs s) pdf_files |}).
Proof.
  intros Himp. induction pdf_files as [|pdf rest IH]; intros ok needs errs s.
  - cbn. rewrite !app_nil_r. by destruct s.
  - cbn [scan_files]. unfold bind at 1. unfold try_except. unfold bind at 1.
    rewrite has_extractable_text_eval by done.
    unfold scan_log. rewrite bind_cons. fold (scan_log E (fs s) rest).
    rewrite !filter_cons.
    assert (Hfound : found E (fs s) pdf =
              match verdict E (fs s) pdf default_min_chars with
              | Ok true => true | _ => false end) by done.
    destruct (verdict E (fs s) pdf default_min_chars) as [[|]|e];
      cbn [bind print emit ret]; rewrite IH; cbn [fs trace warned];
      rewrite Hfound;
      rewrite ?decide_True by done; rewrite ?decide_False by done;
      by rewrite <- ?app_assoc.
Qed.

Lemma detection_body_eval (pdf_path : path) (min_chars : Z) (s : state) :
  (pages <- open_pdf E pdf_path ;; scan_pages pages min_chars) s =
  (lift (verdict E (fs s) pdf_path min_chars), s).
Proof.
  unfold bind, verdict. rewrite open_pdf_view.
  destruct (view E (fs s) pdf_path) as [pages|e]; cbn [lift]; [|done].
  apply scan_pages_first_hit.
Qed.

Lemma open_pdf_fails_view (pdf_path : path) (s s' : state) (e : string) :
  open_pdf E pdf_path s = (Raise (Exception e), s') ->
  view E (fs s) pdf_path = Fails e.
Proof.
  rewrite open_pdf_view. destruct (view E (fs s) pdf_path); cbn [lift]; congruence.
Qed.

Lemma open_pdf_ok_view (pdf_path : path) (s s' : state) pages :
  open_pdf E pdf_path s = (Ret pages, s') ->
  view E (fs s) pdf_path = Ok pages.
Proof.
  rewrite open_pdf_view. destruct (view E (fs s) pdf_path); cbn [lift]; congruence.
Qed.

Lemma first_hit_app_quiet (pre : list (option str)) rest (min_chars : Z) :
  (forall t, t ∈ pre -> (len (strip (default [] t)) < min_chars)%Z) ->
  first_hit ((Ok <$> pre) ++ rest) min_chars = first_hit rest min_chars.
Proof.
  induction pre as [|t pre IH]; intros Hpre; [done|].
  cbn [fmap list_fmap app first_hit].
  destruct (Z.leb_spec min_chars (len (strip (default [] t)))) as [Hle|Hlt].
  - specialize (Hpre t ltac:(left)). lia.
  - apply IH. intros t' Ht'. apply Hpre. by right.
Qed.

Lemma scan_files_missing (pdf : path) (rest already_ok needs_ocr : list path)
    (errors : list (path * string)) (s : state) :
  importable E "pdfplumber" = false ->
  exists msg,
    scan_files E (pdf :: rest) already_ok needs_ocr errors s = (Raise (SystemExit msg), s).
Proof.
  intros Himp.
  destruct (has_extractable_text_missing pdf default_min_chars s Himp) as [msg Hmsg].
  exists msg. cbn [scan_files]. unfold bind at 1. unfold try_except. unfold bind at 1.
  by rewrite Hmsg.
Qed.

End Detector.

(** The page loop answers [True] exactly when a page reaches the
    threshold before any page fails. *)
Lemma first_hit_true_iff (pages : list (outcome (option str))) (min_chars : Z) :
  first_hit pages min_chars = Ok true <->
  exists (i : nat) t,
    pages !! i = Some (Ok t)
    /\ (min_chars <= len (strip (default [] t)))%Z
    /\ forall j, (j < i)%nat -> exists t', pages !! j = Some (Ok t').
Proof.
  induction pages as [|[t|e] rest IH]; cbn [first_hit].
  - split; [done|]. by intros (i & t & ? & _).
  - destruct (Z.leb_spec min_chars (len (strip (default [] t)))) as [Hhit|Hmiss].
    + split; [|done]. intros _. exists 0%nat, t. repeat split; [done|]. lia.
    + rewrite IH. split.
      * intros (i & t' & Hi & Hlen & Hbefore). exists (S i), t'. repeat split; [done..|].
        intros [|j] Hj; [by eexists|]. apply Hbefore. lia.
      * intros ([|i] & t' & Hi & Hlen & Hbefore).
        -- injection Hi as <-. lia.
        -- exists i, t'. repeat split; [done..|]. intros j Hj.
           apply (Hbefore (S j)). lia.
  - split; [done|]. intros ([|i] & t & Hi & _ & Hbefore); [done|].
    destruct (Hbefore 0%nat) as [t' Ht']; [lia|done].
Qed.

(** Claim C3, amended.  For a document that pdfplumber opens, the detector
    returns a boolean and changes no file.  It returns [True] exactly
    when some page's text, stripped of surrounding whitespace, has at
    least [min_chars] characters and every page before it could be
    parsed.  When all pages can be parsed this is: exactly when some
    page's stripped text has at least [min_chars] characters, and then
    nothing is printed either.  The threshold used when none is given is
    20. *)
Theorem C3_text_presence (E : Env) (s : state) (pdf : path) (min_chars : Z)
    (bytes : file) (pages : list (outcome (option str))) :
  importable E "pdfplumber" = true ->
  fs s !! pdf = Some bytes ->
  pdfplumber_open E bytes = Ok pages ->
  exists (b : bool) (s' : state),
    has_extractable_text E pdf min_chars s = (Ret b, s')
    /\ fs s' = fs s
    /\ (b = true <->
        exists (i : nat) t,
          pages !! i = Some (Ok t)
          /\ (min_chars <= len (strip (default [] t)))%Z
          /\ forall j, (j < i)%nat -> exists t', pages !! j = Some (Ok t'))
    /\ (forall texts, pages = Ok <$> texts ->
          s' = s
          /\ (b = true <->
              exists t, t ∈ texts /\ (min_chars <= len (strip (default [] t)))%Z))
    /\ default_min_chars = 20%Z.
Proof.
  intros Himp Hfile Hopen.
  pose proof (has_extractable_text_eval E pdf min_chars s Himp) as Heval.
  unfold verdict, view in Heval. rewrite Hfile, Hopen in Heval.
  pose proof (first_hit_true_iff pages min_chars) as Htrue.
  destruct (first_hit pages min_chars) as [b|e] eqn:Hhit.
  - exists b, s. split; [done|]. split; [done|]. split.
    { rewrite <- Htrue. split; congruence. }
    split; [|done]. intros texts ->. split; [done|].
    destruct (first_hit_readable texts min_chars) as (b' & Hb' & Hiff).
    rewrite <- Hiff. split; congruence.
  - exists false, (warned s pdf e). split; [done|]. split; [done|]. split.
    { rewrite <- Htrue. split; congruence. }
    split; [|done]. intros texts ->.
    destruct (first_hit_readable texts min_chars) as (b' & Hb' & _). congruence.
Qed.

Lemma C3_text_presence_witness :
  exists (b : bool) (s' : state),
    has_extractable_text sample_env ("docs", "text.pdf") 20 sample_state = (Ret b, s')
    /\ s' = sample_state
    /\ (b = true <->
        exists t, t ∈ [Some sample_text] /\ (20 <= len (strip (default [] t)))%Z).
Proof.
  destruct (C3_text_presence sample_env sample_state ("docs", "text.pdf") 20
              (Original 2) [Ok (Some sample_text)] eq_refl eq_refl eq_refl)
    as (b & s' & Hrun & _ & _ & Hall & _).
  destruct (Hall [Some sample_text] eq_refl) as [Hs Hiff].
  exists b, s'. split; [exact Hrun|]. split; [exact Hs|exact Hiff].
Defined.

(** A document that opens, whose first page cannot be parsed and whose
    second page has 35 characters of text: the detector answers [False]. *)
Lemma C3_counterexample :
  fs sample_state !! ("docs", "damaged.pdf") = Some (Original 3)
  /\ pdfplumber_open sample_env (Original 3)
     = Ok [Fails "damaged page"; Ok (Some sample_text)]
  /\ (default_min_chars <= len (strip sample_text))%Z
  /\ fst (has_extractable_text sample_env ("docs", "damaged.pdf") default_min_chars
            sample_state) = Ret false
  /\ ~ (fst (has_extractable_text sample_env ("docs", "damaged.pdf") default_min_chars
               sample_state) = Ret true
        <-> exists t, Ok (Some t) ∈ [Fails "damaged page"; Ok (Some sample_text)]
                      /\ (default_min_chars <= len (strip t))%Z).
Proof.
  assert (Hlen : (default_min_chars <= len (strip sample_text))%Z) by (vm_compute; discriminate).
  assert (Hrun : fst (has_extractable_text sample_env ("docs", "damaged.pdf")
                        default_min_chars sample_state) = Ret false)
    by (vm_compute; reflexivity).
  split; [reflexivity|]. split; [reflexivity|]. split; [exact Hlen|]. split; [exact Hrun|].
  intros [_ Hclaim]. rewrite Hrun in Hclaim.
  assert (Habsurd : @Ret bool false = Ret true); [|discriminate].
  apply Hclaim. exists sample_text. split; [|exact Hlen].
  apply list_elem_of_further, list_elem_of_here.
Qed.

(** Claim C10.  The text-presence check never lets an [Exception] out:
    on any machine its only way of ending other than a boolean is the
    [SystemExit] of the lazy import, so the [except Exception] branch of
    the scan loop is never taken and the scan never adds to [errors].
    Where pdfplumber is installed the check returns a boolean whatever the
    file is, leaves the files as they are, and answers [False] whenever
    opening the document or reading a page raises; a document that cannot
    be opened therefore lands in [needs_ocr]. *)
Theorem C10_detector_never_raises (E : Env) (s : state) (pdf : path) (min_chars : Z) :
  (forall e s', has_extractable_text E pdf min_chars s <> (Raise (Exception e), s'))
  /\ (forall (pdf_files already_ok needs_ocr : list path) (errors : list (path * string))
             lists s',
        scan_files E pdf_files already_ok needs_ocr errors s = (Ret lists, s') ->
        snd lists = errors)
  /\ (importable E "pdfplumber" = true ->
      (exists (b : bool) (s' : state),
          has_extractable_text E pdf min_chars s = (Ret b, s')
          /\ fs s' = fs s
          /\ (forall e s1,
                (pages <- open_pdf E pdf ;; scan_pages pages min_chars) s
                  = (Raise (Exception e), s1) ->
                b = false))
      /\ (forall (pdf_files already_ok needs_ocr : list path)
                 (errors : list (path * string)),
            exists (ok' needs' : list path) (s' : state),
              scan_files E pdf_files already_ok needs_ocr errors s
                = (Ret (ok', needs', errors), s')
              /\ (forall p e, p ∈ pdf_files ->
                    open_pdf E p s = (Raise (Exception e), s) -> p ∈ needs'))).
Proof.
  split; [|split].
  - intros e s'. destruct (importable E "pdfplumber") eqn:Himp.
    + rewrite has_extractable_text_eval by done.
      by destruct (verdict E (fs s) pdf min_chars).
    + destruct (has_extractable_text_missing E pdf min_chars s Himp) as [msg ->]. done.
  - intros pdf_files ok needs errors lists s'.
    destruct (importable E "pdfplumber") eqn:Himp.
    + rewrite scan_files_eval by done. by intros [= <- _].
    + destruct pdf_files as [|p rest]; [by intros [= <- _]|].
      destruct (scan_files_missing E p rest ok needs errors s Himp) as [msg ->]. done.
  - intros Himp. split.
    + pose proof (has_extractable_text_eval E pdf min_chars s Himp) as Heval.
      pose proof (detection_body_eval E pdf min_chars s) as Hbody.
      destruct (verdict E (fs s) pdf min_chars) as [b|e0].
      * exists b, s. split; [done|]. split; [done|].
        intros e s1 Hraise. rewrite Hbody in Hraise. discriminate.
      * exists false, (warned s pdf e0). by repeat split.
    + intros pdf_files ok needs errors.
      do 3 eexists. split; [by apply scan_files_eval|].
      intros p e Hp Hopen%open_pdf_fails_view.
      apply elem_of_app. right. apply list_elem_of_filter. split; [|done].
      unfold found, verdict. by rewrite Hopen.
Qed.

Lemma C10_detector_never_raises_witness :
  exists (ok' needs' : list path) (s' : state),
    scan_files sample_env [("docs", "broken.pdf")] [] [] [] sample_state
      = (Ret (ok', needs', []), s')
    /\ ("docs", "broken.pdf") ∈ needs'.
Proof.
  destruct (C10_detector_never_raises sample_env sample_state ("docs", "broken.pdf") 20)
    as (_ & _ & Hinstalled).
  destruct (Hinstalled eq_refl) as [_ Hscan].
  destruct (Hscan [("docs", "broken.pdf")] [] [] []) as (ok' & needs' & s' & Hrun & Hneeds).
  exists ok', needs', s'. split; [exact Hrun|].
  apply (Hneeds ("docs", "broken.pdf") "not a PDF"); [apply list_elem_of_here|reflexivity].
Defined.

(** Claim C4, amended.  Every failure during detection is absorbed in one
    and the same way: whether the document cannot be opened or a page
    cannot be parsed, a warning naming the file is printed and detection
    ends at once with [False], the pages after the failing one not being
    looked at; a page that reaches the threshold before any failure has
    already ended detection with [True].  Nothing reaches the caller, so
    the scan files a document that cannot be opened under [needs_ocr] and
    not under [errors]. *)
Theorem C4_failures_absorbed (E : Env) (s : state) (pdf : path) (min_chars : Z) :
  importable E "pdfplumber" = true ->
  (forall e, open_pdf E pdf s = (Raise (Exception e), s) ->
     has_extractable_text E pdf min_chars s = (Ret false, warned s pdf e))
  /\ (forall (pre : list (option str)) e post,
        open_pdf E pdf s = (Ret ((Ok <$> pre) ++ Fails e :: post), s) ->
        (forall t, t ∈ pre -> (len (strip (default [] t)) < min_chars)%Z) ->
        has_extractable_text E pdf min_chars s = (Ret false, warned s pdf e))
  /\ (forall (pre : list (option str)) t post,
        open_pdf E pdf s = (Ret ((Ok <$> pre) ++ Ok t :: post), s) ->
        (forall t', t' ∈ pre -> (len (strip (default [] t')) < min_chars)%Z) ->
        (min_chars <= len (strip (default [] t)))%Z ->
        has_extractable_text E pdf min_chars s = (Ret true, s))
  /\ (forall e already_ok needs_ocr errors,
        open_pdf E pdf s = (Raise (Exception e), s) ->
        exists s',
          scan_files E [pdf] already_ok needs_ocr errors s
            = (Ret (already_ok, needs_ocr ++ [pdf], errors), s')
          /\ fs s' = fs s).
Proof.
  intros Himp. repeat split.
  - intros e Hopen%open_pdf_fails_view.
    rewrite has_extractable_text_eval by done. unfold verdict. by rewrite Hopen.
  - intros pre e post Hopen%open_pdf_ok_view Hpre.
    rewrite has_extractable_text_eval by done. unfold verdict.
    by rewrite Hopen, first_hit_app_quiet.
  - intros pre t post Hopen%open_pdf_ok_view Hpre Ht.
    rewrite has_extractable_text_eval by done. unfold verdict.
    rewrite Hopen, first_hit_app_quiet by done. cbn [first_hit].
    by destruct (Z.leb_spec min_chars (len (strip (default [] t)))); [|lia].
  - intros e ok needs errors Hopen%open_pdf_fails_view.
    exists {| fs := fs s; trace := trace s ++ scan_log E (fs s) [pdf] |}.
    rewrite scan_files_eval by done. split; [|done].
    rewrite !filter_cons, !filter_nil.
    assert (Hf : found E (fs s) pdf = false) by (unfold found, verdict; by rewrite Hopen).
    rewrite Hf. rewrite (decide_False (P := false = true)) by done.
    rewrite (decide_True (P := false <> true)) by done. by rewrite app_nil_r.
Qed.

Lemma C4_failures_absorbed_witness :
  has_extractable_text sample_env ("docs", "damaged.pdf") 20 sample_state
  = (Ret false, warned sample_state ("docs", "damaged.pdf") "damaged page").
Proof.
  destruct (C4_failures_absorbed sample_env sample_state ("docs", "damaged.pdf") 20 eq_refl)
    as (_ & Hpage & _).
  apply (Hpage [] "damaged page" [Ok (Some sample_text)]); [reflexivity|].
  intros t Ht. by apply not_elem_of_nil in Ht.
Defined.

Lemma C4_counterexample :
  fst (has_extractable_text sample_env ("docs", "damaged.pdf") 20 sample_state)
    <> fst (detector_claimed sample_env ("docs", "damaged.pdf") 20 sample_state)
  /\ fst (has_extractable_text sample_env ("docs", "damaged.pdf") 20 sample_state) = Ret false
  /\ fst (detector_claimed sample_env ("docs", "damaged.pdf") 20 sample_state) = Ret true
  /\ fst (has_extractable_text sample_env ("docs", "broken.pdf") 20 sample_state)
       <> fst (detector_claimed sample_env ("docs", "broken.pdf") 20 sample_state)
  /\ fst (has_extractable_text sample_env ("docs", "broken.pdf") 20 sample_state) = Ret false
  /\ fst (detector_claimed sample_env ("docs", "broken.pdf") 20 sample_state)
     = Raise (Exception "document unreadable")
  /\ fst (scan_files sample_env [("docs", "broken.pdf")] [] [] [] sample_state)
     = Ret ([], [("docs", "broken.pdf")], []).
Proof. repeat split; try reflexivity; vm_compute; discriminate. Qed.

(** ** The page built for one image *)

Section Page.

Variable E : Env.

(** What a page that has been built is made of: the calls on the canvas
    are those for the shaped text of the image, the text layer is what
    ReportLab answered for that canvas, and the page is Pillow's page of
    the image with the text layer merged on top. *)
Lemma ocr_page_ret_inv (im : image) (dpi : Z) (pg : pdf_page) :
  ocr_page E im dpi = Ret pg ->
  exists raw c text_page rest box,
    image_to_string E im = Ok raw
    /\ overlay_canvas im dpi (display_lines E raw) = Ret c
    /\ canvas_save E c = Ok (text_page :: rest)
    /\ image_save E im dpi = Ok box
    /\ pg = {| mediabox := box; contents := DrawImage im :: contents text_page |}.
Proof.
  unfold ocr_page, text_layer, save, composite, Image_save_pdf.
  destruct (image_to_string E im) as [raw|] eqn:Hraw; [|done]. cbn [lift bindR].
  destruct (overlay_canvas im dpi (display_lines E raw)) as [c|] eqn:Hc; [|done].
  cbn [bindR].
  destruct (canvas_save E c) as [packet|] eqn:Hsave; [|done]. cbn [lift bindR].
  destruct (image_save E im dpi) as [box|] eqn:Hbox; [|done]. cbn [lift bindR first_page].
  destruct packet as [|text_page rest]; [done|]. cbn [bindR].
  intros [= <-]. by exists raw, c, text_page, rest, box.
Qed.

Lemma ocr_page_eval (im : image) (dpi : Z) (raw : str) (c : canvas)
    (text_page : pdf_page) (rest : list pdf_page) (box : Qc * Qc) :
  image_to_string E im = Ok raw ->
  overlay_canvas im dpi (display_lines E raw) = Ret c ->
  canvas_save E c = Ok (text_page :: rest) ->
  image_save E im dpi = Ok box ->
  ocr_page E im dpi
  = Ret {| mediabox := box; contents := DrawImage im :: contents text_page |}.
Proof.
  intros Hraw Hc Hsave Hbox.
  unfold ocr_page, text_layer, save, composite, Image_save_pdf.
  rewrite Hraw. cbn [lift bindR]. rewrite Hc. cbn [bindR]. rewrite Hsave.
  cbn [lift bindR]. by rewrite Hbox.
Qed.

(** A page is built whenever the sizes are plausible and the three
    libraries answer. *)
Lemma ocr_page_ok (im : image) (dpi : Z) :
  (0 < fst (size im) < 2 ^ 1000)%Z ->
  (0 < snd (size im) < 2 ^ 1000)%Z ->
  (0 < dpi < 2 ^ 1000)%Z ->
  (exists raw, image_to_string E im = Ok raw) ->
  (forall c, exists text_page rest, canvas_save E c = Ok (text_page :: rest)) ->
  (exists box, image_save E im dpi = Ok box) ->
  exists pg, ocr_page E im dpi = Ret pg.
Proof.
  intros Hw Hh Hdpi [raw Hraw] Hsave [box Hbox].
  destruct (overlay_canvas_ok im dpi (display_lines E raw) Hw Hh Hdpi) as [c Hc].
  destruct (Hsave c) as (text_page & rest & Hpacket).
  eexists. by eapply ocr_page_eval.
Qed.

End Page.

(** ** Page assembly *)

Section Assembly.

Variable E : Env.

Lemma require_inv (module : string) (package : option string) s r s' :
  _require E module package s = (r, s') ->
  s' = s /\ (r = Ret tt \/ exists msg, r = Raise (SystemExit msg)).
Proof.
  unfold _require. destruct (importable E module); intros [= <- <-]; eauto.
Qed.

Lemma import_inv (module : string) s r s' :
  import E module s = (r, s') ->
  s' = s /\ (r = Ret tt \/ exists msg, r = Raise (Exception msg)).
Proof.
  unfold import. destruct (importable E module); intros [= <- <-]; eauto.
Qed.

Lemma sys_inv (c : syscall) s r s' :
  sys E c s = (r, s') ->
  s' = s /\ (r = Ret tt \/ exists msg, r = Raise (Exception msg)).
Proof.
  unfold sys. destruct (os_fault E s c); intros [= <- <-]; eauto.
Qed.

Lemma rasterize_inv (pdf_path : path) (dpi : Z) s r s' :
  rasterize E pdf_path dpi s = (r, s') ->
  s' = {| fs := fs s; trace := trace s ++ [Rasterized pdf_path dpi] |}
  /\ (forall images, r = Ret images ->
        exists bytes, fs s !! pdf_path = Some bytes
                      /\ convert_from_path E bytes dpi = Ok images).
Proof.
  unfold rasterize, bind, emit, get_fs. cbn [fs trace].
  destruct (fs s !! pdf_path) as [bytes|].
  - unfold liftM. intros [= <- <-]. split; [done|].
    intros images Hr. exists bytes. split; [done|].
    destruct (convert_from_path E bytes dpi); simplify_eq/=. done.
  - intros [= <- <-]. split; [done|]. intros images [=].
Qed.

Lemma ocr_page_base (im : image) (dpi : Z) (pg : pdf_page) :
  ocr_page E im dpi = Ret pg ->
  head (contents pg) = Some (DrawImage im)
  /\ image_save E im dpi = Ok (mediabox pg).
Proof.
  intros (raw & c & text_page & rest & box & _ & _ & _ & Hbox & ->)%ocr_page_ret_inv.
  done.
Qed.

Lemma ocr_pages_inv (pdf_path : path) (dpi : Z) (images : list image) :
  forall (i : nat) (writer : list pdf_page) s pages s',
    ocr_pages E pdf_path images dpi i writer s = (Ret pages, s') ->
    fs s' = fs s
    /\ exists added, pages = writer ++ added
                     /\ Forall2 (fun im pg => ocr_page E im dpi = Ret pg) images added.
Proof.
  induction images as [|im rest IH]; intros i writer s pages s'.
  - cbn. intros [= <- <-]. split; [done|]. exists []. by rewrite app_nil_r.
  - cbn [ocr_pages]. unfold bind at 1. cbn [emit].
    unfold bind at 1. unfold liftM.
    destruct (ocr_page E im dpi) as [pg|e] eqn:Hpg; [|done].
    intros (Hfs & added & -> & Hall)%IH. split; [done|].
    exists (pg :: added). rewrite <- app_assoc. split; [done|]. by constructor.
Qed.

Lemma write_pdf_inv (output_path : path) (pages : list pdf_page) s s' :
  write_pdf E output_path pages s = (Ret tt, s') ->
  fs s' = <[output_path := Composite pages]> (fs s) /\ trace s' = trace s.
Proof.
  unfold write_pdf. intros H.
  apply bind_inv in H as [(? & ? & [-> _]%sys_inv & H)|(? & _ & ?)]; [|done].
  unfold bind at 1 in H. cbn [get_fs] in H. unfold bind at 1 in H. cbn [put_fs] in H.
  apply bind_inv in H as [(? & ? & [-> _]%sys_inv & H)|(? & _ & ?)]; [|done].
  unfold bind, get_fs, put_fs in H. cbn [fs trace] in H.
  injection H as <-. cbn [fs trace]. by rewrite insert_insert_eq.
Qed.

Lemma ocr_pdf_inv (pdf_path output_path : path) (dpi : Z) (s s' : state) :
  ocr_pdf E pdf_path output_path dpi s = (Ret tt, s') ->
  exists (bytes : file) (images : list image) (pages : list pdf_page),
    fs s !! pdf_path = Some bytes
    /\ convert_from_path E bytes dpi = Ok images
    /\ Forall2 (fun im pg => ocr_page E im dpi = Ret pg) images pages
    /\ fs s' = <[output_path := Composite pages]> (fs s).
Proof.
  unfold ocr_pdf. intros H.
  repeat (apply bind_inv in H as [(? & ? & [-> _]%require_inv & H)|(? & [_ ?]%require_inv & ?)];
          [|done]).
  apply bind_inv in H as [(? & ? & [-> _]%import_inv & H)|(? & [_ ?]%import_inv & ?)];
    [|done].
  apply bind_inv in H as [(images & s1 & [-> Himg]%rasterize_inv & H)|(? & _ & ?)]; [|done].
  destruct (Himg images eq_refl) as (bytes & Hbytes & Hconv).
  apply bind_inv in H as [(pages & s2 & Hpages & H)|(? & _ & ?)]; [|done].
  apply ocr_pages_inv in Hpages as (Hfs2 & added & -> & Hall).
  apply write_pdf_inv in H as [Hfs' _].
  exists bytes, images, added. cbn [app]. repeat split; try done.
  by rewrite Hfs', Hfs2.
Qed.

Lemma ocr_pages_ok (pdf_path : path) (dpi : Z) (images : list image) :
  Forall (fun im => exists pg, ocr_page E im dpi = Ret pg) images ->
  forall (i : nat) (writer : list pdf_page) s,
    exists pages s', ocr_pages E pdf_path images dpi i writer s = (Ret pages, s').
Proof.
  induction 1 as [|im rest [pg Hpg] _ IH]; intros i writer s.
  - cbn. eauto.
  - cbn [ocr_pages]. unfold bind at 1. cbn [emit]. unfold bind at 1. unfold liftM.
    rewrite Hpg. apply IH.
Qed.

(** [ocr_pdf] returns whenever the modules are installed, the sizes are
    plausible, the libraries answer and the output file can be written. *)
Lemma ocr_pdf_succeeds (pdf_path output_path : path) (dpi : Z) (s : state)
    (bytes : file) (images : list image) :
  (forall module, importable E module = true) ->
  fs s !! pdf_path = Some bytes ->
  convert_from_path E bytes dpi = Ok images ->
  (0 < dpi < 2 ^ 1000)%Z ->
  Forall (fun im => (0 < fst (size im) < 2 ^ 1000)%Z
                    /\ (0 < snd (size im) < 2 ^ 1000)%Z
                    /\ (exists raw, image_to_string E im = Ok raw)
                    /\ (exists box, image_save E im dpi = Ok box)) images ->
  (forall c, exists text_page rest, canvas_save E c = Ok (text_page :: rest)) ->
  (forall s0, os_fault E s0 (SysOpenWrite output_path) = None) ->
  (forall s0, os_fault E s0 (SysWrite output_path) = None) ->
  exists s', ocr_pdf E pdf_path output_path dpi s = (Ret tt, s').
Proof.
  intros Himp Hbytes Hconv Hdpi Hocr Hsave Hopen Hwrite.
  assert (Hpages : Forall (fun im => exists pg, ocr_page E im dpi = Ret pg) images).
  { eapply Forall_impl; [exact Hocr|]. intros im (Hw & Hh & Hraw & Hbox).
    by apply ocr_page_ok. }
  unfold ocr_pdf, _require, import. rewrite !Himp.
  repeat (unfold bind at 1; cbn [ret]).
  unfold rasterize. unfold bind at 1. cbn [emit]. unfold bind at 1. cbn [get_fs fs].
  rewrite Hbytes, Hconv. cbn [liftM lift].
  edestruct (ocr_pages_ok pdf_path dpi images Hpages 0%nat []) as (pages & s1 & ->).
  unfold write_pdf, sys, bind, get_fs, put_fs, ret. cbn [fs trace].
  rewrite Hopen, Hwrite. eauto.
Qed.

End Assembly.

(** Claim C6.  When [ocr_pdf] succeeds, the file it has written holds one
    page for every image the rasterizer gave, in the same order: the i-th
    page is the composite made from the i-th image and shows that image
    as its first content. *)
Theorem C6_page_order (E : Env) (pdf_path output_path : path) (dpi : Z) (s s' : state) :
  ocr_pdf E pdf_path output_path dpi s = (Ret tt, s') ->
  exists (bytes : file) (images : list image) (pages : list pdf_page),
    fs s !! pdf_path = Some bytes
    /\ convert_from_path E bytes dpi = Ok images
    /\ fs s' !! output_path = Some (Composite pages)
    /\ length pages = length images
    /\ Forall2 (fun im pg => ocr_page E im dpi = Ret pg
                             /\ head (contents pg) = Some (DrawImage im))
         images pages.
Proof.
  intros (bytes & images & pages & Hbytes & Hconv & Hall & Hfs)%ocr_pdf_inv.
  exists bytes, images, pages.
  split; [done|]. split; [done|].
  split; [by rewrite Hfs, lookup_insert_eq|].
  split; [symmetry; by eapply Forall2_length|].
  eapply Forall2_impl; [exact Hall|]. intros im pg Hpg. split; [done|].
  by apply ocr_page_base in Hpg as [? _].
Qed.

Lemma C6_page_order_witness :
  exists (bytes : file) (images : list image) (pages : list pdf_page),
    fs sample_state !! ("docs", "damaged.pdf") = Some bytes
    /\ convert_from_path sample_env bytes 300 = Ok images
    /\ fs (snd (ocr_pdf sample_env ("docs", "damaged.pdf") ("out", "damaged.pdf") 300
                  sample_state)) !! ("out", "damaged.pdf") = Some (Composite pages)
    /\ length pages = length images
    /\ Forall2 (fun im pg => ocr_page sample_env im 300 = Ret pg
                             /\ head (contents pg) = Some (DrawImage im))
         images pages.
Proof.
  apply (C6_page_order sample_env ("docs", "damaged.pdf") ("out", "damaged.pdf") 300
           sample_state).
  vm_compute. reflexivity.
Defined.

(** ** Rules for invariants *)

Section Rules.

Context {I : state -> Prop}.

Lemma yields_ret {A} (a : A) (V : A -> Prop) : V a -> yields I (ret a) V.
Proof. intros Ha s Hs. split; [done|]. by intros ? [= <-]. Qed.

Lemma yields_raise {A} (e : exn) (V : A -> Prop) : yields I (raise e) V.
Proof. intros s Hs. split; [done|]. by intros ? [=]. Qed.

Lemma yields_liftM {A} (r : res A) (V : A -> Prop) :
  (forall a, r = Ret a -> V a) -> yields I (liftM r) V.
Proof. intros Hr s Hs. split; [done|]. exact Hr. Qed.

Lemma yields_bind {A B} (m : M A) (k : A -> M B) (V : A -> Prop) (W : B -> Prop) :
  yields I m V -> (forall a, V a -> yields I (k a) W) -> yields I (bind m k) W.
Proof.
  intros Hm Hk s Hs. destruct (Hm s Hs) as [HI HV]. unfold bind.
  destruct (m s) as [[a|e] s1]; cbn [fst snd] in *.
  - apply Hk; auto.
  - split; [done|]. by intros ? [=].
Qed.

Lemma yields_try_except {A} (body : M A) (handler : string -> M A) (V : A -> Prop) :
  yields I body V -> (forall msg, yields I (handler msg) V) ->
  yields I (try_except body handler) V.
Proof.
  intros Hb Hh s Hs. destruct (Hb s Hs) as [HI HV]. unfold try_except.
  destruct (body s) as [[a|[msg|msg]] s1]; cbn [fst snd] in *.
  - split; [done|]. exact HV.
  - by apply Hh.
  - split; [done|]. by intros ? [=].
Qed.

Lemma yields_attempt {A} (body : M A) (V : A -> Prop) :
  yields I body V ->
  yields I (attempt body)
    (fun r => match r with inr a => V a | inl _ => True end).
Proof.
  intros Hb s Hs. destruct (Hb s Hs) as [HI HV]. unfold attempt.
  destruct (body s) as [[a|[msg|msg]] s1]; cbn [fst snd] in *.
  - split; [done|]. intros ? [= <-]. by apply HV.
  - split; [done|]. by intros ? [= <-].
  - split; [done|]. by intros ? [=].
Qed.

Lemma keeps_bind {A B} (m : M A) (k : A -> M B) :
  keeps I m -> (forall a, keeps I (k a)) -> keeps I (bind m k).
Proof. intros Hm Hk. eapply yields_bind; [exact Hm|]. intros a _. apply Hk. Qed.

End Rules.

(** ** Statements that stay within a frame *)

Section Frame.

Variable E : Env.
Variables (protected : path -> Prop) (silent : event -> Prop).
Variables (f0 : gmap path file) (log : list event).

Hypothesis silent_print : forall m, silent (Printed m).

Local Abbreviation Inv := (frame protected silent f0 log).

Lemma frame_emit (ev : event) (s : state) :
  silent ev -> Inv s -> Inv {| fs := fs s; trace := trace s ++ [ev] |}.
Proof.
  intros Hev (Hfs & evs & Htr & Hevs). split; [done|].
  exists (evs ++ [ev]). cbn [trace]. rewrite Htr, app_assoc. split; [done|].
  apply Forall_app. split; [done|]. by constructor.
Qed.

Lemma frame_put (f : gmap path file) (s : state) :
  (forall p, protected p -> f !! p = f0 !! p) -> Inv s ->
  Inv {| fs := f; trace := trace s |}.
Proof. intros Hf (_ & Hevs). by split. Qed.

Lemma keeps_emit (ev : event) : silent ev -> keeps Inv (emit ev).
Proof. intros Hev s Hs. split; [by apply frame_emit|done]. Qed.

Lemma keeps_print (m : message) : keeps Inv (print m).
Proof. apply keeps_emit, silent_print. Qed.

Lemma keeps_sys (c : syscall) : keeps Inv (sys E c).
Proof.
  intros s Hs. unfold sys.
  destruct (os_fault E s c); [by apply yields_raise|by apply yields_ret].
Qed.

Lemma keeps_require (module : string) (package : option string) :
  keeps Inv (_require E module package).
Proof.
  unfold _require. destruct (importable E module); [by apply yields_ret|apply yields_raise].
Qed.

Lemma keeps_import (module : string) : keeps Inv (import E module).
Proof.
  unfold import. destruct (importable E module); [by apply yields_ret|apply yields_raise].
Qed.

Lemma yields_get_fs :
  yields Inv get_fs (fun f => forall p, protected p -> f !! p = f0 !! p).
Proof. intros s Hs. split; [done|]. intros f [= <-]. apply Hs. Qed.

Lemma keeps_put_fs (f : gmap path file) :
  (forall p, protected p -> f !! p = f0 !! p) -> keeps Inv (put_fs f).
Proof. intros Hf s Hs. split; [by apply frame_put|done]. Qed.

Lemma keeps_os_replace (src dst : path) :
  ~ protected src -> ~ protected dst -> keeps Inv (os_replace E src dst).
Proof.
  intros Hsrc Hdst. unfold os_replace. apply keeps_bind; [apply keeps_sys|]. intros _.
  eapply yields_bind; [apply yields_get_fs|]. intros f Hf.
  destruct (f !! src); [|apply yields_raise].
  apply keeps_put_fs. intros p Hp.
  rewrite lookup_insert_ne, lookup_delete_ne by (intros ->; contradiction). by apply Hf.
Qed.

Lemma keeps_os_unlink (p : path) : ~ protected p -> keeps Inv (os_unlink E p).
Proof.
  intros Hp. unfold os_unlink. apply keeps_bind; [apply keeps_sys|]. intros _.
  eapply yields_bind; [apply yields_get_fs|]. intros f Hf.
  destruct (f !! p); [|apply yields_raise].
  apply keeps_put_fs. intros p' Hp'.
  rewrite lookup_delete_ne by (intros ->; contradiction). by apply Hf.
Qed.

Lemma keeps_os_path_exists (p : path) : keeps Inv (os_path_exists p).
Proof.
  unfold os_path_exists. eapply yields_bind; [apply yields_get_fs|].
  intros f _. by apply yields_ret.
Qed.

Lemma keeps_write_pdf (output_path : path) (pages : list pdf_page) :
  ~ protected output_path -> keeps Inv (write_pdf E output_path pages).
Proof.
  intros Hout. unfold write_pdf.
  apply keeps_bind; [apply keeps_sys|]. intros _.
  eapply yields_bind; [apply yields_get_fs|]. intros f Hf.
  apply keeps_bind.
  { apply keeps_put_fs. intros p Hp.
    rewrite lookup_insert_ne by (intros ->; contradiction). by apply Hf. }
  intros _.
  apply keeps_bind; [apply keeps_sys|]. intros _.
  eapply yields_bind; [apply yields_get_fs|]. intros f' Hf'.
  apply keeps_put_fs. intros p Hp.
  rewrite lookup_insert_ne by (intros ->; contradiction). by apply Hf'.
Qed.

Lemma keeps_rasterize (pdf_path : path) (dpi : Z) :
  silent (Rasterized pdf_path dpi) -> keeps Inv (rasterize E pdf_path dpi).
Proof.
  intros Hp. unfold rasterize. apply keeps_bind; [by apply keeps_emit|]. intros _.
  eapply yields_bind; [apply yields_get_fs|]. intros f _.
  destruct (f !! pdf_path); [by apply yields_liftM|apply yields_raise].
Qed.

Lemma keeps_ocr_pages (pdf_path : path) (dpi : Z) (images : list image) :
  (forall i, silent (Recognized pdf_path i)) ->
  forall (i : nat) (writer : list pdf_page),
    keeps Inv (ocr_pages E pdf_path images dpi i writer).
Proof.
  intros Hp. induction images as [|im rest IH]; intros i writer; cbn [ocr_pages].
  - by apply yields_ret.
  - apply keeps_bind; [by apply keeps_emit|]. intros _.
    apply keeps_bind; [by apply yields_liftM|]. intros pg. apply IH.
Qed.

Lemma keeps_ocr_pdf (pdf_path output_path : path) (dpi : Z) :
  silent (Rasterized pdf_path dpi) -> (forall i, silent (Recognized pdf_path i)) ->
  ~ protected output_path ->
  keeps Inv (ocr_pdf E pdf_path output_path dpi).
Proof.
  intros Hr Hp Hout. unfold ocr_pdf.
  repeat (apply keeps_bind; [apply keeps_require|]; intros _).
  apply keeps_bind; [apply keeps_import|]. intros _.
  apply keeps_bind; [by apply keeps_rasterize|]. intros images.
  apply keeps_bind; [by apply keeps_ocr_pages|]. intros pages.
  by apply keeps_write_pdf.
Qed.

Lemma keeps_on_failure (pdf : path) (tmp : option path)
    (errors : list (path * string)) (e : string) :
  (forall t, tmp = Some t -> ~ protected t) -> keeps Inv (on_failure E pdf tmp errors e).
Proof.
  intros Htmp. unfold on_failure.
  apply keeps_bind; [apply keeps_print|]. intros _.
  apply keeps_bind; [|intros _; by apply yields_ret].
  destruct tmp as [t|]; [|by apply yields_ret].
  apply keeps_bind; [apply keeps_os_path_exists|]. intros [|].
  - apply keeps_os_unlink. by apply Htmp.
  - by apply yields_ret.
Qed.

Lemma keeps_report_errors (errors : list (path * string)) :
  keeps Inv (report_errors errors).
Proof.
  induction errors as [|[pdf msg] rest IH]; cbn [report_errors].
  - by apply yields_ret.
  - apply keeps_bind; [apply keeps_print|]. intros _. apply IH.
Qed.

End Frame.

(** ** A file that is left alone *)

Section Untouched.

Variable E : Env.
Variables (q : path) (bytes : file) (log : list event).

Local Abbreviation Inv := (untouched q bytes log).

Lemma untouched_lookup (s : state) : Inv s -> fs s !! q = Some bytes.
Proof. intros [Hq _]. rewrite Hq by done. apply lookup_singleton_eq. Qed.

Lemma print_is_silent (m : message) : ~ touches q (Printed m).
Proof. by intros []. Qed.

Lemma silent_other (p : path) :
  p <> q -> (forall dpi, ~ touches q (Rasterized p dpi))
            /\ (forall i, ~ touches q (Recognized p i)).
Proof. intros Hp. split; intros ? Ht; by apply Hp. Qed.

Lemma yields_mkstemp (dir suffix : string) :
  yields Inv (mkstemp E dir suffix) (fun tmp => tmp <> q).
Proof.
  unfold mkstemp. eapply yields_bind; [apply keeps_sys|]. intros _ _ s Hs.
  pose proof (untouched_lookup s Hs) as Hq.
  destruct (fs s !! (dir, mkstemp_name E s dir +:+ suffix)) eqn:Htmp;
    [by apply yields_raise|].
  assert (Hne : (dir, mkstemp_name E s dir +:+ suffix) <> q) by (intros Heq; congruence).
  eapply (yields_bind (I := Inv)); [| |exact Hs].
  - apply keeps_put_fs. intros p ->. rewrite lookup_insert_ne by done.
    rewrite Hq. symmetry. apply lookup_singleton_eq.
  - intros _ _. by apply yields_ret.
Qed.

Lemma keeps_ocr_one (pdf : path) (output_dir : option string) (dpi : Z)
    (i n : nat) (errors : list (path * string)) :
  pdf <> q -> parent pdf = parent q ->
  keeps Inv (ocr_one E pdf output_dir dpi i n errors).
Proof.
  intros Hp Hdir. destruct (silent_other pdf Hp) as [Hr Ho]. unfold ocr_one.
  apply keeps_bind; [apply keeps_print, print_is_silent|]. intros _.
  destruct output_dir as [d|].
  - assert (Hdest : (d, name pdf) <> q).
    { intros Heq. apply Hp. rewrite <- Heq in Hdir |- *.
      destruct pdf as [pd pn]. cbn in *. by rewrite Hdir. }
    apply yields_try_except.
    + apply keeps_bind; [by apply keeps_ocr_pdf|]. intros _.
      apply keeps_bind; [apply keeps_print, print_is_silent|]. intros _. by apply yields_ret.
    + intros msg. apply keeps_on_failure; [apply print_is_silent|done].
  - eapply yields_bind; [apply yields_attempt, yields_mkstemp|].
    intros [msg|tmp] Htmp.
    + apply keeps_on_failure; [apply print_is_silent|done].
    + apply yields_try_except.
      * apply keeps_bind; [apply keeps_sys|]. intros _.
        apply keeps_bind; [by apply keeps_ocr_pdf|]. intros _.
        apply keeps_bind; [by apply keeps_os_replace|]. intros _.
        apply keeps_bind; [apply keeps_print, print_is_silent|]. intros _. by apply yields_ret.
      * intros msg. apply keeps_on_failure; [apply print_is_silent|]. by intros t [= <-].
Qed.

Lemma keeps_ocr_files (output_dir : option string) (dpi : Z) (n : nat)
    (needs_ocr : list path) :
  Forall (fun pdf => pdf <> q /\ parent pdf = parent q) needs_ocr ->
  forall (i : nat) (errors : list (path * string)),
    keeps Inv (ocr_files E needs_ocr output_dir dpi i n errors).
Proof.
  induction 1 as [|pdf rest [Hp Hdir] _ IH]; intros i errors; cbn [ocr_files].
  - by apply yields_ret.
  - apply keeps_bind; [by apply keeps_ocr_one|]. intros errors'. apply IH.
Qed.

Hypothesis Htext : has_text_layer E bytes.

Lemma verdict_untouched (s : state) :
  Inv s -> verdict E (fs s) q default_min_chars = Ok true.
Proof.
  intros Hq%untouched_lookup. destruct Htext as (_ & pages & Hopen & Hhit).
  unfold verdict, view. by rewrite Hq, Hopen.
Qed.

Lemma yields_has_extractable_text (pdf : path) :
  yields Inv (has_extractable_text E pdf default_min_chars)
    (fun found => pdf = q -> found = true).
Proof.
  intros s Hs. destruct Htext as (Himp & _).
  rewrite has_extractable_text_eval by done.
  pose proof (verdict_untouched s Hs) as Hq.
  destruct (verdict E (fs s) pdf default_min_chars) as [b|e] eqn:Hv; cbn [fst snd].
  - split; [done|]. intros a [= <-] ->. congruence.
  - split; [apply frame_emit; [apply print_is_silent|done]|].
    intros a [= <-] ->. congruence.
Qed.

Lemma yields_scan_files (pdf_files : list path) :
  Forall (fun pdf => parent pdf = parent q) pdf_files ->
  forall (already_ok needs_ocr : list path) (errors : list (path * string)),
    Forall (fun pdf => pdf <> q /\ parent pdf = parent q) needs_ocr ->
    yields Inv (scan_files E pdf_files already_ok needs_ocr errors)
      (fun lists => Forall (fun pdf => pdf <> q /\ parent pdf = parent q) (snd (fst lists))).
Proof.
  induction 1 as [|pdf rest Hdir _ IH]; intros ok needs errors Hneeds; cbn [scan_files].
  - by apply yields_ret.
  - eapply (yields_bind _ _
      (fun lists => Forall (fun pdf => pdf <> q /\ parent pdf = parent q) (snd (fst lists)))).
    + apply yields_try_except.
      * eapply yields_bind; [apply yields_has_extractable_text|].
        intros [|] Hfound.
        -- eapply yields_bind; [apply keeps_print, print_is_silent|]. intros _ _.
           apply (yields_ret (ok ++ [pdf], needs, errors)). exact Hneeds.
        -- eapply yields_bind; [apply keeps_print, print_is_silent|]. intros _ _.
           apply (yields_ret (ok, needs ++ [pdf], errors)). cbn [fst snd].
           apply Forall_app. split; [done|]. constructor; [|done].
           split; [|done]. intros Hq. by specialize (Hfound Hq).
      * intros msg. eapply yields_bind; [apply keeps_print, print_is_silent|]. intros _ _.
        apply (yields_ret (ok, needs, errors ++ [(pdf, msg)])). exact Hneeds.
    + intros [[ok' needs'] errors'] Hneeds'. by apply IH.
Qed.

Lemma yields_glob_pdf (directory : string) :
  yields Inv (glob_pdf directory)
    (fun pdf_files => Forall (fun pdf => parent pdf = directory) pdf_files).
Proof.
  unfold glob_pdf. eapply yields_bind; [apply yields_get_fs|]. intros f _.
  apply yields_ret. apply Forall_forall. intros p Hp.
  rewrite merge_sort_Permutation in Hp.
  by apply list_elem_of_filter in Hp as [[? _] _].
Qed.

Lemma keeps_process_directory (output_dir : option string) (dry_run : bool) (dpi : Z) :
  keeps Inv (process_directory E (parent q) output_dir dry_run dpi).
Proof.
  pose proof print_is_silent as Hsilent.
  unfold process_directory.
  eapply yields_bind; [apply yields_glob_pdf|]. intros pdf_files Hfiles.
  destruct pdf_files as [|pdf0 rest0] eqn:Hlist; [by apply keeps_print|].
  rewrite <- Hlist in *. clear Hlist.
  apply keeps_bind; [by apply keeps_print|]. intros _.
  eapply yields_bind; [by apply yields_scan_files|].
  intros [[already_ok needs_ocr] errors] Hneeds. cbn [fst snd] in Hneeds.
  apply keeps_bind; [by apply keeps_print|]. intros _.
  destruct dry_run; [by apply keeps_print|].
  destruct needs_ocr as [|pdf1 rest1] eqn:Hlist; [by apply keeps_print|].
  rewrite <- Hlist in *. clear Hlist.
  apply keeps_bind.
  { destruct output_dir; [apply keeps_sys|by apply yields_ret]. }
  intros _.
  apply keeps_bind; [by apply keeps_ocr_files|]. intros errors'.
  destruct errors'; [by apply keeps_print|].
  apply keeps_bind; [by apply keeps_print|]. intros _. by apply keeps_report_errors.
Qed.

End Untouched.

Lemma has_extractable_text_true_inv (E : Env) (pdf : path) (min_chars : Z) (s s' : state) :
  has_extractable_text E pdf min_chars s = (Ret true, s') ->
  s' = s /\ importable E "pdfplumber" = true
  /\ exists bytes pages,
       fs s !! pdf = Some bytes
       /\ pdfplumber_open E bytes = Ok pages
       /\ first_hit pages min_chars = Ok true.
Proof.
  destruct (importable E "pdfplumber") eqn:Himp.
  - rewrite has_extractable_text_eval by done. unfold verdict, view.
    destruct (fs s !! pdf) as [bytes|]; [|done].
    destruct (pdfplumber_open E bytes) as [pages|e] eqn:Hopen; [|done].
    destruct (first_hit pages min_chars) as [b|e] eqn:Hhit; [|done].
    intros [= -> <-]. split; [done|]. split; [done|]. by exists bytes, pages.
  - destruct (has_extractable_text_missing E pdf min_chars s Himp) as [msg ->]. done.
Qed.

Lemma untouched_start (q : path) (bytes : file) (s : state) :
  fs s !! q = Some bytes -> untouched q bytes (trace s) s.
Proof.
  intros Hq. split.
  - intros p ->. by rewrite lookup_singleton_eq.
  - exists []. by rewrite app_nil_r.
Qed.

Lemma untouched_elim (q : path) (bytes : file) (log : list event) (s : state) :
  untouched q bytes log s ->
  fs s !! q = Some bytes /\ forall ev, ev ∈ trace s -> touches q ev -> ev ∈ log.
Proof.
  intros Hs. split; [by apply untouched_lookup in Hs|].
  destruct Hs as (_ & evs & -> & Hevs).
  intros ev [?|Hev]%elem_of_app Htouch; [done|].
  rewrite Forall_forall in Hevs. by destruct (Hevs ev Hev).
Qed.



(** ** In-place replacement *)

Section InPlace.

Variable E : Env.

Lemma print_inv (m : message) s r s' :
  print m s = (r, s') -> r = Ret tt /\ fs s' = fs s.
Proof. by intros [= <- <-]. Qed.

Lemma mkstemp_inv (dir suffix : string) s r s' :
  mkstemp E dir suffix s = (r, s') ->
  match r with
  | Ret tmp => fs s !! tmp = None /\ fs s' = <[tmp := Truncated]> (fs s)
  | Raise _ => fs s' = fs s
  end.
Proof.
  unfold mkstemp, bind, sys, get_fs, put_fs.
  destruct (os_fault E s (SysMkstemp dir)); cbn [raise ret]; [by intros [= <- <-]|].
  destruct (fs s !! _) eqn:Htmp; cbn [raise ret fs]; by intros [= <- <-].
Qed.

Lemma os_replace_inv (src dst : path) s r s' :
  os_replace E src dst s = (r, s') ->
  match r with
  | Ret _ => exists bytes, fs s !! src = Some bytes
                           /\ fs s' = <[dst := bytes]> (delete src (fs s))
  | Raise _ => s' = s
  end.
Proof.
  unfold os_replace, bind, sys, get_fs, put_fs.
  destruct (os_fault E s (SysReplace src dst)); cbn [raise ret]; [by intros [= <- <-]|].
  destruct (fs s !! src) as [bytes|] eqn:Hsrc; cbn [raise ret fs]; intros [= <- <-]; eauto.
Qed.

Lemma os_unlink_inv (p : path) s r s' :
  os_unlink E p s = (r, s') ->
  match r with
  | Ret _ => fs s' = delete p (fs s)
  | Raise _ => s' = s
  end.
Proof.
  unfold os_unlink, bind, sys, get_fs, put_fs.
  destruct (os_fault E s (SysUnlink p)); cbn [raise ret]; [by intros [= <- <-]|].
  destruct (fs s !! p) eqn:Hp; cbn [raise ret fs]; by intros [= <- <-].
Qed.

Lemma only_tmp_restore (tmp : path) (f0 : gmap path file) (s : state) :
  f0 !! tmp = None -> only_tmp tmp f0 s -> delete tmp (fs s) = f0.
Proof.
  intros Hfresh [Hs _]. apply map_eq. intros p.
  destruct (decide (p = tmp)) as [->|Hp].
  - by rewrite lookup_delete_eq.
  - rewrite lookup_delete_ne by done. by apply Hs.
Qed.

Lemma only_tmp_start (tmp : path) (f0 : gmap path file) (s : state) bytes :
  fs s = <[tmp := bytes]> f0 -> only_tmp tmp f0 s.
Proof.
  intros Hs. split.
  - intros p Hp. by rewrite Hs, lookup_insert_ne.
  - exists (trace s). split; [done|]. by apply Forall_true.
Qed.

Lemma only_tmp_ocr_pdf (tmp pdf : path) (dpi : Z) (f0 : gmap path file) (s : state) :
  only_tmp tmp f0 s -> only_tmp tmp f0 (snd (ocr_pdf E pdf tmp dpi s)).
Proof.
  intros Hs. eapply (keeps_ocr_pdf E (fun p => p <> tmp) (fun _ => True)); try done.
  by intros Hne.
Qed.

(** The statements of the [try] block once [tmp] is known. *)
Lemma in_place_body_inv (pdf tmp : path) (dpi : Z) (errors : list (path * string))
    (f0 : gmap path file) s r s' :
  only_tmp tmp f0 s ->
  (os_close E tmp ;;; ocr_pdf E pdf tmp dpi ;;; os_replace E tmp pdf ;;;
   print MsgDone ;;; ret errors) s = (r, s') ->
  match r with
  | Ret errors' =>
      errors' = errors
      /\ exists pages, fs s' = <[pdf := Composite pages]>
                               (delete tmp (<[tmp := Composite pages]> (fs s)))
  | Raise _ => only_tmp tmp f0 s'
  end.
Proof.
  intros Hs H.
  apply bind_inv in H as [(? & ? & [-> _]%sys_inv & H)|(e & [-> _]%sys_inv & ->)]; [|done].
  pose proof (only_tmp_ocr_pdf tmp pdf dpi f0 s Hs) as Hs3.
  apply bind_inv in H as [([] & s3 & Hocr & H)|(e & Hocr & ->)];
    rewrite Hocr in Hs3; cbn [snd] in Hs3; [|done].
  apply ocr_pdf_inv in Hocr as (bytes & images & pages & _ & _ & _ & Hfs3).
  apply bind_inv in H as [(? & s4 & Hrep & H)|(e & Hrep & ->)];
    apply os_replace_inv in Hrep; [|by subst].
  destruct Hrep as (moved & Hmoved & Hfs4).
  rewrite Hfs3, lookup_insert_eq in Hmoved. injection Hmoved as <-.
  apply bind_inv in H as [(? & s5 & [_ Hfs5]%print_inv & H)|(e & [? _]%print_inv & _)];
    [|done].
  injection H as <- <-. split; [done|]. exists pages. by rewrite Hfs5, Hfs4, Hfs3.
Qed.

(** The [except] clause when [tmp] names the temporary file. *)
Lemma cleanup_inv (pdf tmp : path) (errors : list (path * string)) (e : string)
    (f0 : gmap path file) s errors' s' :
  f0 !! tmp = None -> only_tmp tmp f0 s ->
  on_failure E pdf (Some tmp) errors e s = (Ret errors', s') ->
  errors' = errors ++ [(pdf, e)] /\ fs s' = f0.
Proof.
  intros Hfresh Hs H. unfold on_failure in H.
  apply bind_inv in H as [(? & s1 & [_ Hfs1]%print_inv & H)|(? & [? _]%print_inv & _)];
    [|done].
  assert (Hs1 : delete tmp (fs s1) = f0) by (rewrite Hfs1; by apply only_tmp_restore).
  apply bind_inv in H as [([] & s2 & Hclean & H)|(? & _ & ?)]; [|done].
  injection H as <- <-. split; [done|].
  unfold os_path_exists, bind, get_fs, ret in Hclean. cbv beta iota in Hclean.
  destruct (bool_decide_reflect (is_Some (fs s1 !! tmp))) as [Hthere|Hgone].
  - apply os_unlink_inv in Hclean. by rewrite Hclean.
  - injection Hclean as <-. rewrite <- Hs1. symmetry. apply delete_id.
    by apply eq_None_not_Some.
Qed.

Lemma ocr_one_in_place (pdf : path) (dpi : Z) (i n : nat)
    (errors errors' : list (path * string)) (s s' : state) :
  ocr_one E pdf None dpi i n errors s = (Ret errors', s') ->
  (errors' = errors /\ exists pages, fs s' = <[pdf := Composite pages]> (fs s))
  \/ (exists e, errors' = errors ++ [(pdf, e)] /\ fs s' = fs s).
Proof.
  unfold ocr_one. intros H.
  apply bind_inv in H as [(? & s0 & [_ Hfs0]%print_inv & H)|(? & [? _]%print_inv & _)];
    [|done].
  rewrite <- Hfs0.
  apply bind_inv in H as [(made & s1 & Hmade & H)|(? & _ & ?)]; [|done].
  unfold attempt in Hmade.
  destruct (mkstemp E (parent pdf) ".tmp.pdf" s0) as [[tmp|[msg|msg]] s1'] eqn:Hmk;
    apply mkstemp_inv in Hmk; [injection Hmade as <- <- ..|discriminate].
  - destruct Hmk as [Hfresh Hfs1].
    pose proof (only_tmp_start tmp (fs s0) s1' Truncated Hfs1) as Hs1.
    unfold try_except in H.
    destruct ((os_close E tmp ;;; ocr_pdf E pdf tmp dpi ;;; os_replace E tmp pdf ;;;
               print MsgDone ;;; ret errors) s1') as [[a|[msg|msg]] s2] eqn:Hbody;
      apply (in_place_body_inv pdf tmp dpi errors (fs s0) _ _ _ Hs1) in Hbody.
    + injection H as <- <-. destruct Hbody as (-> & pages & Hfs2). left.
      split; [done|]. exists pages.
      by rewrite Hfs2, Hfs1, !delete_insert_eq, delete_id.
    + right. exists msg. exact (cleanup_inv pdf tmp errors msg (fs s0) s2 errors' s' Hfresh Hbody H).
    + done.
  - right. exists msg. unfold on_failure in H.
    apply bind_inv in H as [(? & s2 & [_ Hfs2]%print_inv & H)|(? & [? _]%print_inv & _)];
      [|done].
    unfold bind, ret in H. injection H as <- <-. split; [done|]. by rewrite Hfs2.
Qed.


End InPlace.

(** Claim C5, at the input where the code departs from it.  pdfplumber is
    installed and pytesseract is not; the directory holds one scanned
    document and is processed in place.  The temporary file has been
    created when [ocr_pdf] calls [sys.exit] through [_require]; the
    [except Exception] clause does not catch [SystemExit], so the run
    ends with the empty temporary file still in the directory. *)
Theorem C5_temp_file_left_behind :
  fst (process_directory no_tesseract_env "docs" None false 300 one_scan)
  = Raise (SystemExit
      "Missing dependency: 'pytesseract'.  Install with:  pip install pytesseract")
  /\ fs one_scan !! ("docs", "tmpk3x9.tmp.pdf") = None
  /\ fs (snd (process_directory no_tesseract_env "docs" None false 300 one_scan))
       !! ("docs", "tmpk3x9.tmp.pdf") = Some Truncated
  /\ fs (snd (process_directory no_tesseract_env "docs" None false 300 one_scan))
       !! ("docs", "scan.pdf") = Some (Original 1).
Proof. repeat split; reflexivity. Qed.

(** When the recognition of a page fails instead, the clause runs and the
    directory is as it was. *)
Example recognition_failure_cleans_up :
  fst (process_directory failing_ocr_env "docs" None false 300 one_scan) = Ret tt
  /\ fs (snd (process_directory failing_ocr_env "docs" None false 300 one_scan))
     = fs one_scan
  /\ Printed (MsgFailed "tesseract timed out")
       ∈ trace (snd (process_directory failing_ocr_env "docs" None false 300 one_scan)).
Proof.
  split; [reflexivity|]. split; [vm_compute; reflexivity|].
  vm_compute. repeat (first [apply list_elem_of_here | apply list_elem_of_further]).
Qed.

(** The scenario of a five-page document whose second page cannot be
    recognized: the document is reported as failed, pages three to five
    are never looked at, and the directory is as it was. *)
Example second_page_fails :
  fst (process_directory five_page_env "docs" None false 300 one_scan) = Ret tt
  /\ fs (snd (process_directory five_page_env "docs" None false 300 one_scan))
     = fs one_scan
  /\ List.filter (fun ev => match ev with Printed (MsgFailed _) | Recognized _ _ => true
                                          | _ => false end)
       (trace (snd (process_directory five_page_env "docs" None false 300 one_scan)))
     = [Recognized ("docs", "scan.pdf") 0; Recognized ("docs", "scan.pdf") 1;
        Printed (MsgFailed "tesseract failed")].
Proof. repeat split; vm_compute; reflexivity. Qed.
(** * Further properties *)

(** ** The scan of the directory *)

Lemma glob_pdf_eval (directory : string) (s : state) :
  exists pdf_files,
    glob_pdf directory s = (Ret pdf_files, s)
    /\ (forall p, p ∈ pdf_files <->
          is_Some (fs s !! p) /\ parent p = directory /\ is_pdf_name (name p) = true).
Proof.
  eexists. split; [reflexivity|].
  intros p. rewrite merge_sort_Permutation, list_elem_of_filter, elem_of_elements,
    elem_of_dom. rewrite Is_true_true. tauto.
Qed.

Lemma scan_log_printed (E : Env) (f : gmap path file) (pdf_files : list path) :
  exists msgs, scan_log E f pdf_files = Printed <$> msgs.
Proof.
  induction pdf_files as [|pdf rest [msgs IH]]; [by exists []|].
  unfold scan_log in *. rewrite bind_cons, IH.
  destruct (verdict E f pdf default_min_chars) as [[|]|e].
  - by exists (MsgOk (name pdf) :: msgs).
  - by exists (MsgNeedsOcr (name pdf) :: msgs).
  - by exists (MsgWarn (name pdf) e :: MsgNeedsOcr (name pdf) :: msgs).
Qed.

Lemma filter_found_length (E : Env) (f : gmap path file) (pdf_files : list path) :
  (length (filter (fun p => found E f p = true) pdf_files)
   + length (filter (fun p => found E f p <> true) pdf_files))%nat = length pdf_files.
Proof.
  induction pdf_files as [|pdf rest IH]; [done|].
  rewrite !filter_cons. destruct (found E f pdf).
  - rewrite decide_True, decide_False by (done || by intros []). simpl. lia.
  - rewrite decide_False, decide_True by done. simpl. lia.
Qed.

Lemma dry_run_eval (E : Env) (directory : string) (output_dir : option string)
    (dpi : Z) (s : state) :
  exists r msgs,
    process_directory E directory output_dir true dpi s
      = (r, {| fs := fs s; trace := trace s ++ (Printed <$> msgs) |})
    /\ (forall e, r <> Raise (Exception e))
    /\ (importable E "pdfplumber" = true ->
        r = Ret tt /\ (last msgs = Some MsgDryRun \/ msgs = [MsgNoFiles])).
Proof.
  unfold process_directory. unfold bind at 1.
  destruct (glob_pdf_eval directory s) as (pdf_files & -> & _).
  destruct pdf_files as [|pdf rest].
  { exists (Ret tt), [MsgNoFiles]. split; [reflexivity|]. split; [intros e; discriminate|]. intros _. split; [reflexivity|]. by right. }
  unfold bind at 1. cbn [print emit]. unfold bind at 1.
  destruct (importable E "pdfplumber") eqn:Himp.
  - rewrite scan_files_eval by done. cbn [fs trace app].
    destruct (scan_log_printed E (fs s) (pdf :: rest)) as [msgs ->].
    cbn [bind print emit fst snd fs trace].
    eexists (Ret tt), (MsgScanning _ :: msgs ++ [MsgSummary _ _ _; MsgDryRun]).
    split; [|split; [intros e; discriminate|]].
    + unfold print, emit. cbn [fs trace]. rewrite fmap_cons, fmap_app.
      rewrite <- !app_assoc. reflexivity.
    + intros _. split; [done|]. left.
      match goal with |- last (?x :: ?l ++ [?a; ?b]) = _ =>
        change (x :: l ++ [a; b]) with ((x :: l) ++ [a] ++ [b]) end.
      rewrite !app_assoc. apply last_snoc.
  - destruct (scan_files_missing E pdf rest [] [] []
                {| fs := fs s; trace := trace s ++ [Printed (MsgScanning (length (pdf :: rest)))] |}
                Himp) as [msg ->].
    cbn [fs trace].
    exists (Raise (SystemExit msg)), [MsgScanning (length (pdf :: rest))].
    split; [done|]. split; [intros e; discriminate|]. done.
Qed.

(** Property X2.  A dry run changes no file and starts no rasterization or
    recognition: whatever the machine and the directory, all it adds to
    the trace are printed lines, it never ends in an [Exception], and with
    pdfplumber installed it returns normally, its last line being the
    dry-run notice unless the directory holds no PDF at all. *)
Theorem X2_dry_run_changes_nothing (E : Env) (directory : string)
    (output_dir : option string) (dpi : Z) (s : state) :
  let run := process_directory E directory output_dir true dpi s in
  fs (snd run) = fs s
  /\ (exists msgs, trace (snd run) = trace s ++ (Printed <$> msgs)
        /\ (importable E "pdfplumber" = true ->
            fst run = Ret tt
            /\ (last msgs = Some MsgDryRun \/ msgs = [MsgNoFiles])))
  /\ (forall e, fst run <> Raise (Exception e)).
Proof.
  intros run. subst run.
  destruct (dry_run_eval E directory output_dir dpi s) as (r & msgs & -> & Hr & Himp).
  cbn [fst snd fs trace]. split; [done|]. split; [|done]. by exists msgs.
Qed.

Lemma X2_dry_run_changes_nothing_witness :
  let run := process_directory sample_env "docs" None true 300 sample_state in
  fs (snd run) = fs sample_state
  /\ fst run = Ret tt
  /\ exists msgs, trace (snd run) = trace sample_state ++ (Printed <$> msgs)
                  /\ (last msgs = Some MsgDryRun \/ msgs = [MsgNoFiles]).
Proof.
  destruct (X2_dry_run_changes_nothing sample_env "docs" None 300 sample_state)
    as (Hfs & (msgs & Htrace & Hinstalled) & _).
  destruct (Hinstalled eq_refl) as [Hret Hlast].
  split; [exact Hfs|]. split; [exact Hret|]. exists msgs. split; [exact Htrace|exact Hlast].
Defined.

(** Property X3.  When pdfplumber is installed and the detector finds text in
    every PDF of the directory, a run that is not a dry run returns
    normally without changing any file and without rasterizing anything:
    it only prints, ending with the notice that there is nothing to do
    (or that there are no PDF files). *)
Theorem X3_nothing_to_do (E : Env) (directory : string) (output_dir : option string)
    (dpi : Z) (s : state) :
  importable E "pdfplumber" = true ->
  (forall p, is_Some (fs s !! p) -> parent p = directory ->
             is_pdf_name (name p) = true -> found E (fs s) p = true) ->
  exists msgs,
    process_directory E directory output_dir false dpi s
      = (Ret tt, {| fs := fs s; trace := trace s ++ (Printed <$> msgs) |})
    /\ (last msgs = Some MsgNothingToDo \/ msgs = [MsgNoFiles]).
Proof.
  intros Himp Hall. unfold process_directory. unfold bind at 1.
  destruct (glob_pdf_eval directory s) as (pdf_files & -> & Hfiles).
  destruct pdf_files as [|pdf rest].
  { exists [MsgNoFiles]. split; [reflexivity|]. by right. }
  set (pdf_files := pdf :: rest) in *.
  assert (Hneeds : filter (fun p => found E (fs s) p <> true) pdf_files = []).
  { destruct (filter _ pdf_files) as [|p l] eqn:Hf; [done|].
    assert (Hp : p ∈ filter (fun p => found E (fs s) p <> true) pdf_files)
      by (rewrite Hf; left).
    apply list_elem_of_filter in Hp as [Hnot Hp]. exfalso. apply Hnot.
    apply Hfiles in Hp as (? & ? & ?). by apply Hall. }
  unfold bind at 1. cbn [print emit]. unfold bind at 1.
  rewrite scan_files_eval by done. cbn [fs trace app]. rewrite Hneeds.
  destruct (scan_log_printed E (fs s) pdf_files) as [msgs ->].
  eexists (MsgScanning _ :: msgs ++ [MsgSummary _ _ _; MsgNothingToDo]).
  split.
  - unfold bind, print, emit. cbn [fs trace]. rewrite fmap_cons, fmap_app.
    rewrite <- !app_assoc. reflexivity.
  - left.
    match goal with |- last (?x :: ?l ++ [?a; ?b]) = _ =>
      change (x :: l ++ [a; b]) with ((x :: l) ++ [a] ++ [b]) end.
    rewrite !app_assoc. apply last_snoc.
Qed.

Lemma X3_nothing_to_do_witness :
  exists msgs,
    process_directory sample_env "docs" None false 300 one_text
      = (Ret tt, {| fs := fs one_text; trace := trace one_text ++ (Printed <$> msgs) |})
    /\ (last msgs = Some MsgNothingToDo \/ msgs = [MsgNoFiles]).
Proof.
  apply (X3_nothing_to_do sample_env "docs" None 300 one_text); [reflexivity|].
  intros p [bytes Hp] _ _. cbn [fs one_text] in Hp.
  apply lookup_singleton_Some in Hp as [<- _].
  vm_compute. reflexivity.
Defined.

(** Property X4.  With pdfplumber installed the scan loop files every document
    under exactly one of [already_ok] and [needs_ocr], keeping the order of
    the scan in both: the two counts add up to the total, [errors] stays
    empty, and no file is changed. *)
Theorem X4_scan_partitions (E : Env) (pdf_files : list path) (s : state) :
  importable E "pdfplumber" = true ->
  exists (already_ok needs_ocr : list path) (s' : state),
    scan_files E pdf_files [] [] [] s = (Ret (already_ok, needs_ocr, []), s')
    /\ fs s' = fs s
    /\ already_ok = filter (fun p => found E (fs s) p = true) pdf_files
    /\ needs_ocr = filter (fun p => found E (fs s) p <> true) pdf_files
    /\ (length already_ok + length needs_ocr)%nat = length pdf_files
    /\ (forall p, p ∈ pdf_files <-> p ∈ already_ok \/ p ∈ needs_ocr)
    /\ (forall p, ~ (p ∈ already_ok /\ p ∈ needs_ocr)).
Proof.
  intros Himp. do 3 eexists. split; [by apply scan_files_eval|]. cbn [app fs].
  split; [done|]. split; [done|]. split; [done|].
  split; [apply filter_found_length|]. split.
  - intros p. rewrite !list_elem_of_filter. split.
    + intros Hp. destruct (found E (fs s) p) eqn:Hf; [left|right]; by split.
    + by intros [[_ ?]|[_ ?]].
  - intros p. rewrite !list_elem_of_filter. tauto.
Qed.

Lemma X4_scan_partitions_witness :
  exists (already_ok needs_ocr : list path) (s' : state),
    scan_files sample_env
      [("docs", "broken.pdf"); ("docs", "scan.pdf"); ("docs", "text.pdf")] [] [] []
      sample_state = (Ret (already_ok, needs_ocr, []), s')
    /\ already_ok = [("docs", "text.pdf")]
    /\ needs_ocr = [("docs", "broken.pdf"); ("docs", "scan.pdf")].
Proof.
  destruct (X4_scan_partitions sample_env
              [("docs", "broken.pdf"); ("docs", "scan.pdf"); ("docs", "text.pdf")]
              sample_state eq_refl)
    as (ok & needs & s' & Hrun & _ & Hok & Hneeds & _).
  exists ok, needs, s'. split; [exact Hrun|]. split.
  - rewrite Hok. reflexivity.
  - rewrite Hneeds. reflexivity.
Defined.

(** ** What one call of [ocr_pdf] can do *)

Section Outcomes.

Variable E : Env.

Lemma required_all_or_missing :
  (forall m, m ∈ required_modules -> importable E m = true)
  \/ (exists m, m ∈ required_modules /\ importable E m = false).
Proof.
  destruct (decide (Forall (fun m => importable E m = true) required_modules)) as [H|H].
  - left. by apply Forall_forall.
  - right. apply not_Forall_Exists in H; [|apply _].
    apply Exists_exists in H as (m & Hm & Hno). exists m. split; [done|].
    by apply not_true_is_false.
Qed.

Lemma ocr_pdf_checked (pdf_path output_path : path) (dpi : Z) (s : state) :
  (forall m, m ∈ required_modules -> importable E m = true) ->
  ocr_pdf E pdf_path output_path dpi s =
  (import E "pypdf" ;;;
   images <- rasterize E pdf_path dpi ;;
   pages <- ocr_pages E pdf_path images dpi 0 [] ;;
   write_pdf E output_path pages) s.
Proof.
  intros H. unfold ocr_pdf, _require.
  rewrite !H by (unfold required_modules; set_solver). reflexivity.
Qed.

Lemma ocr_pdf_missing (pdf_path output_path : path) (dpi : Z) (s : state) :
  (exists m, m ∈ required_modules /\ importable E m = false) ->
  exists msg, ocr_pdf E pdf_path output_path dpi s = (Raise (SystemExit msg), s).
Proof.
  intros (m & Hm & Hno). unfold ocr_pdf, _require.
  repeat match goal with
  | |- context [bind (if importable E ?x then _ else _)] =>
      destruct (importable E x) eqn:?; [|by eexists]
  end.
  exfalso. unfold required_modules in Hm.
  repeat (apply elem_of_cons in Hm as [->|Hm]; [congruence|]).
  by apply elem_of_nil in Hm.
Qed.

Lemma overlay_canvas_no_exit (im : image) (dpi : Z) (lines : list str) (msg : string) :
  overlay_canvas im dpi lines <> Raise (SystemExit msg).
Proof.
  unfold overlay_canvas, true_div. destruct (size im) as [img_w img_h].
  destruct (decide (dpi = 0%Z)); [done|].
  repeat (destruct (decide (_ /\ _)); cbn [bindR]; [|done]). done.
Qed.

Lemma ocr_page_no_exit (im : image) (dpi : Z) (msg : string) :
  ocr_page E im dpi <> Raise (SystemExit msg).
Proof.
  unfold ocr_page, text_layer, save, composite, Image_save_pdf.
  destruct (image_to_string E im) as [raw|]; [|done]. cbn [lift bindR].
  pose proof (overlay_canvas_no_exit im dpi (display_lines E raw) msg) as Hc.
  destruct (overlay_canvas im dpi (display_lines E raw)) as [c|e];
    [|cbn [bindR]; intros [= ->]; by apply Hc].
  cbn [bindR]. destruct (canvas_save E c) as [packet|]; [|done]. cbn [lift bindR].
  destruct (image_save E im dpi) as [box|]; [|done]. cbn [lift bindR first_page].
  by destruct packet.
Qed.

(** The loop over the images: the pages are recognized in order, and the
    loop stops at the first one that fails. *)
Lemma ocr_pages_cases (pdf_path : path) (dpi : Z) (images : list image) :
  forall (i : nat) (writer : list pdf_page) s r s',
    ocr_pages E pdf_path images dpi i writer s = (r, s') ->
    fs s' = fs s
    /\ exists k, trace s' = trace s ++ (Recognized pdf_path <$> seq i k)
       /\ match r with
          | Ret pages => k = length images /\ length pages = (length writer + k)%nat
          | Raise e =>
              exists done im rest msg,
                images = done ++ im :: rest /\ k = S (length done)
                /\ Forall (fun im => exists pg, ocr_page E im dpi = Ret pg) done
                /\ ocr_page E im dpi = Raise e /\ e = Exception msg
          end.
Proof.
  induction images as [|im rest IH]; intros i writer s r s'.
  - intros [= <- <-]. split; [done|]. exists 0%nat. cbn. by rewrite !app_nil_r, Nat.add_0_r.
  - cbn [ocr_pages]. unfold bind at 1. cbn [emit]. unfold bind at 1. unfold liftM at 1.
    destruct (ocr_page E im dpi) as [pg|e] eqn:Hpg.
    + intros H. apply IH in H as (Hfs & k & Htr & Hr). cbn [fs trace] in *.
      split; [done|]. exists (S k). split.
      { rewrite Htr. cbn [seq fmap list_fmap]. by rewrite <- app_assoc. }
      destruct r as [pages|e].
      * destruct Hr as [-> Hlen]. split; [done|]. rewrite Hlen, length_app. cbn. lia.
      * destruct Hr as (done & im' & rest' & msg & -> & -> & Hdone & Him & ->).
        exists (im :: done), im', rest', msg. repeat split; try done.
        constructor; [by eexists|done].
    + intros [= <- <-]. cbn [fs trace]. split; [done|]. exists 1%nat. split; [done|].
      destruct e as [msg|msg]; [|by apply ocr_page_no_exit in Hpg].
      exists [], im, rest, msg. repeat split; try done.
Qed.

Lemma write_pdf_cases (output_path : path) (pages : list pdf_page) s r s' :
  write_pdf E output_path pages s = (r, s') ->
  trace s' = trace s
  /\ match r with
     | Ret _ => fs s' = <[output_path := Composite pages]> (fs s)
     | Raise (Exception _) => fs s' = fs s \/ fs s' = <[output_path := Truncated]> (fs s)
     | Raise (SystemExit _) => False
     end.
Proof.
  unfold write_pdf. intros H.
  apply bind_inv in H as [(? & ? & [-> _]%sys_inv & H)|(e & [Hs Hr]%sys_inv & Hre)].
  2:{ subst. split; [done|]. destruct Hr as [|[msg [= ->]]]; [done|]. by left. }
  unfold bind at 1 in H. cbn [get_fs] in H. unfold bind at 1 in H. cbn [put_fs] in H.
  apply bind_inv in H as [(? & ? & [-> _]%sys_inv & H)|(e & [Hs Hr]%sys_inv & Hre)].
  2:{ subst. split; [done|]. destruct Hr as [|[msg [= ->]]]; [done|]. by right. }
  unfold bind, get_fs, put_fs in H. cbn [fs trace] in H.
  injection H as <- <-. cbn [fs trace]. by rewrite insert_insert_eq.
Qed.

(** Every way in which [ocr_pdf] can end. *)
Lemma ocr_pdf_cases (pdf_path output_path : path) (dpi : Z) s r s' :
  ocr_pdf E pdf_path output_path dpi s = (r, s') ->
  (exists msg m, r = Raise (SystemExit msg) /\ s' = s
                 /\ m ∈ required_modules /\ importable E m = false)
  \/ ((forall m, m ∈ required_modules -> importable E m = true)
      /\ ((exists msg, r = Raise (Exception msg) /\ s' = s /\ importable E "pypdf" = false)
          \/ (importable E "pypdf" = true
              /\ exists k,
                   trace s' = trace s ++ Rasterized pdf_path dpi
                                           :: (Recognized pdf_path <$> seq 0 k)
                   /\ match r with
                      | Ret _ => exists pages, length pages = k
                                   /\ fs s' = <[output_path := Composite pages]> (fs s)
                      | Raise (Exception _) =>
                          fs s' = fs s \/ fs s' = <[output_path := Truncated]> (fs s)
                      | Raise (SystemExit _) => False
                      end))).
Proof.
  intros H. destruct required_all_or_missing as [Hall|Hmiss].
  2:{ left. destruct (ocr_pdf_missing pdf_path output_path dpi s Hmiss) as [msg Hrun].
      rewrite Hrun in H. injection H as <- <-. destruct Hmiss as (m & ? & ?).
      by exists msg, m. }
  right. split; [done|]. rewrite ocr_pdf_checked in H by done.
  apply bind_inv in H as [(? & ? & Himp & H)|(? & Himp & ->)].
  2:{ left. unfold import in Himp. destruct (importable E "pypdf"); [done|].
      injection Himp as <- <-. by eexists. }
  right. split.
  { unfold import in Himp. by destruct (importable E "pypdf"). }
  apply import_inv in Himp as [-> _].
  apply bind_inv in H as [(images & s1 & [-> _]%rasterize_inv & H)|(e & Hras & ->)].
  2:{ exists 0%nat. pose proof Hras as [-> _]%rasterize_inv. cbn [fs trace fmap list_fmap seq].
      split; [done|]. unfold rasterize, bind, emit, get_fs, liftM, raise in Hras.
      cbn [fs trace] in Hras. destruct (fs s !! pdf_path) as [bytes|].
      - destruct (convert_from_path E bytes dpi); simplify_eq/=. by left.
      - simplify_eq/=. by left. }
  apply bind_inv in H as [(pages & s2 & Hpages & H)|(e & Hpages & ->)].
  - apply ocr_pages_cases in Hpages as (Hfs & k & Htr & -> & Hlen).
    apply write_pdf_cases in H as [Htr' H]. cbn [fs trace] in *.
    exists (length images). split.
    { rewrite Htr', Htr, <- app_assoc. done. }
    destruct r as [[]|[msg|msg]]; [|by rewrite Hfs in H|done].
    exists pages. by rewrite Hlen, <- Hfs.
  - apply ocr_pages_cases in Hpages as (Hfs & k & Htr & Hr). cbn [fs trace] in *.
    exists k. split; [by rewrite Htr, <- app_assoc|].
    destruct Hr as (? & ? & ? & msg & _ & _ & _ & _ & ->). by left.
Qed.

End Outcomes.

(** Property X5.  [ocr_pdf] checks its dependencies before it does anything
    else.  If one of the six modules it requires is missing, the call ends
    the program with [SystemExit] and has done nothing: nothing rasterized,
    nothing written.  This is the only way [ocr_pdf] exits the program.
    [pypdf] is not among the required modules: when it alone is missing the
    call fails with an ordinary exception, again before doing anything. *)
Theorem X5_dependencies_checked_first (E : Env) (pdf_path output_path : path) (dpi : Z)
    (s : state) :
  ((exists m, m ∈ required_modules /\ importable E m = false) ->
     exists msg, ocr_pdf E pdf_path output_path dpi s = (Raise (SystemExit msg), s))
  /\ (forall msg s', ocr_pdf E pdf_path output_path dpi s = (Raise (SystemExit msg), s') ->
        s' = s /\ exists m, m ∈ required_modules /\ importable E m = false)
  /\ ((forall m, m ∈ required_modules -> importable E m = true) ->
      importable E "pypdf" = false ->
      ocr_pdf E pdf_path output_path dpi s
        = (Raise (Exception "No module named 'pypdf'"), s)).
Proof.
  split; [apply ocr_pdf_missing|]. split.
  - intros msg s' H.
    apply ocr_pdf_cases in H as [(? & m & _ & -> & ? & ?)|(_ & [(? & [=] & _)|(_ & k & _ & [])])].
    split; [done|]. by exists m.
  - intros Hall Hpypdf. rewrite ocr_pdf_checked by done.
    unfold bind, import. by rewrite Hpypdf.
Qed.

Lemma X5_dependencies_checked_first_witness :
  exists msg,
    ocr_pdf no_tesseract_env ("docs", "scan.pdf") ("out", "scan.pdf") 300 one_scan
      = (Raise (SystemExit msg), one_scan).
Proof.
  apply (X5_dependencies_checked_first no_tesseract_env).
  exists "pytesseract". split; [|reflexivity]. unfold required_modules. set_solver.
Defined.

(** Property X6.  Whatever happens, [ocr_pdf] changes no file other than its
    output file, and the output file is written last: a call that returns
    leaves a complete document there, and a call that fails leaves the
    files as they were or, when the failure comes while writing, the output
    file empty or partly written.  In particular the source document is
    only read, unless it is itself the output file. *)
Theorem X6_only_the_output_changes (E : Env) (pdf_path output_path : path) (dpi : Z)
    (s : state) :
  let r := fst (ocr_pdf E pdf_path output_path dpi s) in
  let s' := snd (ocr_pdf E pdf_path output_path dpi s) in
  match r with
  | Ret _ => exists pages, fs s' = <[output_path := Composite pages]> (fs s)
  | Raise _ => fs s' = fs s \/ fs s' = <[output_path := Truncated]> (fs s)
  end
  /\ forall p, p <> output_path -> fs s' !! p = fs s !! p.
Proof.
  intros r s'. subst r s'.
  destruct (ocr_pdf E pdf_path output_path dpi s) as [r s'] eqn:H. cbn [fst snd].
  assert (Hcases : match r with
    | Ret _ => exists pages, fs s' = <[output_path := Composite pages]> (fs s)
    | Raise _ => fs s' = fs s \/ fs s' = <[output_path := Truncated]> (fs s)
    end).
  { apply ocr_pdf_cases in H
      as [(? & ? & -> & -> & _)|(_ & [(? & -> & -> & _)|(_ & k & _ & Hr)])];
      [by left|by left|].
    destruct r as [[]|[msg|msg]]; [|done|done].
    destruct Hr as (pages & _ & ?). by exists pages. }
  split; [done|]. intros p Hp.
  destruct r as [[]|e].
  - destruct Hcases as [pages ->]. by rewrite lookup_insert_ne.
  - destruct Hcases as [->| ->]; [done|]. by rewrite lookup_insert_ne.
Qed.

(** Property X7.  With every module installed and the document rasterized
    into [images], [ocr_pdf] rasterizes once, at the requested resolution,
    and then recognizes the pages in order starting from the first.  Either
    every page is recognized, or the call fails with the error of the first
    page that cannot be processed: no later page is looked at and no file
    is touched. *)
Theorem X7_stops_at_first_bad_page (E : Env) (pdf_path output_path : path) (dpi : Z)
    (s : state) (bytes : file) (images : list image) :
  (forall m, m ∈ required_modules -> importable E m = true) ->
  importable E "pypdf" = true ->
  fs s !! pdf_path = Some bytes ->
  convert_from_path E bytes dpi = Ok images ->
  let r := fst (ocr_pdf E pdf_path output_path dpi s) in
  let s' := snd (ocr_pdf E pdf_path output_path dpi s) in
  (Forall (fun im => exists pg, ocr_page E im dpi = Ret pg) images
   /\ trace s' = trace s ++ Rasterized pdf_path dpi
                           :: (Recognized pdf_path <$> seq 0 (length images)))
  \/ (exists done im rest e,
        images = done ++ im :: rest
        /\ Forall (fun im => exists pg, ocr_page E im dpi = Ret pg) done
        /\ ocr_page E im dpi = Raise (Exception e)
        /\ r = Raise (Exception e)
        /\ trace s' = trace s ++ Rasterized pdf_path dpi
                                :: (Recognized pdf_path <$> seq 0 (S (length done)))
        /\ fs s' = fs s).
Proof.
  intros Hall Hpypdf Hbytes Himages r s'. subst r s'.
  destruct (ocr_pdf E pdf_path output_path dpi s) as [r s'] eqn:Hrun. cbn [fst snd].
  rewrite ocr_pdf_checked in Hrun by done. unfold bind at 1, import in Hrun.
  rewrite Hpypdf in Hrun. cbn [ret] in Hrun.
  unfold bind at 1 in Hrun.
  unfold rasterize at 1, bind at 1, emit at 1, bind at 1, get_fs at 1 in Hrun.
  cbn [fs trace] in Hrun. rewrite Hbytes, Himages in Hrun. cbn [liftM lift] in Hrun.
  unfold bind at 1 in Hrun.
  set (s1 := {| fs := fs s; trace := trace s ++ [Rasterized pdf_path dpi] |}) in Hrun.
  destruct (ocr_pages E pdf_path images dpi 0 [] s1) as [[pages|e] s2] eqn:Hpages.
  - left. pose proof Hpages as (_ & k & Htr & -> & _)%ocr_pages_cases.
    apply ocr_pages_inv in Hpages as (_ & added & _ & Hadded). split.
    + clear -Hadded. induction Hadded; constructor; eauto.
    + apply write_pdf_cases in Hrun as [-> _]. etrans; [exact Htr|]. subst s1. cbn [trace].
      by rewrite <- app_assoc.
  - right. injection Hrun as <- <-. apply ocr_pages_cases in Hpages
      as (Hfs & k & Htr & done & im & rest & msg & -> & -> & Hdone & Him & ->).
    exists done, im, rest, msg. repeat split; try done.
    etrans; [exact Htr|]. subst s1. cbn [trace]. by rewrite <- app_assoc.
Qed.

Lemma X7_stops_at_first_bad_page_witness :
  let run := ocr_pdf five_page_env ("docs", "scan.pdf") ("out", "scan.pdf") 300 one_scan in
  fst run = Raise (Exception "tesseract failed")
  /\ trace (snd run) = [Rasterized ("docs", "scan.pdf") 300;
                        Recognized ("docs", "scan.pdf") 0; Recognized ("docs", "scan.pdf") 1]
  /\ fs (snd run) = fs one_scan.
Proof.
  destruct (X7_stops_at_first_bad_page five_page_env ("docs", "scan.pdf") ("out", "scan.pdf")
              300 one_scan (Original 1)
              ((fun n => {| size := (2550, 3300)%Z; pixels := n |}) <$> [1; 2; 3; 4; 5]%N))
    as [[Hall _]|(done & im & rest & e & _ & _ & _ & _ & _ & Hfs)];
    [reflexivity|reflexivity|reflexivity|reflexivity| |].
  - exfalso. apply Forall_cons in Hall as [_ Hall]. apply Forall_cons in Hall as [[pg Hpg] _].
    vm_compute in Hpg. discriminate.
  - split; [vm_compute; reflexivity|]. split; [vm_compute; reflexivity|exact Hfs].
Defined.

(** ** The page built for one image *)

Lemma slot_texts (c : canvas) (pt_h : Qc) (l : list (nat * str)) :
  (op_text <$> omap (slot c pt_h) l) `sublist_of` (snd <$> l).
Proof.
  induction l as [|il l IH]; [done|]. rewrite omap_cons_eq. unfold slot at 1.
  destruct (truthy (strip (snd il))); cbn [fmap list_fmap op_text].
  - by apply sublist_skip.
  - by apply sublist_cons.
Qed.

Lemma imap_pair_snd {A} (l : list A) : forall j, snd <$> imap (fun i => pair (j + i)%nat) l = l.
Proof.
  induction l as [|x l IH]; intros j; [done|]. cbn. f_equal.
  rewrite <- (IH (S j)) at 2. f_equal. apply imap_ext. intros i y _. cbn. f_equal. lia.
Qed.

(** Property X8.  What the program asks of ReportLab for the text layer
    of a page that has been built: every [drawString] call is made on a
    canvas whose fill colour is fully transparent (alpha 0) and whose font
    is Helvetica 8, at 8 points from the left edge, with a line that is
    not blank; the lines passed are, in their order, lines of the shaped
    OCR text of the image.  The page shows the image first and, on top of
    it, what ReportLab wrote for that canvas. *)
Theorem X8_canvas_calls_invisible (E : Env) (im : image) (dpi : Z) (pg : pdf_page) :
  ocr_page E im dpi = Ret pg ->
  exists raw c text_page rest,
    image_to_string E im = Ok raw
    /\ overlay_canvas im dpi (display_lines E raw) = Ret c
    /\ canvas_save E c = Ok (text_page :: rest)
    /\ contents pg = DrawImage im :: contents text_page
    /\ Forall (fun t => op_alpha t = 0%Z /\ op_font t = ("Helvetica", 8%Z)
                        /\ op_x t = #8 /\ truthy (strip (op_text t)) = true) (code c)
    /\ (op_text <$> code c) `sublist_of` display_lines E raw.
Proof.
  intros (raw & c & text_page & rest & box & Hraw & Hc & Hsave & _ & ->)%ocr_page_ret_inv.
  exists raw, c, text_page, rest. do 4 (split; [done|]).
  apply overlay_canvas_inv in Hc as (pt_w & pt_h & _ & _ & ->).
  rewrite fresh_canvas_code by done. split.
  - apply Forall_forall. intros t (i & _ & _ & Htext & Hx & _ & Halpha & Hfont)%draws_lookup.
    done.
  - unfold draws. etrans; [apply slot_texts|]. rewrite fmap_take.
    change (imap pair (display_lines E raw))
      with (imap (fun i => pair (0 + i)%nat) (display_lines E raw)).
    rewrite imap_pair_snd. apply sublist_take.
Qed.

Lemma X8_canvas_calls_invisible_witness :
  exists pg raw c,
    ocr_page sample_env letter_scan 300 = Ret pg
    /\ image_to_string sample_env letter_scan = Ok raw
    /\ overlay_canvas letter_scan 300 (display_lines sample_env raw) = Ret c
    /\ Forall (fun t => op_alpha t = 0%Z /\ op_font t = ("Helvetica", 8%Z)
                        /\ op_x t = #8 /\ truthy (strip (op_text t)) = true) (code c)
    /\ (op_text <$> code c) `sublist_of` display_lines sample_env raw.
Proof.
  destruct (ocr_page sample_env letter_scan 300) as [pg|e] eqn:Hpg;
    [|vm_compute in Hpg; discriminate].
  destruct (X8_canvas_calls_invisible sample_env letter_scan 300 pg Hpg)
    as (raw & c & _ & _ & Hraw & Hc & _ & _ & Hcalls & Hlines).
  exists pg, raw, c. split; [reflexivity|]. split; [exact Hraw|]. split; [exact Hc|].
  split; [exact Hcalls|exact Hlines].
Defined.

(** ** The threshold of the detector *)

Lemma first_hit_threshold (pages : list (outcome (option str))) (min_chars min_chars' : Z) :
  (min_chars' <= min_chars)%Z ->
  first_hit pages min_chars = Ok true -> first_hit pages min_chars' = Ok true.
Proof.
  intros Hle. induction pages as [|[t|e] rest IH]; cbn [first_hit]; [done| |done].
  destruct (Z.leb_spec min_chars (len (strip (default [] t)))) as [Hhit|Hmiss].
  - intros _. destruct (Z.leb_spec min_chars' (len (strip (default [] t)))); [done|lia].
  - intros Hrest. destruct (Z.leb_spec min_chars' (len (strip (default [] t)))); [done|auto].
Qed.

Lemma lstrip_length (t : str) : (length (lstrip t) <= length t)%nat.
Proof. induction t as [|c t IH]; cbn; [lia|]. destruct (is_whitespace c); cbn; lia. Qed.

Lemma strip_length (t : str) : (len (strip t) <= len t)%Z.
Proof.
  unfold len, strip, rstrip. rewrite length_reverse.
  pose proof (lstrip_length (reverse (lstrip t))) as H1. rewrite length_reverse in H1.
  pose proof (lstrip_length t). lia.
Qed.

Lemma lstrip_blank (t : str) : Forall (fun c => is_whitespace c = true) t -> lstrip t = [].
Proof. induction 1 as [|c t Hc _ IH]; cbn; [done|]. by rewrite Hc. Qed.

Lemma strip_blank (t : str) : Forall (fun c => is_whitespace c = true) t -> strip t = [].
Proof. intros H. unfold strip. by rewrite lstrip_blank. Qed.

(** Property X9.  Lowering the threshold never turns a searchable document
    into one that needs OCR: if the detector answers [True] for
    [min_chars], it answers [True] for every smaller threshold, on the
    same files. *)
Theorem X9_threshold_monotone (E : Env) (pdf : path) (min_chars min_chars' : Z)
    (s : state) :
  (min_chars' <= min_chars)%Z ->
  fst (has_extractable_text E pdf min_chars s) = Ret true ->
  has_extractable_text E pdf min_chars' s = (Ret true, s).
Proof.
  intros Hle Hrun.
  destruct (has_extractable_text E pdf min_chars s) as [r s'] eqn:H. cbn [fst] in Hrun.
  subst r. apply has_extractable_text_true_inv in H
    as (_ & Himp & bytes & pages & Hbytes & Hopen & Hhit).
  rewrite has_extractable_text_eval by done. unfold verdict, view.
  rewrite Hbytes, Hopen. by rewrite (first_hit_threshold pages min_chars min_chars').
Qed.

Lemma X9_threshold_monotone_witness :
  has_extractable_text sample_env ("docs", "text.pdf") 5 sample_state
  = (Ret true, sample_state).
Proof.
  apply (X9_threshold_monotone sample_env ("docs", "text.pdf") 20 5 sample_state);
    [lia|reflexivity].
Defined.

(** Property X10.  Edge cases of the detector, with pdfplumber installed.  A
    document without pages is never searchable, whatever the threshold.
    With a threshold of zero or less, a document is searchable as soon as
    its first page can be read, even if that page is blank.  With a
    positive threshold, a document all of whose pages can be read and give
    no text, only whitespace, or fewer characters than the threshold is
    not searchable; in each case no file is changed and nothing is
    printed. *)
Theorem X10_detector_edge_cases (E : Env) (pdf : path) (min_chars : Z) (s : state)
    (bytes : file) :
  importable E "pdfplumber" = true ->
  fs s !! pdf = Some bytes ->
  (pdfplumber_open E bytes = Ok [] ->
     has_extractable_text E pdf min_chars s = (Ret false, s))
  /\ (forall t rest, pdfplumber_open E bytes = Ok (Ok t :: rest) -> (min_chars <= 0)%Z ->
        has_extractable_text E pdf min_chars s = (Ret true, s))
  /\ (forall texts, pdfplumber_open E bytes = Ok (Ok <$> texts) -> (0 < min_chars)%Z ->
        Forall (fun t => match t with
                         | None => True
                         | Some x => Forall (fun c => is_whitespace c = true) x
                                     \/ (len x < min_chars)%Z
                         end) texts ->
        has_extractable_text E pdf min_chars s = (Ret false, s)).
Proof.
  intros Himp Hbytes. rewrite has_extractable_text_eval by done. unfold verdict, view.
  rewrite Hbytes. split; [|split].
  - by intros ->.
  - intros t rest -> Hmin. cbn [first_hit].
    destruct (Z.leb_spec min_chars (len (strip (default [] t)))); [done|].
    unfold len in *. lia.
  - intros texts -> Hmin Hall.
    replace (first_hit (Ok <$> texts) min_chars) with (@Ok bool false); [done|].
    induction Hall as [|t texts Ht _ IH]; [done|]. cbn [fmap list_fmap first_hit].
    destruct (Z.leb_spec min_chars (len (strip (default [] t)))) as [Hhit|_]; [|exact IH].
    exfalso. destruct t as [x|]; cbn [default from_option id] in Hhit.
    + destruct Ht as [Hblank|Hshort].
      * rewrite strip_blank in Hhit by done. unfold len in Hhit. cbn in Hhit. lia.
      * pose proof (strip_length x). lia.
    + unfold strip, rstrip, len in Hhit. cbn in Hhit. lia.
Qed.

Lemma X10_detector_edge_cases_witness :
  has_extractable_text sample_env ("docs", "scan.pdf") 20 sample_state
  = (Ret false, sample_state).
Proof.
  destruct (X10_detector_edge_cases sample_env ("docs", "scan.pdf") 20 sample_state
              (Original 1) eq_refl eq_refl) as (_ & _ & Hblank).
  apply (Hblank [None]); [reflexivity|lia|]. by constructor.
Defined.

(** ** What one in-place turn can do *)

Lemma list_ascii_of_string_append (a b : string) :
  String.list_ascii_of_string (a +:+ b)
  = String.list_ascii_of_string a ++ String.list_ascii_of_string b.
Proof. induction a as [|c a IH]; [done|]. cbn. by rewrite <- IH. Qed.

Lemma tmp_name_is_pdf (stem : string) : is_pdf_name (stem +:+ ".tmp.pdf") = true.
Proof.
  unfold is_pdf_name. apply bool_decide_eq_true. rewrite list_ascii_of_string_append.
  apply suffix_app_r. by exists (String.list_ascii_of_string ".tmp").
Qed.

Section Turn.

Variable E : Env.

Lemma mkstemp_ret_inv (dir suffix : string) s tmp s' :
  mkstemp E dir suffix s = (Ret tmp, s') ->
  tmp = (dir, mkstemp_name E s dir +:+ suffix)
  /\ fs s !! tmp = None /\ fs s' = <[tmp := Truncated]> (fs s).
Proof.
  unfold mkstemp, bind, sys, get_fs, put_fs.
  destruct (os_fault E s (SysMkstemp dir)); cbn [raise ret]; [done|].
  destruct (fs s !! _) eqn:Htmp; cbn [raise ret fs]; [done|]. by intros [= <- <-].
Qed.

Lemma mkstemp_no_exit (dir suffix : string) s msg s' :
  mkstemp E dir suffix s <> (Raise (SystemExit msg), s').
Proof.
  unfold mkstemp, bind, sys, get_fs, put_fs.
  destruct (os_fault E s (SysMkstemp dir)); cbn [raise ret]; [done|].
  by destruct (fs s !! _).
Qed.

Lemma os_replace_no_exit (src dst : path) s msg s' :
  os_replace E src dst s <> (Raise (SystemExit msg), s').
Proof.
  unfold os_replace, bind, sys, get_fs, put_fs.
  destruct (os_fault E s (SysReplace src dst)); cbn [raise ret]; [done|].
  by destruct (fs s !! src).
Qed.

(** The [try] block can exit the program only through [ocr_pdf], which
    then has done nothing. *)
Lemma in_place_body_exit (pdf tmp : path) (dpi : Z) (errors : list (path * string))
    s msg s' :
  (os_close E tmp ;;; ocr_pdf E pdf tmp dpi ;;; os_replace E tmp pdf ;;;
   print MsgDone ;;; ret errors) s = (Raise (SystemExit msg), s') ->
  s' = s /\ exists m, m ∈ required_modules /\ importable E m = false.
Proof.
  intros H.
  apply bind_inv in H as [(? & ? & [-> _]%sys_inv & H)|(e & [_ Hr]%sys_inv & He)].
  2:{ destruct Hr as [|[? ?]]; congruence. }
  apply bind_inv in H as [([] & s3 & Hocr & H)|(e & Hocr & [= <-])].
  2:{ apply ocr_pdf_cases in Hocr
        as [(? & m & _ & -> & ? & ?)|(_ & [(? & [=] & _)|(_ & k & _ & [])])].
      split; [done|]. by exists m. }
  apply bind_inv in H as [(? & s4 & Hrep & H)|(e & Hrep & [= <-])].
  2:{ by apply os_replace_no_exit in Hrep. }
  apply bind_inv in H as [(? & s5 & _ & H)|(e & [? _]%print_inv & _)]; done.
Qed.

(** The [except] clause fails only when the temporary file is there and
    its removal is refused. *)
Lemma cleanup_raises (pdf tmp : path) (errors : list (path * string)) (e : string)
    s x s' :
  on_failure E pdf (Some tmp) errors e s = (Raise x, s') ->
  fs s' = fs s /\ is_Some (fs s !! tmp)
  /\ exists msg s1, x = Exception msg /\ os_fault E s1 (SysUnlink tmp) = Some msg.
Proof.
  unfold on_failure. intros H.
  apply bind_inv in H as [(? & s1 & Hp & H)|(? & [? _]%print_inv & _)]; [|done].
  pose proof Hp as [_ Hfs1]%print_inv.
  apply bind_inv in H as [([] & s2 & _ & H)|(x' & Hclean & [= <-])]; [done|].
  unfold os_path_exists, bind, get_fs, ret in Hclean. cbv beta iota in Hclean.
  destruct (bool_decide_reflect (is_Some (fs s1 !! tmp))) as [[bytes Hthere]|Hgone];
    [|done].
  rewrite <- Hfs1. split; [|split; [by eexists|]].
  - apply os_unlink_inv in Hclean. by subst.
  - unfold os_unlink, bind, sys, get_fs, put_fs in Hclean.
    destruct (os_fault E s1 (SysUnlink tmp)) as [msg|] eqn:Hfault; cbn [raise ret] in Hclean.
    + injection Hclean as <- _. by exists msg, s1.
    + rewrite Hthere in Hclean. done.
Qed.

End Turn.

(** Property X11.  One in-place turn of the OCR loop, however it ends.  A turn
    that returns has either replaced the document by the complete new one
    or recorded one error for it and left every file as it was.  A turn
    that does not return leaves exactly one new file behind, the temporary
    file, in the directory of the document and under a name that ends in
    [.pdf], and changes nothing else; this happens only when a required
    module is missing (the program exits, the temporary file is empty) or
    when the removal of the temporary file is refused (the exception
    leaves the [except] clause). *)
Theorem X11_in_place_turn (E : Env) (pdf : path) (dpi : Z) (i n : nat)
    (errors : list (path * string)) (s s' : state) (r : res (list (path * string))) :
  ocr_one E pdf None dpi i n errors s = (r, s') ->
  match r with
  | Ret errors' =>
      (errors' = errors /\ exists pages, fs s' = <[pdf := Composite pages]> (fs s))
      \/ (exists e, errors' = errors ++ [(pdf, e)] /\ fs s' = fs s)
  | Raise x =>
      exists tmp,
        parent tmp = parent pdf /\ is_pdf_name (name tmp) = true
        /\ fs s !! tmp = None /\ is_Some (fs s' !! tmp)
        /\ (forall p, p <> tmp -> fs s' !! p = fs s !! p)
        /\ match x with
           | SystemExit _ =>
               fs s' = <[tmp := Truncated]> (fs s)
               /\ exists m, m ∈ required_modules /\ importable E m = false
           | Exception msg => exists s1, os_fault E s1 (SysUnlink tmp) = Some msg
           end
  end.
Proof.
  intros H. destruct r as [errors'|x]; [by apply ocr_one_in_place in H|].
  unfold ocr_one in H.
  apply bind_inv in H as [(? & s0 & [_ Hfs0]%print_inv & H)|(? & [? _]%print_inv & _)];
    [|done].
  rewrite <- Hfs0.
  apply bind_inv in H as [(made & s1 & Hmade & H)|(x' & Hmade & [= <-])].
  2:{ unfold attempt in Hmade.
      destruct (mkstemp E (parent pdf) ".tmp.pdf" s0) as [[tmp|[msg|msg]] s1] eqn:Hmk;
        [done|done|]. by apply mkstemp_no_exit in Hmk. }
  unfold attempt in Hmade.
  destruct (mkstemp E (parent pdf) ".tmp.pdf" s0) as [[tmp|[msg|msg]] s1'] eqn:Hmk;
    [injection Hmade as <- <-|injection Hmade as <- <-|done].
  2:{ unfold on_failure in H.
      apply bind_inv in H as [(? & s2 & _ & H)|(? & [? _]%print_inv & _)]; done. }
  apply mkstemp_ret_inv in Hmk as (Htmp & Hfresh & Hfs1).
  pose proof (only_tmp_start tmp (fs s0) s1' Truncated Hfs1) as Hs1.
  exists tmp. split; [by subst tmp|]. split; [subst tmp; apply tmp_name_is_pdf|].
  split; [done|].
  unfold try_except in H.
  destruct ((os_close E tmp ;;; ocr_pdf E pdf tmp dpi ;;; os_replace E tmp pdf ;;;
             print MsgDone ;;; ret errors) s1') as [[a|[msg|msg]] s2] eqn:Hbody.
  - done.
  - pose proof (in_place_body_inv E pdf tmp dpi errors (fs s0) _ _ _ Hs1 Hbody) as [Hs2 _].
    apply cleanup_raises in H as (Hfs' & Hthere & msg' & s3 & -> & Hfault).
    rewrite Hfs'. split; [done|]. split; [exact Hs2|]. by exists s3.
  - injection H as <- <-. apply in_place_body_exit in Hbody as (-> & Hmiss).
    rewrite Hfs1. split; [by rewrite lookup_insert_eq|].
    split; [by intros p Hp; rewrite lookup_insert_ne|]. done.
Qed.

Lemma X11_in_place_turn_witness :
  exists tmp,
    parent tmp = "docs" /\ is_pdf_name (name tmp) = true
    /\ fs one_scan !! tmp = None
    /\ fs (snd (ocr_one no_tesseract_env ("docs", "scan.pdf") None 300 1 1 [] one_scan))
       = <[tmp := Truncated]> (fs one_scan).
Proof.
  destruct (ocr_one no_tesseract_env ("docs", "scan.pdf") None 300 1 1 [] one_scan)
    as [r s'] eqn:Hrun.
  pose proof (X11_in_place_turn no_tesseract_env ("docs", "scan.pdf") 300 1 1 []
                one_scan s' r Hrun) as H.
  assert (Hr : r = Raise (SystemExit
    "Missing dependency: 'pytesseract'.  Install with:  pip install pytesseract")).
  { apply (f_equal fst) in Hrun. cbn [fst] in Hrun. rewrite <- Hrun. vm_compute. reflexivity. }
  subst r. destruct H as (tmp & Hparent & Hname & Hfresh & _ & _ & Hfs & _).
  exists tmp. cbn [snd]. done.
Defined.

(** ** Output-directory mode *)

Section Bystanders.

Variable E : Env.
Variables (protected : path -> Prop) (f0 : gmap path file) (log : list event).

Local Abbreviation Inv := (frame protected (fun _ => True) f0 log).

Lemma keeps_open_pdf (pdf_path : path) : keeps Inv (open_pdf E pdf_path).
Proof.
  unfold open_pdf. eapply yields_bind; [by apply yields_get_fs|]. intros f _.
  destruct (f !! pdf_path); [by apply yields_liftM|by apply yields_raise].
Qed.

Lemma keeps_scan_pages (pages : list (outcome (option str))) (min_chars : Z) :
  keeps Inv (scan_pages pages min_chars).
Proof.
  induction pages as [|page rest IH]; cbn [scan_pages]; [by apply yields_ret|].
  apply keeps_bind; [by apply yields_liftM|]. intros extracted.
  destruct (_ <=? _)%Z; [by apply yields_ret|exact IH].
Qed.

Lemma keeps_has_extractable_text (pdf_path : path) (min_chars : Z) :
  keeps Inv (has_extractable_text E pdf_path min_chars).
Proof.
  unfold has_extractable_text. apply keeps_bind; [by apply keeps_require|]. intros _.
  apply yields_try_except.
  - apply keeps_bind; [apply keeps_open_pdf|]. intros pages. apply keeps_scan_pages.
  - intros msg. apply keeps_bind; [by apply keeps_print|]. intros _. by apply yields_ret.
Qed.

(** The scan only ever adds files it was given to [needs_ocr]. *)
Lemma yields_scan_files_subset (good : path -> Prop) (pdf_files : list path) :
  Forall good pdf_files ->
  forall (already_ok needs_ocr : list path) (errors : list (path * string)),
    Forall good needs_ocr ->
    yields Inv (scan_files E pdf_files already_ok needs_ocr errors)
      (fun lists => Forall good (snd (fst lists))).
Proof.
  induction 1 as [|pdf rest Hpdf _ IH]; intros ok needs errors Hneeds; cbn [scan_files].
  - by apply yields_ret.
  - eapply (yields_bind _ _ (fun lists => Forall good (snd (fst lists)))).
    + apply yields_try_except.
      * eapply yields_bind; [apply keeps_has_extractable_text|].
        intros [|] _.
        -- eapply yields_bind; [by apply keeps_print|]. intros _ _.
           apply (yields_ret (ok ++ [pdf], needs, errors)). exact Hneeds.
        -- eapply yields_bind; [by apply keeps_print|]. intros _ _.
           apply (yields_ret (ok, needs ++ [pdf], errors)). cbn [fst snd].
           apply Forall_app. split; [done|]. by constructor.
      * intros msg. eapply yields_bind; [by apply keeps_print|]. intros _ _.
        apply (yields_ret (ok, needs, errors ++ [(pdf, msg)])). exact Hneeds.
    + intros [[ok' needs'] errors'] Hneeds'. by apply IH.
Qed.

Lemma keeps_ocr_one_out (pdf : path) (d : string) (dpi : Z) (i n : nat)
    (errors : list (path * string)) :
  ~ protected (d, name pdf) ->
  keeps Inv (ocr_one E pdf (Some d) dpi i n errors).
Proof.
  intros Hdest. unfold ocr_one.
  apply keeps_bind; [by apply keeps_print|]. intros _.
  apply yields_try_except.
  - apply keeps_bind; [by apply keeps_ocr_pdf|]. intros _.
    apply keeps_bind; [by apply keeps_print|]. intros _. by apply yields_ret.
  - intros msg. by apply keeps_on_failure.
Qed.

Lemma keeps_ocr_files_out (d : string) (dpi : Z) (n : nat) (needs_ocr : list path) :
  Forall (fun pdf => ~ protected (d, name pdf)) needs_ocr ->
  forall (i : nat) (errors : list (path * string)),
    keeps Inv (ocr_files E needs_ocr (Some d) dpi i n errors).
Proof.
  induction 1 as [|pdf rest Hpdf _ IH]; intros i errors; cbn [ocr_files].
  - by apply yields_ret.
  - apply keeps_bind; [by apply keeps_ocr_one_out|]. intros errors'. apply IH.
Qed.

End Bystanders.

(** Property X12.  With an output directory, a run changes no file outside
    that directory, and inside it only files that bear the name of a PDF of
    the input directory: every other file holds after the run, however the
    run ends, what it held before.  In particular the source documents are
    left as they are unless the output directory is the input directory. *)
Theorem X12_output_dir_leaves_sources (E : Env) (directory d : string) (dry_run : bool)
    (dpi : Z) (s : state) (p : path) :
  parent p <> d \/ is_pdf_name (name p) = false \/ fs s !! (directory, name p) = None ->
  fs (snd (process_directory E directory (Some d) dry_run dpi s)) !! p = fs s !! p.
Proof.
  intros Hp.
  set (protected := fun p : path =>
         parent p <> d \/ is_pdf_name (name p) = false
         \/ fs s !! (directory, name p) = None).
  set (good := fun pdf : path => ~ protected (d, name pdf)).
  assert (Hstart : frame protected (fun _ => True) (fs s) (trace s) s).
  { split; [done|]. exists []. by rewrite app_nil_r. }
  assert (Hgood : forall pdf, is_Some (fs s !! pdf) -> parent pdf = directory ->
                              is_pdf_name (name pdf) = true -> good pdf).
  { intros [pd pn] [bytes Hpdf] Hdir Hname [Hd|[Hno|Hnone]];
      cbn [parent name fst snd] in *; [done|congruence|]. subst pd. congruence. }
  unfold process_directory, bind at 1.
  destruct (glob_pdf_eval directory s) as (pdf_files & -> & Hfiles).
  assert (Hall : Forall good pdf_files).
  { apply Forall_forall. intros pdf (? & ? & ?)%Hfiles. by apply Hgood. }
  clear Hfiles.
  match goal with |- fs (snd (?m s)) !! p = _ =>
    assert (Hkeeps : keeps (frame protected (fun _ => True) (fs s) (trace s)) m)
  end.
  { destruct pdf_files as [|pdf0 rest0] eqn:Hlist; [by apply keeps_print|].
    rewrite <- Hlist in *. clear Hlist.
    apply keeps_bind; [by apply keeps_print|]. intros _.
    eapply yields_bind; [by apply (yields_scan_files_subset E _ _ _ good)|].
    intros [[already_ok needs_ocr] errors] Hneeds. cbn [fst snd] in Hneeds.
    apply keeps_bind; [by apply keeps_print|]. intros _.
    destruct dry_run; [by apply keeps_print|].
    destruct needs_ocr as [|pdf1 rest1] eqn:Hlist; [by apply keeps_print|].
    rewrite <- Hlist in *. clear Hlist.
    apply keeps_bind; [by apply keeps_sys|]. intros _.
    apply keeps_bind; [by apply keeps_ocr_files_out|]. intros errors'.
    destruct errors'; [by apply keeps_print|].
    apply keeps_bind; [by apply keeps_print|]. intros _. by apply keeps_report_errors. }
  destruct (Hkeeps s Hstart) as [[Hfs _] _]. by apply Hfs.
Qed.

Lemma X12_output_dir_leaves_sources_witness :
  fs (snd (process_directory sample_env "docs" (Some "out") false 300 sample_state))
    !! ("docs", "scan.pdf")
  = fs sample_state !! ("docs", "scan.pdf").
Proof.
  apply (X12_output_dir_leaves_sources sample_env "docs" "out" false 300 sample_state
           ("docs", "scan.pdf")).
  left. discriminate.
Defined.

(** ** The whole run *)

(** Property X13.  The output directory is created outside any [try] block:
    when some document needs OCR and the directory cannot be created, the
    exception leaves [process_directory].  Nothing has been rasterized or
    written by then; the run has only printed the scan and its summary. *)
Theorem X13_mkdir_failure_aborts (E : Env) (directory d : string) (dpi : Z) (s : state)
    (pdf : path) (msg : string) :
  importable E "pdfplumber" = true ->
  is_Some (fs s !! pdf) -> parent pdf = directory -> is_pdf_name (name pdf) = true ->
  found E (fs s) pdf = false ->
  (forall s1, os_fault E s1 (SysMkdir d) = Some msg) ->
  exists msgs,
    process_directory E directory (Some d) false dpi s
    = (Raise (Exception msg), {| fs := fs s; trace := trace s ++ (Printed <$> msgs) |}).
Proof.
  intros Himp Hthere Hdir Hname Hfound Hfault.
  unfold process_directory. unfold bind at 1.
  destruct (glob_pdf_eval directory s) as (pdf_files & -> & Hfiles).
  assert (Hin : pdf ∈ pdf_files) by by apply Hfiles.
  destruct pdf_files as [|pdf0 rest0] eqn:Hlist; [by apply elem_of_nil in Hin|].
  rewrite <- Hlist in *. clear Hlist.
  unfold bind at 1. cbn [print emit]. unfold bind at 1.
  rewrite scan_files_eval by done. cbn [fs trace app].
  assert (Hneeds : pdf ∈ filter (fun p => found E (fs s) p <> true) pdf_files).
  { apply list_elem_of_filter. split; [congruence|done]. }
  destruct (filter (fun p => found E (fs s) p <> true) pdf_files) as [|pdf1 rest1] eqn:Hf;
    [by apply elem_of_nil in Hneeds|].
  destruct (scan_log_printed E (fs s) pdf_files) as [msgs ->].
  unfold bind at 1. cbn [print emit]. cbn [fs trace].
  unfold bind at 1, mkdir, sys. rewrite Hfault. cbn [raise fs trace].
  eexists (MsgScanning _ :: msgs ++ [MsgSummary _ _ _]).
  rewrite fmap_cons, fmap_app. rewrite <- !app_assoc. reflexivity.
Qed.

Lemma X13_mkdir_failure_aborts_witness :
  exists msgs,
    process_directory no_mkdir_env "docs" (Some "out") false 300 one_scan
    = (Raise (Exception "Permission denied"),
       {| fs := fs one_scan; trace := trace one_scan ++ (Printed <$> msgs) |}).
Proof.
  apply (X13_mkdir_failure_aborts no_mkdir_env "docs" "out" 300 one_scan
           ("docs", "scan.pdf") "Permission denied");
    [reflexivity|by eexists|reflexivity|vm_compute; reflexivity|vm_compute; reflexivity
    |reflexivity].
Defined.

(** The loop of lines 192-211 in place, when it runs to its end: every
    document either has been replaced or is listed in the new errors, and
    nothing else has changed. *)
Lemma ocr_files_in_place (E : Env) (dpi : Z) (n : nat) (needs_ocr : list path) :
  NoDup needs_ocr ->
  forall (i : nat) (errors errors' : list (path * string)) (s s' : state),
    ocr_files E needs_ocr None dpi i n errors s = (Ret errors', s') ->
    exists failed,
      errors' = errors ++ failed
      /\ (fst <$> failed) `sublist_of` needs_ocr
      /\ forall p,
           (p ∈ needs_ocr -> p ∉ fst <$> failed ->
              exists pages, fs s' !! p = Some (Composite pages))
           /\ (p ∉ needs_ocr \/ p ∈ fst <$> failed -> fs s' !! p = fs s !! p).
Proof.
  induction 1 as [|pdf rest Hfresh Hnodup IH]; intros i errors errors' s s';
    cbn [ocr_files].
  - intros [= <- <-]. exists []. rewrite app_nil_r. split; [done|]. split; [done|].
    intros p. split; [by intros ?%elem_of_nil|done].
  - intros H. apply bind_inv in H as [(errors1 & s1 & Hone & H)|(? & _ & ?)]; [|done].
    apply IH in H as (failed & -> & Hsub & Hfiles).
    assert (Hin : forall p, p ∈ fst <$> failed -> p ∈ rest).
    { intros p Hp. by eapply elem_of_sublist. }
    apply ocr_one_in_place in Hone as [(-> & pages & Hfs1)|(e & -> & Hfs1)].
    + exists failed. split; [done|]. split; [by apply sublist_cons|].
      intros p. destruct (Hfiles p) as [Hdone Hsame]. split.
      * intros [->|Hp]%elem_of_cons Hok; [|by apply Hdone].
        exists pages. rewrite Hsame by by left. by rewrite Hfs1, lookup_insert_eq.
      * intros Hp.
        assert (p <> pdf).
        { intros ->. destruct Hp as [Hp|Hp]; [apply Hp; left|by apply Hfresh, Hin]. }
        rewrite Hsame, Hfs1, lookup_insert_ne; [done|done|].
        destruct Hp as [Hp|Hp]; [left|by right]. intros ?. apply Hp. by right.
    + exists ((pdf, e) :: failed). split; [by rewrite <- app_assoc|].
      split; [by apply sublist_skip|].
      intros p. destruct (Hfiles p) as [Hdone Hsame]. cbn [fmap list_fmap fst]. split.
      * intros Hp Hok. apply not_elem_of_cons in Hok as [Hne Hok].
        apply elem_of_cons in Hp as [->|Hp]; [done|]. by apply Hdone.
      * intros Hp. rewrite <- Hfs1. apply Hsame.
        destruct Hp as [Hp|[->|Hp]%elem_of_cons]; [|by left|by right].
        left. intros ?. apply Hp. by right.
Qed.

(** Property X14.  An in-place run that returns has treated every file of the
    directory as a whole: a file either holds exactly what it held before,
    or it is a PDF of the directory in which the detector found no text
    and now holds a complete document written by [ocr_pdf].  No file has
    been added or removed, so no temporary file is left. *)
Theorem X14_in_place_run_all_or_nothing (E : Env) (directory : string) (dpi : Z)
    (s s' : state) :
  process_directory E directory None false dpi s = (Ret tt, s') ->
  forall p,
    fs s' !! p = fs s !! p
    \/ ((exists pages, fs s' !! p = Some (Composite pages))
        /\ is_Some (fs s !! p) /\ parent p = directory
        /\ is_pdf_name (name p) = true /\ found E (fs s) p = false).
Proof.
  unfold process_directory. unfold bind at 1.
  destruct (glob_pdf_eval directory s) as (pdf_files & Hglob & Hfiles).
  assert (Hnodup : NoDup pdf_files).
  { unfold glob_pdf, bind, get_fs, ret in Hglob. injection Hglob as <-.
    rewrite merge_sort_Permutation. apply NoDup_filter, NoDup_elements. }
  rewrite Hglob.
  destruct pdf_files as [|pdf0 rest0].
  { intros [_ Hfs]%print_inv p. left. by rewrite Hfs. }
  unfold bind at 1. cbn [print emit]. unfold bind at 1.
  destruct (importable E "pdfplumber") eqn:Himp.
  2:{ match goal with |- context [scan_files E _ _ _ _ ?s1] =>
        destruct (scan_files_missing E pdf0 rest0 [] [] [] s1 Himp) as [msg ->] end.
      done. }
  remember (pdf0 :: rest0) as pdf_files eqn:Hlist. clear Hlist.
  rewrite scan_files_eval by done. cbn [fs trace app].
  set (needs_ocr := filter (fun p => found E (fs s) p <> true) pdf_files).
  assert (Hneeds : forall p, p ∈ needs_ocr ->
            is_Some (fs s !! p) /\ parent p = directory
            /\ is_pdf_name (name p) = true /\ found E (fs s) p = false).
  { intros p [Hno Hp]%list_elem_of_filter. apply Hfiles in Hp as (? & ? & ?).
    repeat split; try done. by apply not_true_is_false. }
  assert (Hnodup' : NoDup needs_ocr) by by apply NoDup_filter.
  clearbody needs_ocr.
  intros Hrun.
  apply bind_inv in Hrun as [(? & s1 & [_ Hfs1]%print_inv & Hrun)|(? & _ & ?)]; [|done].
  cbn [fs] in Hfs1.
  destruct needs_ocr as [|pdf1 rest1] eqn:Hlist.
  { apply print_inv in Hrun as [_ Hfs]. intros p. left. by rewrite Hfs, Hfs1. }
  rewrite <- Hlist in *. clear Hlist.
  apply bind_inv in Hrun as [(? & s2 & [= <- <-] & Hrun)|(? & _ & ?)]; [|done].
  apply bind_inv in Hrun as [(errors' & s3 & Hbatch & Hrun)|(? & _ & ?)]; [|done].
  apply ocr_files_in_place in Hbatch as (failed & _ & _ & Hbatch); [|done].
  assert (Hfs3 : fs s' = fs s3).
  { destruct errors' as [|[pdf msg] rest]; [by apply print_inv in Hrun as [_ ?]|].
    apply bind_inv in Hrun as [(? & s4 & [_ Hfs4]%print_inv & Hrun)|(? & _ & ?)]; [|done].
    rewrite <- Hfs4.
    pose proof (keeps_report_errors (fun _ => True) (fun _ => True) (fs s4) (trace s4)
                  (fun _ => I) ((pdf, msg) :: rest) s4) as Hrep.
    rewrite Hrun in Hrep. destruct Hrep as [[Hrep _] _].
    { split; [done|]. exists []. by rewrite app_nil_r. }
    apply map_eq. intros p. by apply Hrep. }
  intros p. rewrite Hfs3. destruct (Hbatch p) as [Hdone Hsame].
  destruct (decide (p ∈ needs_ocr)) as [Hp|Hp].
  - destruct (decide (p ∈ fst <$> failed)) as [Hfailed|Hok].
    + left. rewrite Hsame by by right. by rewrite Hfs1.
    + right. split; [by apply Hdone|]. by apply Hneeds.
  - left. rewrite Hsame by by left. by rewrite Hfs1.
Qed.

Lemma X14_in_place_run_all_or_nothing_witness :
  let s' := snd (process_directory sample_env "docs" None false 300 sample_state) in
  fs s' !! ("docs", "scan.pdf") = fs sample_state !! ("docs", "scan.pdf")
  \/ ((exists pages, fs s' !! ("docs", "scan.pdf") = Some (Composite pages))
      /\ is_Some (fs sample_state !! ("docs", "scan.pdf"))
      /\ parent ("docs", "scan.pdf") = "docs"
      /\ is_pdf_name (name ("docs", "scan.pdf")) = true
      /\ found sample_env (fs sample_state) ("docs", "scan.pdf") = false).
Proof.
  intros s'. apply (X14_in_place_run_all_or_nothing sample_env "docs" 300 sample_state s').
  subst s'.
  destruct (process_directory sample_env "docs" None false 300 sample_state) as [r s'] eqn:H.
  cbn [snd]. f_equal. apply (f_equal fst) in H. cbn [fst] in H. rewrite <- H.
  vm_compute. reflexivity.
Defined.

(** ** Failures of single documents *)

Section Isolation.

Variable E : Env.
Hypothesis required_installed : forall m, m ∈ required_modules -> importable E m = true.
Hypothesis pypdf_installed : importable E "pypdf" = true.

(** With the modules installed, [ocr_pdf] rasterizes the document and ends
    normally or with an [Exception]. *)
Lemma ocr_pdf_attempted (pdf_path output_path : path) (dpi : Z) s r s' :
  ocr_pdf E pdf_path output_path dpi s = (r, s') ->
  (exists evs, trace s' = trace s ++ Rasterized pdf_path dpi :: evs)
  /\ (r = Ret tt \/ exists msg, r = Raise (Exception msg)).
Proof.
  intros H. apply ocr_pdf_cases in H
    as [(? & m & _ & _ & Hm & Hno)|(_ & [(? & _ & _ & Hno)|(_ & k & Htr & Hr)])].
  - rewrite required_installed in Hno by done. discriminate.
  - congruence.
  - split; [by eexists|]. destruct r as [[]|[msg|msg]]; [by left|right; by eexists|done].
Qed.

Lemma ocr_one_out_cases (pdf : path) (d : string) (dpi : Z) (i n : nat)
    (errors : list (path * string)) (s : state) :
  exists failed s' evs,
    ocr_one E pdf (Some d) dpi i n errors s = (Ret (errors ++ failed), s')
    /\ (failed = [] \/ exists e, failed = [(pdf, e)])
    /\ trace s' = trace s ++ evs /\ Rasterized pdf dpi ∈ evs.
Proof.
  unfold ocr_one. unfold bind at 1. cbn [print emit]. unfold try_except, bind at 1.
  set (s0 := {| fs := fs s; trace := trace s ++ [Printed (MsgProgress i n (name (d, name pdf)))] |}).
  destruct (ocr_pdf E pdf (d, name pdf) dpi s0) as [r1 s1] eqn:Hocr.
  apply ocr_pdf_attempted in Hocr as [[evs Htr] [->|[msg ->]]].
  - exists [], {| fs := fs s1; trace := trace s1 ++ [Printed MsgDone] |}. eexists.
    rewrite app_nil_r. split; [reflexivity|]. split; [by left|]. cbn [trace].
    rewrite Htr. subst s0. cbn [trace]. rewrite <- !app_assoc. split; [reflexivity|].
    cbn. set_solver.
  - exists [(pdf, msg)], {| fs := fs s1; trace := trace s1 ++ [Printed (MsgFailed msg)] |}.
    eexists. split; [reflexivity|]. split; [right; by eexists|]. cbn [trace].
    rewrite Htr. subst s0. cbn [trace]. rewrite <- !app_assoc. split; [reflexivity|].
    cbn. set_solver.
Qed.

End Isolation.

(** Property X15.  With an output directory and every module installed, the
    failure of one document never stops the batch: the loop always runs to
    its end, every document that needs OCR is rasterized (so each one is
    attempted, whatever happened to those before it), and the documents
    that failed are appended to the errors in the order in which they were
    processed. *)
Theorem X15_failures_do_not_stop_the_batch (E : Env) (needs_ocr : list path) (d : string)
    (dpi : Z) (i n : nat) (errors : list (path * string)) (s : state) :
  (forall m, m ∈ required_modules -> importable E m = true) ->
  importable E "pypdf" = true ->
  exists failed s' evs,
    ocr_files E needs_ocr (Some d) dpi i n errors s = (Ret (errors ++ failed), s')
    /\ (fst <$> failed) `sublist_of` needs_ocr
    /\ trace s' = trace s ++ evs
    /\ forall pdf, pdf ∈ needs_ocr -> Rasterized pdf dpi ∈ evs.
Proof.
  intros Hreq Hpypdf. revert i errors s.
  induction needs_ocr as [|pdf rest IH]; intros i errors s; cbn [ocr_files].
  - exists [], s, []. rewrite !app_nil_r. repeat split; try done.
    by intros pdf ?%elem_of_nil.
  - destruct (ocr_one_out_cases E Hreq Hpypdf pdf d dpi i n errors s)
      as (failed1 & s1 & evs1 & Hone & Hfailed1 & Htr1 & Hras1).
    destruct (IH (S i) (errors ++ failed1) s1) as (failed & s' & evs & Hrest & Hsub & Htr & Hras).
    exists (failed1 ++ failed), s', (evs1 ++ evs). unfold bind. rewrite Hone, Hrest.
    split; [by rewrite app_assoc|]. split; [|split].
    + rewrite fmap_app. destruct Hfailed1 as [->|[e ->]]; [by apply sublist_cons|].
      by apply sublist_skip.
    + by rewrite Htr, Htr1, app_assoc.
    + intros p [->|Hp]%elem_of_cons; apply elem_of_app; [by left|right; by apply Hras].
Qed.

Lemma X15_failures_do_not_stop_the_batch_witness :
  exists failed s' evs,
    ocr_files failing_ocr_env [("docs", "scan.pdf"); ("docs", "damaged.pdf")] (Some "out")
      300 1 2 [] sample_state = (Ret ([] ++ failed), s')
    /\ (fst <$> failed) `sublist_of` [("docs", "scan.pdf"); ("docs", "damaged.pdf")]
    /\ trace s' = trace sample_state ++ evs
    /\ forall pdf, pdf ∈ [("docs", "scan.pdf"); ("docs", "damaged.pdf")] ->
                   Rasterized pdf 300 ∈ evs.
Proof.
  apply (X15_failures_do_not_stop_the_batch failing_ocr_env
           [("docs", "scan.pdf"); ("docs", "damaged.pdf")] "out" 300 1 2 [] sample_state);
    reflexivity.
Defined.

(** ** The closing message *)

Section Closing.

Variable E : Env.

(** The [try] block of an in-place turn, when it runs to its end: the
    document has been rebuilt from its own pages. *)
Lemma in_place_body_src (pdf tmp : path) (dpi : Z) (errors errors' : list (path * string))
    (s s' : state) :
  (os_close E tmp ;;; ocr_pdf E pdf tmp dpi ;;; os_replace E tmp pdf ;;;
   print MsgDone ;;; ret errors) s = (Ret errors', s') ->
  errors' = errors
  /\ exists bytes pages,
       fs s !! pdf = Some bytes /\ built_from E dpi bytes pages
       /\ fs s' = <[pdf := Composite pages]>
                    (delete tmp (<[tmp := Composite pages]> (fs s))).
Proof.
  intros H.
  apply bind_inv in H as [(? & ? & [-> _]%sys_inv & H)|(? & _ & ?)]; [|done].
  apply bind_inv in H as [([] & s3 & Hocr & H)|(? & _ & ?)]; [|done].
  apply ocr_pdf_inv in Hocr as (bytes & images & pages & Hbytes & Himages & Hpages & Hfs3).
  apply bind_inv in H as [(? & s4 & Hrep & H)|(? & _ & ?)]; [|done].
  apply os_replace_inv in Hrep as (moved & Hmoved & Hfs4).
  rewrite Hfs3, lookup_insert_eq in Hmoved. injection Hmoved as <-.
  apply bind_inv in H as [(? & s5 & [_ Hfs5]%print_inv & H)|(? & _ & ?)]; [|done].
  injection H as <- <-. split; [done|]. exists bytes, pages.
  split; [done|]. split; [by exists images|]. by rewrite Hfs5, Hfs4, Hfs3.
Qed.

(** One turn of either kind that returns, for a document that exists:
    either the destination holds the document rebuilt from the source, or
    an error was recorded and nothing but the destination can differ. *)
Lemma ocr_one_ret_src (pdf : path) (output_dir : option string) (dpi : Z) (i n : nat)
    (errors errors' : list (path * string)) (s s' : state) :
  is_Some (fs s !! pdf) ->
  ocr_one E pdf output_dir dpi i n errors s = (Ret errors', s') ->
  let dest := match output_dir with Some d => (d, name pdf) | None => pdf end in
  (errors' = errors
   /\ exists bytes pages,
        fs s !! pdf = Some bytes /\ built_from E dpi bytes pages
        /\ fs s' = <[dest := Composite pages]> (fs s))
  \/ (exists e, errors' = errors ++ [(pdf, e)]
                /\ forall p, p <> dest -> fs s' !! p = fs s !! p).
Proof.
  intros Hthere H. cbv zeta. unfold ocr_one in H.
  apply bind_inv in H as [(? & s0 & [_ Hfs0]%print_inv & H)|(? & [? _]%print_inv & _)];
    [|done].
  rewrite <- Hfs0 in *. destruct output_dir as [d|].
  - unfold try_except in H.
    destruct ((ocr_pdf E pdf (d, name pdf) dpi ;;; print MsgDone ;;; ret errors) s0)
      as [[a|[msg|msg]] s1] eqn:Hbody; [| |done].
    + injection H as <- <-. left.
      apply bind_inv in Hbody as [([] & s2 & Hocr & Hbody)|(? & _ & ?)]; [|done].
      apply ocr_pdf_inv in Hocr
        as (bytes & images & pages & Hbytes & Himages & Hpages & Hfs2).
      apply bind_inv in Hbody as [(? & s3 & [_ Hfs3]%print_inv & Hbody)|(? & _ & ?)];
        [|done].
      injection Hbody as <- <-. split; [done|]. exists bytes, pages.
      split; [done|]. split; [by exists images|]. by rewrite Hfs3.
    + right. exists msg. unfold on_failure in H.
      apply bind_inv in H as [(? & s2 & [_ Hfs2]%print_inv & H)|(? & [? _]%print_inv & _)];
        [|done].
      unfold bind, ret in H. injection H as <- <-. split; [done|]. rewrite Hfs2.
      intros p Hp.
      apply bind_inv in Hbody as [([] & s3 & Hocr & Hbody)|(exc & Hocr & _)].
      * apply bind_inv in Hbody as [(? & s4 & _ & Hbody)|(? & [? _]%print_inv & _)]; done.
      * apply ocr_pdf_cases in Hocr
          as [(? & ? & _ & -> & _)|(_ & [(? & _ & -> & _)|(_ & k & _ & Hr)])];
          [done|done|].
        destruct exc as [m|m]; [|done].
        destruct Hr as [->| ->]; [done|]. by rewrite lookup_insert_ne.
  - apply bind_inv in H as [(made & s1 & Hmade & H)|(? & _ & ?)]; [|done].
    unfold attempt in Hmade.
    destruct (mkstemp E (parent pdf) ".tmp.pdf" s0) as [[tmp|[msg|msg]] s1'] eqn:Hmk;
      apply mkstemp_inv in Hmk; [injection Hmade as <- <- ..|discriminate].
    + destruct Hmk as [Hfresh Hfs1].
      assert (Hne : pdf <> tmp).
      { intros ->. rewrite Hfresh in Hthere. by destruct Hthere. }
      pose proof (only_tmp_start tmp (fs s0) s1' Truncated Hfs1) as Hs1.
      unfold try_except in H.
      destruct ((os_close E tmp ;;; ocr_pdf E pdf tmp dpi ;;; os_replace E tmp pdf ;;;
                 print MsgDone ;;; ret errors) s1') as [[a|[msg|msg]] s2] eqn:Hbody.
      * injection H as <- <-. left.
        apply in_place_body_src in Hbody as (-> & bytes & pages & Hbytes & Hbuilt & Hfs2).
        split; [done|]. exists bytes, pages.
        rewrite Hfs1, lookup_insert_ne in Hbytes by done.
        split; [done|]. split; [done|].
        by rewrite Hfs2, Hfs1, !delete_insert_eq, delete_id.
      * right. exists msg.
        pose proof (in_place_body_inv E pdf tmp dpi errors (fs s0) _ _ _ Hs1 Hbody) as Hs2.
        destruct (cleanup_inv E pdf tmp errors msg (fs s0) s2 errors' s' Hfresh Hs2 H)
          as [-> Hfs]. split; [done|]. intros p _. by rewrite Hfs.
      * done.
    + right. exists msg. unfold on_failure in H.
      apply bind_inv in H as [(? & s2 & [_ Hfs2]%print_inv & H)|(? & [? _]%print_inv & _)];
        [|done].
      unfold bind, ret in H. injection H as <- <-. split; [done|].
      intros p _. by rewrite Hfs2, Hmk.
Qed.

(** The loop of lines 192-211 when it runs to its end without recording an
    error: every destination holds the document rebuilt from its source. *)
Lemma ocr_files_clean (output_dir : option string) (dpi : Z) (n : nat)
    (needs_ocr : list path) :
  let dest := fun pdf : path =>
    match output_dir with Some d => (d, name pdf) | None => pdf end in
  NoDup (dest <$> needs_ocr) ->
  (forall p q, p ∈ needs_ocr -> q ∈ needs_ocr -> dest q = p -> q = p) ->
  forall (i : nat) (errors errors' : list (path * string)) (s s' : state),
    (forall p, p ∈ needs_ocr -> is_Some (fs s !! p)) ->
    ocr_files E needs_ocr output_dir dpi i n errors s = (Ret errors', s') ->
    exists failed,
      errors' = errors ++ failed
      /\ (forall p, p ∉ dest <$> needs_ocr -> fs s' !! p = fs s !! p)
      /\ (failed = [] ->
          forall pdf, pdf ∈ needs_ocr ->
            exists bytes pages,
              fs s !! pdf = Some bytes /\ built_from E dpi bytes pages
              /\ fs s' !! dest pdf = Some (Composite pages)).
Proof.
  intros dest. induction needs_ocr as [|pdf rest IH];
    intros Hnodup Hsrc i errors errors' s s' Hthere; cbn [ocr_files].
  - intros [= <- <-]. exists []. rewrite app_nil_r. split; [done|]. split; [done|].
    by intros _ pdf ?%elem_of_nil.
  - assert (Hnodup0 : NoDup (pdf :: rest)) by by apply NoDup_fmap_1 in Hnodup.
    apply NoDup_cons in Hnodup0 as [Hpdf _].
    cbn [fmap list_fmap] in Hnodup. apply NoDup_cons in Hnodup as [Hfresh Hnodup].
    fold (fmap dest rest) in Hfresh, Hnodup.
    intros H. apply bind_inv in H as [(errors1 & s1 & Hone & H)|(? & _ & ?)]; [|done].
    apply ocr_one_ret_src in Hone; [|apply Hthere; left]. fold (dest pdf) in Hone.
    assert (Hother : forall p, p <> dest pdf -> fs s1 !! p = fs s !! p).
    { destruct Hone as [(_ & bytes & pages & _ & _ & ->)|(e & _ & ?)]; [|done].
      intros p Hp. by rewrite lookup_insert_ne. }
    assert (Hlater : forall p, p ∈ rest -> p <> dest pdf).
    { intros p Hp Heq. apply Hpdf.
      rewrite (Hsrc p pdf); [done|by right|by left|done]. }
    apply IH in H as (failed & -> & Hframe & Hclean); [|done| |].
    2:{ intros p q Hp Hq. apply Hsrc; by right. }
    2:{ intros p Hp. rewrite Hother by by apply Hlater. apply Hthere. by right. }
    destruct Hone as [(-> & bytes & pages & Hbytes & Hbuilt & Hfs1)|(e & -> & _)].
    + exists failed. split; [done|]. split.
      * intros p [Hp Hrest]%not_elem_of_cons. rewrite Hframe by done. by apply Hother.
      * intros Hnone p [->|Hp]%elem_of_cons.
        -- exists bytes, pages. split; [done|]. split; [done|].
           rewrite Hframe by done. by rewrite Hfs1, lookup_insert_eq.
        -- destruct (Hclean Hnone p Hp) as (bytes' & pages' & Hbytes' & Hbuilt' & Hdest).
           exists bytes', pages'. rewrite <- (Hother p) by by apply Hlater. done.
    + exists ((pdf, e) :: failed). split; [by rewrite <- app_assoc|]. split; [|done].
      intros p [Hp Hrest]%not_elem_of_cons. rewrite Hframe by done. by apply Hother.
Qed.

Lemma report_errors_last (errors : list (path * string)) (s : state) (n : nat) :
  errors <> [] ->
  last (trace (snd (report_errors errors s))) <> Some (Printed (MsgAllDone n)).
Proof.
  revert s. induction errors as [|[pdf msg] rest IH]; intros s Hne; [done|].
  cbn [report_errors]. unfold bind at 1. cbn [print emit].
  destruct rest as [|err rest'].
  - cbn [report_errors ret snd trace]. by rewrite last_snoc.
  - by apply IH.
Qed.

End Closing.

(** Property X16.  The closing message can be trusted.  If a run that is
    not a dry run returns and the last thing it printed is "All done. n
    file(s) processed successfully.", then n is the number of PDFs of the
    directory in which the detector found no text, and for each of them the
    destination (the document itself, or the file of the same name in the
    output directory) now holds the document rebuilt from that source as
    it was before the run: one page for each image of its rasterization
    at the requested resolution, in the order of the images, each the
    page built for that image. *)
Theorem X16_all_done_is_truthful (E : Env) (directory : string)
    (output_dir : option string) (dpi : Z) (s s' : state) (n : nat) :
  process_directory E directory output_dir false dpi s = (Ret tt, s') ->
  last (trace s') = Some (Printed (MsgAllDone n)) ->
  let dest := fun pdf : path =>
    match output_dir with Some d => (d, name pdf) | None => pdf end in
  exists needs_ocr,
    n = length needs_ocr /\ NoDup needs_ocr
    /\ (forall p, p ∈ needs_ocr <->
          is_Some (fs s !! p) /\ parent p = directory
          /\ is_pdf_name (name p) = true /\ found E (fs s) p = false)
    /\ forall p, p ∈ needs_ocr ->
         exists bytes pages,
           fs s !! p = Some bytes /\ built_from E dpi bytes pages
           /\ fs s' !! dest p = Some (Composite pages).
Proof.
  intros Hrun Hlast dest. revert Hrun.
  unfold process_directory. unfold bind at 1.
  destruct (glob_pdf_eval directory s) as (pdf_files & Hglob & Hfiles).
  assert (Hnodup : NoDup pdf_files).
  { unfold glob_pdf, bind, get_fs, ret in Hglob. injection Hglob as <-.
    rewrite merge_sort_Permutation. apply NoDup_filter, NoDup_elements. }
  rewrite Hglob.
  destruct pdf_files as [|pdf0 rest0].
  { unfold print, emit. intros [= <-]. cbn [trace] in Hlast. by rewrite last_snoc in Hlast. }
  unfold bind at 1. cbn [print emit]. unfold bind at 1.
  destruct (importable E "pdfplumber") eqn:Himp.
  2:{ match goal with |- context [scan_files E _ _ _ _ ?s1] =>
        destruct (scan_files_missing E pdf0 rest0 [] [] [] s1 Himp) as [msg ->] end.
      done. }
  remember (pdf0 :: rest0) as pdf_files eqn:Hlist. clear Hlist.
  rewrite scan_files_eval by done. cbn [fs trace app].
  set (needs_ocr := filter (fun p => found E (fs s) p <> true) pdf_files).
  assert (Hneeds : forall p, p ∈ needs_ocr <->
            is_Some (fs s !! p) /\ parent p = directory
            /\ is_pdf_name (name p) = true /\ found E (fs s) p = false).
  { intros p. unfold needs_ocr. rewrite list_elem_of_filter, Hfiles. split.
    - intros (Hno & ? & ? & ?). repeat split; try done. by apply not_true_is_false.
    - intros (? & ? & ? & Hf). split; [congruence|done]. }
  assert (Hnodup' : NoDup needs_ocr) by by apply NoDup_filter.
  clearbody needs_ocr.
  intros Hrun.
  apply bind_inv in Hrun as [(? & s1 & [_ Hfs1]%print_inv & Hrun)|(? & _ & ?)]; [|done].
  cbn [fs] in Hfs1.
  destruct needs_ocr as [|pdf1 rest1] eqn:Hlist.
  { unfold print, emit in Hrun. injection Hrun as <-. cbn [trace] in Hlast.
    by rewrite last_snoc in Hlast. }
  rewrite <- Hlist in *. clear Hlist.
  apply bind_inv in Hrun as [(? & s2 & Hmk & Hrun)|(? & _ & ?)]; [|done].
  assert (Hfs2 : fs s2 = fs s).
  { rewrite <- Hfs1. destruct output_dir as [d|].
    - by apply sys_inv in Hmk as [-> _].
    - by injection Hmk as _ <-. }
  assert (Hinj : forall p q, p ∈ needs_ocr -> q ∈ needs_ocr -> dest q = p -> q = p).
  { intros p q Hp Hq Heq.
    apply Hneeds in Hp as (_ & Hp & _). apply Hneeds in Hq as (_ & Hq & _).
    subst dest. destruct output_dir as [d|]; [|done].
    destruct p as [pp pn], q as [qp qn]. cbn [parent name fst snd] in *. congruence. }
  apply bind_inv in Hrun as [(errors' & s3 & Hbatch & Hrun)|(? & _ & ?)]; [|done].
  apply (ocr_files_clean E output_dir) in Hbatch as (failed & -> & _ & Hclean).
  2:{ apply NoDup_fmap_2_strong; [|done]. intros p q Hp Hq.
      apply Hneeds in Hp as (_ & Hp & _). apply Hneeds in Hq as (_ & Hq & _).
      destruct output_dir; [|done]. destruct p, q. cbn in *. congruence. }
  2:{ exact Hinj. }
  2:{ intros p Hp. rewrite Hfs2. by apply Hneeds in Hp as (? & _). }
  cbn [app] in Hrun. destruct failed as [|[pdf msg] rest].
  - unfold print, emit in Hrun. injection Hrun as <-. cbn [trace fs] in *.
    rewrite last_snoc in Hlast. injection Hlast as <-.
    exists needs_ocr. repeat split; try done; try by apply Hneeds.
    intros p Hp. destruct (Hclean eq_refl p Hp) as (bytes & pages & ? & ? & ?).
    exists bytes, pages. by rewrite <- Hfs2.
  - exfalso.
    apply bind_inv in Hrun as [(? & s4 & _ & Hrun)|(? & _ & ?)]; [|done].
    apply (report_errors_last ((pdf, msg) :: rest) s4 n); [done|]. by rewrite Hrun.
Qed.

Lemma X16_all_done_is_truthful_witness :
  exists bytes pages,
    fs one_scan !! ("docs", "scan.pdf") = Some bytes
    /\ built_from sample_env 300 bytes pages
    /\ fs (snd (process_directory sample_env "docs" (Some "out") false 300 one_scan))
         !! ("out", "scan.pdf") = Some (Composite pages).
Proof.
  destruct (process_directory sample_env "docs" (Some "out") false 300 one_scan)
    as [r s'] eqn:Hrun.
  assert (Hr : r = Ret tt).
  { apply (f_equal fst) in Hrun. cbn [fst] in Hrun. rewrite <- Hrun. vm_compute. reflexivity. }
  assert (Hlast : last (trace s') = Some (Printed (MsgAllDone 1))).
  { apply (f_equal snd) in Hrun. cbn [snd] in Hrun. rewrite <- Hrun. vm_compute. reflexivity. }
  subst r.
  destruct (X16_all_done_is_truthful sample_env "docs" (Some "out") 300 one_scan s' 1
              Hrun Hlast) as (needs_ocr & _ & _ & Hneeds & Hdone).
  cbn [snd]. apply (Hdone ("docs", "scan.pdf")). apply Hneeds.
  split; [by eexists|]. split; [reflexivity|]. split; vm_compute; reflexivity.
Defined.
